(** * Weekly stock cache and daily merger: a shallow embedding

    This development models the two request handlers of [app.py]
    ([generate_weekly_stocks] and [get_daily_stock_data]) and the
    response decoding of [llm_service.py] ([LLMService]), and proves the
    properties stated about them.

    Conventions.
    - A Python [str] is a [string] (the bytes of its UTF-8 encoding).  The
      code only searches for the ASCII characters '{' and '}', whose bytes
      never occur inside a multi-byte sequence, so searching and slicing
      on bytes selects the same text as on code points.
    - A value decoded by [json.loads] is a [json]; Python's [None] is
      [JNull], a [dict] is an association list in insertion order.
    - A Python [float] (and a [numpy.float64]) is a primitive binary64
      [float]; its arithmetic is IEEE 754, as in the interpreter.
    - A [datetime] is a number of microseconds, a [timedelta] a
      difference of two.
    - The handlers run in a monad that threads the module-level cache and
      a trace of the externally visible events (text printed, calls to
      the external services) and may raise an exception. *)

From Stdlib Require Import ZArith String Ascii List Floats Uint63 Lia Bool DecimalString.
From stdpp Require Import base list strings.

Open Scope Z_scope.

(** ** Python values *)

#[warnings="-register-all"]
Inductive json : Type :=
| JNull
| JBool (b : bool)
| JInt (z : Z)
| JFloat (f : float)
| JStr (s : string)
| JArr (l : list json)
| JObj (d : list (string * json)).

Definition dict : Type := list (string * json).

(** [bool(v)]: the truth value Python gives to a decoded value. *)
Definition truthy (v : json) : bool :=
  match v with
  | JNull => false
  | JBool b => b
  | JInt z => negb (z =? 0)
  | JFloat f => negb (PrimFloat.eqb f 0%float)
  | JStr s => negb (String.eqb s "")
  | JArr l => match l with [] => false | _ => true end
  | JObj d => match d with [] => false | _ => true end
  end.

(** [type(v).__name__], as it appears in Python's error messages. *)
Definition type_name (v : json) : string :=
  match v with
  | JNull => "NoneType"
  | JBool _ => "bool"
  | JInt _ => "int"
  | JFloat _ => "float"
  | JStr _ => "str"
  | JArr _ => "list"
  | JObj _ => "dict"
  end.

Fixpoint dict_get (d : dict) (k : string) : option json :=
  match d with
  | [] => None
  | (k', v) :: d' => if String.eqb k' k then Some v else dict_get d' k
  end.

(** [d[k] = v]: an existing key keeps its position, a new key goes last. *)
Fixpoint dict_set (d : dict) (k : string) (v : json) : dict :=
  match d with
  | [] => [(k, v)]
  | (k', v') :: d' =>
      if String.eqb k' k then (k', v) :: d' else (k', v') :: dict_set d' k v
  end.

Definition dict_get_default (d : dict) (k : string) (dflt : json) : json :=
  match dict_get d k with Some v => v | None => dflt end.

(** ** Exceptions *)

Inductive exn_class : Type :=
| Exception_          (* a plain [Exception(...)] *)
| ValueError
| TypeError
| AttributeError
| JSONDecodeError
| APIError            (* [openai.APIError] and its subclasses *)
| OtherError.         (* any other subclass of [Exception] *)

Record exn : Type := Exn { exn_cls : exn_class; exn_msg : string }.

Definition is_JSONDecodeError (e : exn) : bool :=
  match exn_cls e with JSONDecodeError => true | _ => false end.

Definition is_APIError (e : exn) : bool :=
  match exn_cls e with APIError => true | _ => false end.

(** [except Exception] catches every class above. *)
Definition is_Exception (_ : exn) : bool := true.

(** ** Python string operations used by the code *)

Definition dq : string := String "034"%char "".
Definition nl : string := String "010"%char "".

(** [s.find(c)] for a one-character [c]: the first index, or -1. *)
Fixpoint find_from (c : ascii) (s : string) (i : Z) : Z :=
  match s with
  | EmptyString => -1
  | String a r => if Ascii.eqb a c then i else find_from c r (i + 1)
  end.

Definition str_find (s : string) (c : ascii) : Z := find_from c s 0.

(** [s.rfind(c)] for a one-character [c]: the last index, or -1. *)
Fixpoint rfind_from (c : ascii) (s : string) (i : Z) (last : Z) : Z :=
  match s with
  | EmptyString => last
  | String a r => rfind_from c r (i + 1) (if Ascii.eqb a c then i else last)
  end.

Definition str_rfind (s : string) (c : ascii) : Z := rfind_from c s 0 (-1).

(** [s[start:stop]] with Python's treatment of negative and out-of-range
    indices. *)
Definition str_slice (s : string) (start stop : Z) : string :=
  let n := Z.of_nat (String.length s) in
  let norm i := if i <? 0 then Z.max 0 (i + n) else Z.min i n in
  let a := norm start in
  let b := norm stop in
  substring (Z.to_nat a) (Z.to_nat (b - a)) s.

(** [s.replace(old, new)] for a non-empty [old]: left to right, without
    overlaps.  [skip] counts the characters of a match still to drop. *)
Fixpoint replace_aux (old new : string) (s : string) (skip : nat) : string :=
  match s with
  | EmptyString => EmptyString
  | String a r =>
      match skip with
      | S k => replace_aux old new r k
      | O =>
          if String.prefix old s
          then new +:+ replace_aux old new r (String.length old - 1)
          else String a (replace_aux old new r 0)
      end
  end.

Definition str_replace (s old new : string) : string := replace_aux old new s 0.

(** [s.lower()] on the ASCII letters; the other characters are kept.  A
    non-ASCII letter never lowers to a letter of the provider names
    compared with below, so which names are accepted is as in Python;
    the text of the message for a refused name is Python's when the name
    is ASCII. *)
Definition ascii_lower (a : ascii) : ascii :=
  let n := nat_of_ascii a in
  if (Nat.leb 65 n && Nat.leb n 90)%bool then ascii_of_nat (n + 32) else a.

Fixpoint str_lower (s : string) : string :=
  match s with
  | EmptyString => EmptyString
  | String a r => String (ascii_lower a) (str_lower r)
  end.

(** ** The interpreter's builtins and the external services

    [Runtime] collects the library functions the code calls and whose
    implementation is not part of the repository.  A theorem below holds
    for every runtime, unless it states what it assumes of one. *)

Record Runtime : Type := {
  (** [json.loads]: the decoded value, or the exception it raises (a
      [JSONDecodeError] on malformed text). *)
  json_loads : string -> exn + json;
  (** [str.strip()]. *)
  str_strip : string -> string;
  (** [str(v)] as used by an f-string. *)
  py_str : json -> string;
  (** [str(now.timestamp())] as used by an f-string. *)
  timestamp_str : Z -> string;
  (** [round(x, 2)] on a close price. *)
  round2 : float -> float
}.

(** [World] fixes what the environment and the external services answer
    during one request.  The calls made inside a loop are indexed by the
    position of the item in the list, so that two items with the same
    ticker may get different answers. *)
Record World : Type := {
  (** [os.getenv]. *)
  getenv : string -> option string;
  (** [openai.OpenAI(api_key=k)]: the client's [api_key], or the
      exception the constructor raises. *)
  openai_client : option string -> exn + option string;
  (** [chat.completions.create(...).choices[0].message.content] for a
      prompt; the content may be [None]. *)
  openai_create : string -> exn + option string;
  (** [genai.configure] followed by [genai.GenerativeModel]. *)
  gemini_configure : string -> exn + unit;
  (** [generate_content(prompt).text]. *)
  gemini_generate : string -> exn + string;
  (** [yf.Ticker(t).info]. *)
  yf_info : nat -> json -> exn + dict;
  (** [yf.Ticker(t).history(period="2d")], given by its Close column. *)
  yf_history : nat -> json -> exn + list float;
  (** [datetime.now()], in microseconds. *)
  now : Z
}.

(** ** The cache, the trace and the monad *)

(** [weekly_stock_data = {"last_updated": ..., "data": [...]}]. *)
Record cache : Type := Cache {
  last_updated : option Z;
  data : list json
}.

(** The value of [weekly_stock_data] when the module is loaded. *)
Definition initial_cache : cache := Cache None [].

Inductive event : Type :=
| Print (s : string)
| CallLLM (provider : string)
| CallInfo (ticker : json)
| CallHistory (ticker : json).

Record state : Type := State {
  weekly_stock_data : cache;
  trace : list event
}.

Definition M (A : Type) : Type := state -> (exn + A) * state.

Definition ret {A} (a : A) : M A := fun s => (inr a, s).

Definition bind {A B} (m : M A) (k : A -> M B) : M B :=
  fun s => match m s with
           | (inr a, s') => k a s'
           | (inl e, s') => (inl e, s')
           end.

Definition raise {A} (e : exn) : M A := fun s => (inl e, s).

(** [try: m except C as e: h e], where [catches] recognises class [C]. *)
Definition try_except {A} (m : M A) (catches : exn -> bool) (h : exn -> M A) : M A :=
  fun s => match m s with
           | (inr a, s') => (inr a, s')
           | (inl e, s') => if catches e then h e s' else (inl e, s')
           end.

Definition lift {A} (r : exn + A) : M A :=
  match r with inr a => ret a | inl e => raise e end.

Definition emit (ev : event) : M unit :=
  fun s => (inr tt, State (weekly_stock_data s) (trace s ++ [ev])).

Definition print (msg : string) : M unit := emit (Print msg).

Definition get_cache : M cache := fun s => (inr (weekly_stock_data s), s).

Definition set_cache (c : cache) : M unit := fun s => (inr tt, State c (trace s)).

Declare Scope py_scope.
Delimit Scope py_scope with py.
Notation "x <- m ;; k" := (bind m (fun x => k))
  (at level 100, m at next level, right associativity) : py_scope.
Notation "m ;;; k" := (bind m (fun _ => k))
  (at level 100, right associativity) : py_scope.
Open Scope py_scope.

(** ** Operations on decoded values that may raise *)

(** [o.get(k, dflt)]: only a [dict] has the method. *)
Definition py_get (o : json) (k : string) (dflt : json) : exn + json :=
  match o with
  | JObj d => inr (dict_get_default d k dflt)
  | _ => inl (Exn AttributeError
                ("'" +:+ type_name o +:+ "' object has no attribute 'get'"))
  end.

(** [o[k] = v]. *)
Definition py_setitem (o : json) (k : string) (v : json) : exn + json :=
  match o with
  | JObj d => inr (JObj (dict_set d k v))
  | _ => inl (Exn TypeError
                ("'" +:+ type_name o +:+ "' object does not support item assignment"))
  end.

Fixpoint chars_of (s : string) : list json :=
  match s with
  | EmptyString => []
  | String a r => JStr (String a EmptyString) :: chars_of r
  end.

(** The items a [for] loop visits: the elements of a list, the characters
    of a string, the keys of a dict; other values are not iterable. *)
Definition py_iter (o : json) : exn + list json :=
  match o with
  | JArr l => inr l
  | JStr s => inr (chars_of s)
  | JObj d => inr (map (fun kv => JStr (fst kv)) d)
  | _ => inl (Exn TypeError ("'" +:+ type_name o +:+ "' object is not iterable"))
  end.

(** ** [llm_service.py]: class [LLMService] *)

Section Program.

Variable rt : Runtime.

Record LLMService : Type := { provider : string }.

(** [LLMService.__init__]. *)
Definition LLMService_init (w : World) (provider_arg : string) : M LLMService :=
  let p := str_lower provider_arg in
  if negb (String.eqb p "openai" || String.eqb p "gemini") then
    raise (Exn ValueError
             ("Unsupported provider: " +:+ p +:+ ". Please use 'openai' or 'gemini'."))
  else if String.eqb p "openai" then
    api_key <- lift (openai_client w (getenv w "OPENAI_API_KEY")) ;;
    match api_key with
    | None | Some EmptyString =>
        raise (Exn ValueError "OPENAI_API_KEY environment variable not set.")
    | Some _ => ret {| provider := p |}
    end
  else if String.eqb p "gemini" then
    match getenv w "GEMINI_API_KEY" with
    | None | Some EmptyString =>
        raise (Exn ValueError "GEMINI_API_KEY environment variable not set.")
    | Some gemini_api_key =>
        lift (gemini_configure w gemini_api_key) ;;;
        ret {| provider := p |}
    end
  else ret {| provider := p |}.

Definition indent : string := "        ".

(** [LLMService.generate_prompt]. *)
Definition generate_prompt : string :=
  nl +:+ indent +:+
  "Generate a list of the 50 most popular stocks this week. For each stock, provide:"
  +:+ nl +:+ indent +:+ "1. The ticker symbol (string)"
  +:+ nl +:+ indent +:+
  "2. A buy_sell_score (integer from 0 to 100, where 100 is a strong buy)"
  +:+ nl +:+ indent +:+
  "3. A brief reason for the preference (string, 1-2 sentences)"
  +:+ nl +:+ indent
  +:+ nl +:+ indent +:+ "Return the data as a single JSON object with a key "
  +:+ dq +:+ "stocks" +:+ dq +:+ " containing a list of these items."
  +:+ nl +:+ indent +:+ "Example format: {" +:+ dq +:+ "stocks" +:+ dq +:+ ": [{"
  +:+ dq +:+ "ticker" +:+ dq +:+ ": " +:+ dq +:+ "AAPL" +:+ dq +:+ ", "
  +:+ dq +:+ "preference_score" +:+ dq +:+ ": 85, "
  +:+ dq +:+ "reason" +:+ dq +:+ ": " +:+ dq +:+ "..." +:+ dq +:+ "}]}"
  +:+ nl +:+ indent.

(** [LLMService.call_openai].  The result is the message content, which
    the SDK types as optional. *)
Definition call_openai (w : World) (prompt : string) : M (option string) :=
  try_except
    (emit (CallLLM "openai") ;;;
     lift (openai_create w prompt))
    is_APIError
    (fun e => raise (Exn Exception_ ("OpenAI API error: " +:+ exn_msg e))).

(** [LLMService.call_gemini]. *)
Definition call_gemini (w : World) (prompt : string) : M (option string) :=
  try_except
    (emit (CallLLM "gemini") ;;;
     text <- lift (gemini_generate w prompt) ;;
     let cleaned_response :=
       str_replace (str_replace (str_strip rt text) "```json" "") "```" "" in
     ret (Some cleaned_response))
    is_Exception
    (fun e => raise (Exn Exception_ ("Gemini API error: " +:+ exn_msg e))).

Definition failed_to_decode : exn :=
  Exn Exception_ "Failed to decode JSON from LLM response.".

Definition no_json_object_msg : string :=
  "Could not find a JSON object in the response.".

(** The [try] block of [generate_stock_data] (lines 91-114): locate the
    first '{' and the last '}', decode what lies between them. *)
Definition decode_response (raw_response : option string) : M json :=
  try_except
    (match raw_response with
     | None =>
         raise (Exn AttributeError "'NoneType' object has no attribute 'find'")
     | Some raw =>
         let start_index := str_find raw "{" in
         let end_index := str_rfind raw "}" + 1 in
         if (start_index =? -1) || (end_index =? 0) then
           raise (Exn JSONDecodeError no_json_object_msg)
         else
           let json_string := str_slice raw start_index end_index in
           lift (json_loads rt json_string)
     end)
    is_JSONDecodeError
    (fun e =>
       print ("JSON Decode Error: " +:+ exn_msg e) ;;;
       print "--- LLM Raw Response ---" ;;;
       print (match raw_response with Some raw => raw | None => "None" end) ;;;
       print "------------------------" ;;;
       raise failed_to_decode).

(** [LLMService.generate_stock_data]. *)
Definition generate_stock_data (w : World) (self : LLMService) : M json :=
  let prompt := generate_prompt in
  raw_response <-
    (if String.eqb (provider self) "openai" then call_openai w prompt
     else if String.eqb (provider self) "gemini" then call_gemini w prompt
     else ret (Some "")) ;;
  decode_response raw_response.

(** ** [app.py]: the two handlers *)

(** One turn of the enrichment loop (lines 37-50): [enriched] is the list
    built so far, the result is the list after the turn. *)
Definition enrich_stock (w : World) (i : nat) (stock : json)
    (enriched_stock_list : list json) : M (list json) :=
  ticker_str <- lift (py_get stock "ticker" JNull) ;;
  if negb (truthy ticker_str) then ret enriched_stock_list
  else
    try_except
      (print ("Enriching data for " +:+ py_str rt ticker_str +:+ "...") ;;;
       emit (CallInfo ticker_str) ;;;
       ticker_info <- lift (yf_info w i ticker_str) ;;
       stock' <- lift (py_setitem stock "name"
                         (dict_get_default ticker_info "longName" ticker_str)) ;;
       ret (enriched_stock_list ++ [stock']))
      is_Exception
      (fun e =>
         print ("Could not fetch info for " +:+ py_str rt ticker_str +:+ ": "
                +:+ exn_msg e) ;;;
         stock' <- lift (py_setitem stock "name" ticker_str) ;;
         ret (enriched_stock_list ++ [stock'])).

(** [for stock in stock_list: ...], from position [i] on. *)
Fixpoint enrich_loop (w : World) (i : nat) (stock_list : list json)
    (enriched_stock_list : list json) : M (list json) :=
  match stock_list with
  | [] => ret enriched_stock_list
  | stock :: rest =>
      enriched' <- enrich_stock w i stock enriched_stock_list ;;
      enrich_loop w (S i) rest enriched'
  end.

Definition generated_message : string :=
  "Weekly stock data generated and enriched successfully".

Definition generated_response (count : nat) : json :=
  JObj [("message", JStr generated_message); ("count", JInt (Z.of_nat count))].

(** Lines 33-57 of [generate_weekly_stocks]: from the decoded response to
    the returned dict. *)
Definition store_enriched (w : World) (response_data : json) : M json :=
  stock_list <- lift (py_get response_data "stocks" (JArr [])) ;;
  items <- lift (py_iter stock_list) ;;
  enriched_stock_list <- enrich_loop w 0 items [] ;;
  set_cache {| last_updated := Some (now w); data := enriched_stock_list |} ;;;
  print "Weekly data generation complete." ;;;
  ret (generated_response (length enriched_stock_list)).

(** [generate_weekly_stocks(provider)]: the body of the outer [try]. *)
Definition generate_body (w : World) (provider_arg : string) : M json :=
  print "Generating weekly stock data from LLM..." ;;;
  llm_service <- LLMService_init w provider_arg ;;
  response_data <- generate_stock_data w llm_service ;;
  store_enriched w response_data.

Definition error_response (e : exn) : json :=
  JObj [("error", JStr ("An error occurred: " +:+ exn_msg e))].

Definition generate_weekly_stocks (w : World) (provider_arg : string) : M json :=
  try_except (generate_body w provider_arg) is_Exception
    (fun e => ret (error_response e)).

(** [timedelta(days=7)], in microseconds. *)
Definition seven_days : Z := 7 * 86400 * 1000000.

Definition staleness_error : json :=
  JObj [("error",
         JStr "Weekly stock data is missing or outdated. Please trigger the /generate-weekly-stocks endpoint manually.")].

(** [closes.iloc[i]] with Python's negative indices. *)
Definition iloc (closes : list float) (i : Z) : exn + float :=
  let n := Z.of_nat (length closes) in
  let j := if i <? 0 then i + n else i in
  if (0 <=? j) && (j <? n) then inr (nth (Z.to_nat j) closes 0%float)
  else inl (Exn OtherError "single positional indexer is out-of-bounds").

(** [((last_close - prev_close) / prev_close) * 100] in binary64. *)
Definition percent_change (prev_close last_close : float) : float :=
  ((last_close - prev_close) / prev_close * 100)%float.

(** The dict appended to [merged_data] (lines 88-96). *)
Definition merged_view (now_ : Z) (ticker name score reason : json)
    (last_close pct : float) : json :=
  JObj [("id", JStr (py_str rt ticker +:+ "-" +:+ timestamp_str rt now_));
        ("ticker", ticker);
        ("name", name);
        ("buy_sell_score", score);
        ("reason", reason);
        ("price", JFloat (round2 rt last_close));
        ("changePct", JFloat (round2 rt pct))].

(** One turn of the merge loop (lines 74-99). *)
Definition merge_stock (w : World) (i : nat) (stock : json)
    (merged_data : list json) : M (list json) :=
  ticker <- lift (py_get stock "ticker" JNull) ;;
  if negb (truthy ticker) then ret merged_data
  else
    try_except
      (emit (CallHistory ticker) ;;;
       history <- lift (yf_history w i ticker) ;;
       if (length history <? 2)%nat then ret merged_data
       else
         last_close <- lift (iloc history (-1)) ;;
         prev_close <- lift (iloc history (-2)) ;;
         let pct := percent_change prev_close last_close in
         name <- lift (py_get stock "name" JNull) ;;
         score <- lift (py_get stock "buy_sell_score" (JInt 50)) ;;
         reason <- lift (py_get stock "reason" (JStr "")) ;;
         ret (merged_data ++
              [merged_view (now w) ticker name score reason last_close pct]))
      is_Exception
      (fun e =>
         print ("Error fetching Yahoo Finance data for " +:+ py_str rt ticker
                +:+ ": " +:+ exn_msg e) ;;;
         ret merged_data).

Fixpoint merge_loop (w : World) (i : nat) (stocks : list json)
    (merged_data : list json) : M (list json) :=
  match stocks with
  | [] => ret merged_data
  | stock :: rest =>
      merged' <- merge_stock w i stock merged_data ;;
      merge_loop w (S i) rest merged'
  end.

(** [not data or (now - last_updated) > timedelta(days=7)]; the
    subtraction is only evaluated when the list is not empty, and raises
    when [last_updated] is still [None]. *)
Definition is_stale (c : cache) (now_ : Z) : exn + bool :=
  match data c with
  | [] => inr true
  | _ :: _ =>
      match last_updated c with
      | Some t => inr (seven_days <? now_ - t)
      | None =>
          inl (Exn TypeError
                 "unsupported operand type(s) for -: 'datetime.datetime' and 'NoneType'")
      end
  end.

(** [get_daily_stock_data()]. *)
Definition get_daily_stock_data (w : World) : M json :=
  let now_ := now w in
  c <- get_cache ;;
  stale <- lift (is_stale c now_) ;;
  if (stale : bool) then ret staleness_error
  else
    merged_data <- merge_loop w 0 (data c) [] ;;
    ret (JArr merged_data).

End Program.

(** ** Rounding to two decimals

    A cell of the Close column is a [numpy.float64], and [round(x, 2)]
    on it is numpy's: [rint(x * 100) / 100], the product and the
    quotient in binary64 and [rint] the nearest integer, ties to even.
    [rint] is written on the exact value of its argument, the number
    [m * 2 ^ e] with the sign [s] that [Prim2SF] reads off the float. *)

(** The integer nearest to [m / d], the even one of two equally near. *)
Definition nearest_even (m d : Z) : Z :=
  let q := m / d in
  let r := m mod d in
  if 2 * r <? d then q
  else if d <? 2 * r then q + 1
  else if Z.even q then q else q + 1.

(** The integer nearest to [m * 2 ^ e]. *)
Definition nearest_integer_of (m : positive) (e : Z) : Z :=
  if 0 <=? e then Z.pos m * 2 ^ e else nearest_even (Z.pos m) (2 ^ (- e)).

(** The float of the integer [n], below [2 ^ 53], with its sign. *)
Definition integer_float (negative : bool) (n : Z) : float :=
  let f := PrimFloat.of_uint63 (Uint63.of_Z n) in
  if negative then (- f)%float else f.

(** [rint]: a float of magnitude [2 ^ 52] or more is an integer already,
    and so are the zeros. *)
Definition rint (x : float) : float :=
  if (PrimFloat.abs x <? 0x1p52)%float then
    match Prim2SF x with
    | S754_finite s m e => integer_float s (nearest_integer_of m e)
    | _ => x
    end
  else x.

Definition round_half_even (x : float) : float := (rint (x * 100) / 100)%float.

(** ** A reference runtime

    An executable instance of [Runtime], used to run the model on
    concrete inputs.  Its decoder follows [json.loads] on JSON without
    [\u] escapes and with fractional numbers of at most 53 bits of
    mantissa and a decimal exponent of at most 22 (for which one IEEE
    operation gives the correctly rounded value); its [str] is exact on
    [None], booleans, integers and strings; its [round] is
    [round_half_even]. *)

Module Reference.

(** The outcome of a decoding step: the [msg] of the [JSONDecodeError],
    or the value read and the text left. *)
Definition parse (A : Type) : Type := string + (A * string).

Definition is_json_ws (a : ascii) : bool :=
  Ascii.eqb a " " || Ascii.eqb a "009" || Ascii.eqb a "010" || Ascii.eqb a "013".

Fixpoint skip_ws (s : string) : string :=
  match s with
  | String a r => if is_json_ws a then skip_ws r else s
  | EmptyString => EmptyString
  end.

Definition digit_of (a : ascii) : option Z :=
  let n := nat_of_ascii a in
  if (Nat.leb 48 n && Nat.leb n 57)%bool then Some (Z.of_nat (n - 48)) else None.

(** The digits at the head of [s], read as a number continuing [acc];
    [cnt] counts them. *)
Fixpoint read_digits (s : string) (acc : Z) (cnt : nat) : Z * nat * string :=
  match s with
  | String a r =>
      match digit_of a with
      | Some d => read_digits r (10 * acc + d) (S cnt)
      | None => (acc, cnt, s)
      end
  | EmptyString => (acc, cnt, s)
  end.

Definition starts_digit (s : string) : bool :=
  match s with
  | String a _ => match digit_of a with Some _ => true | None => false end
  | EmptyString => false
  end.

Fixpoint pow10 (n : nat) : float :=
  match n with
  | O => 1%float
  | S k => (10 * pow10 k)%float
  end.

(** [mantissa * 10 ^ scale] as a float, when one operation gives it. *)
Definition decimal_float (mantissa scale : Z) : option float :=
  if (mantissa <? 2 ^ 53) && (Z.abs scale <=? 22) then
    let m := PrimFloat.of_uint63 (Uint63.of_Z mantissa) in
    let p := pow10 (Z.to_nat (Z.abs scale)) in
    Some (if 0 <=? scale then (m * p)%float else (m / p)%float)
  else None.

(** The fraction [.ddd] at the head of [s], if there is one. *)
Definition read_fraction (s : string) (acc : Z) : option (Z * nat * string) :=
  match s with
  | String "." r => if starts_digit r then Some (read_digits r acc 0) else None
  | _ => None
  end.

(** The exponent [e+dd] at the head of [s], if there is one. *)
Definition read_exponent (s : string) : option (Z * string) :=
  match s with
  | String a r =>
      if Ascii.eqb a "e" || Ascii.eqb a "E" then
        let '(neg, r1) :=
          match r with
          | String "-" r' => (true, r')
          | String "+" r' => (false, r')
          | _ => (false, r)
          end in
        if starts_digit r1 then
          let '(e, _, rest) := read_digits r1 0 0 in
          Some (if (neg : bool) then - e else e, rest)
        else None
      else None
  | EmptyString => None
  end.

(** A number: an [int] when it has neither fraction nor exponent, a
    [float] otherwise. *)
Definition read_number (s : string) : parse json :=
  let '(neg, s1) :=
    match s with
    | String "-" r => (true, r)
    | _ => (false, s)
    end in
  if starts_digit s1 then
    let '(n, _, s2) :=
      match s1 with
      | String "0" r => (0, 1%nat, r)
      | _ => read_digits s1 0 0
      end in
    let '(mantissa, frac_digits, s3, has_fraction) :=
      match read_fraction s2 n with
      | Some (m, cnt, rest) => (m, cnt, rest, true)
      | None => (n, 0%nat, s2, false)
      end in
    let '(exponent, s4, has_exponent) :=
      match read_exponent s3 with
      | Some (e, rest) => (e, rest, true)
      | None => (0, s3, false)
      end in
    if (has_fraction : bool) || (has_exponent : bool) then
      match decimal_float mantissa (exponent - Z.of_nat frac_digits) with
      | Some f => inr (JFloat (if (neg : bool) then (- f)%float else f), s4)
      | None => inl "Number outside the range of the reference decoder"
      end
    else inr (JInt (if (neg : bool) then - n else n), s4)
  else inl "Expecting value".

Definition unescape (a : ascii) : option ascii :=
  if Ascii.eqb a "034" then Some "034"%char
  else if Ascii.eqb a "092" then Some "092"%char
  else if Ascii.eqb a "/" then Some "/"%char
  else if Ascii.eqb a "b" then Some "008"%char
  else if Ascii.eqb a "f" then Some "012"%char
  else if Ascii.eqb a "n" then Some "010"%char
  else if Ascii.eqb a "r" then Some "013"%char
  else if Ascii.eqb a "t" then Some "009"%char
  else None.

(** The text up to the closing quote, and what follows it. *)
Fixpoint read_string (s : string) : parse string :=
  match s with
  | EmptyString => inl "Unterminated string starting at"
  | String a r =>
      if Ascii.eqb a "034" then inr (EmptyString, r)
      else if Ascii.eqb a "092" then
        match r with
        | String b r' =>
            match unescape b with
            | Some c =>
                match read_string r' with
                | inr (body, rest) => inr (String c body, rest)
                | inl msg => inl msg
                end
            | None => inl ("Invalid " +:+ String "092" "escape")
            end
        | EmptyString => inl "Unterminated string starting at"
        end
      else if Nat.ltb (nat_of_ascii a) 32 then inl "Invalid control character at"
      else
        match read_string r with
        | inr (body, rest) => inr (String a body, rest)
        | inl msg => inl msg
        end
  end.

Definition expecting_name : string :=
  "Expecting property name enclosed in double quotes".

Definition after (n : Z) (s : string) : string :=
  str_slice s n (Z.of_nat (String.length s)).

Fixpoint read_value (fuel : nat) (s : string) : parse json :=
  match fuel with
  | O => inl "Expecting value"
  | S fuel' =>
      let s := skip_ws s in
      if String.prefix "null" s then inr (JNull, after 4 s)
      else if String.prefix "true" s then inr (JBool true, after 4 s)
      else if String.prefix "false" s then inr (JBool false, after 5 s)
      else
        match s with
        | String a r =>
            if Ascii.eqb a "034" then
              match read_string r with
              | inr (body, rest) => inr (JStr body, rest)
              | inl msg => inl msg
              end
            else if Ascii.eqb a "[" then
              match skip_ws r with
              | String "]" rest => inr (JArr [], rest)
              | _ => match read_elements fuel' r with
                     | inr (l, rest) => inr (JArr l, rest)
                     | inl msg => inl msg
                     end
              end
            else if Ascii.eqb a "{" then
              match skip_ws r with
              | String "}" rest => inr (JObj [], rest)
              | _ => match read_members fuel' r [] with
                     | inr (d, rest) => inr (JObj d, rest)
                     | inl msg => inl msg
                     end
              end
            else read_number s
        | EmptyString => inl "Expecting value"
        end
  end
with read_elements (fuel : nat) (s : string) : parse (list json) :=
  match fuel with
  | O => inl "Expecting value"
  | S fuel' =>
      match read_value fuel' s with
      | inr (v, rest) =>
          match skip_ws rest with
          | String "," rest' =>
              match read_elements fuel' rest' with
              | inr (l, rest'') => inr (v :: l, rest'')
              | inl msg => inl msg
              end
          | String "]" rest' => inr ([v], rest')
          | _ => inl "Expecting ',' delimiter"
          end
      | inl msg => inl msg
      end
  end
with read_members (fuel : nat) (s : string) (acc : dict) : parse dict :=
  match fuel with
  | O => inl "Expecting value"
  | S fuel' =>
      match skip_ws s with
      | String a r =>
          if Ascii.eqb a "034" then
            match read_string r with
            | inr (key, rest) =>
                match skip_ws rest with
                | String ":" rest' =>
                    match read_value fuel' rest' with
                    | inr (v, rest'') =>
                        let acc' := dict_set acc key v in
                        match skip_ws rest'' with
                        | String "," rest3 => read_members fuel' rest3 acc'
                        | String "}" rest3 => inr (acc', rest3)
                        | _ => inl "Expecting ',' delimiter"
                        end
                    | inl msg => inl msg
                    end
                | _ => inl "Expecting ':' delimiter"
                end
            | inl msg => inl msg
            end
          else inl expecting_name
      | EmptyString => inl expecting_name
      end
  end.

Definition loads (s : string) : exn + json :=
  match read_value (2 * String.length s + 2) s with
  | inr (v, rest) =>
      match skip_ws rest with
      | EmptyString => inr v
      | _ => inl (Exn JSONDecodeError "Extra data")
      end
  | inl msg => inl (Exn JSONDecodeError msg)
  end.

Definition is_space (a : ascii) : bool :=
  let n := nat_of_ascii a in
  (Nat.eqb n 32 || (Nat.leb 9 n && Nat.leb n 13) || (Nat.leb 28 n && Nat.leb n 31))%bool.

Fixpoint lstrip (s : string) : string :=
  match s with
  | String a r => if is_space a then lstrip r else s
  | EmptyString => EmptyString
  end.

Fixpoint rstrip (s : string) : string :=
  match s with
  | String a r =>
      match rstrip r with
      | EmptyString => if is_space a then EmptyString else String a EmptyString
      | r' => String a r'
      end
  | EmptyString => EmptyString
  end.

Definition strip (s : string) : string := rstrip (lstrip s).

Definition decimal (z : Z) : string := NilZero.string_of_int (Z.to_int z).

Definition str (v : json) : string :=
  match v with
  | JNull => "None"
  | JBool true => "True"
  | JBool false => "False"
  | JInt z => decimal z
  | JStr s => s
  | _ => "<" +:+ type_name v +:+ ">"
  end.

(** [s] without its trailing zeros. *)
Fixpoint trim_zeros (s : string) : string :=
  match s with
  | String a r =>
      match trim_zeros r with
      | EmptyString => if Ascii.eqb a "0" then EmptyString else String a EmptyString
      | r' => String a r'
      end
  | EmptyString => EmptyString
  end.

(** Seconds with the microseconds as a decimal fraction. *)
Definition timestamp (us : Z) : string :=
  decimal (us / 1000000) +:+ "." +:+
  match trim_zeros (str_slice (decimal (1000000 + us mod 1000000)) 1 7) with
  | EmptyString => "0"
  | fraction => fraction
  end.

Definition runtime : Runtime :=
  {| json_loads := loads;
     str_strip := strip;
     py_str := str;
     timestamp_str := timestamp;
     round2 := round_half_even |}.

End Reference.

(** ** Vocabulary of the statements *)

(** [st] with further events in its trace. *)
Definition logged (st : state) (evs : list event) : state :=
  State (weekly_stock_data st) (trace st ++ evs).

(** What the [except json.JSONDecodeError] handler prints. *)
Definition decode_failure_log (msg raw : string) : list event :=
  [Print ("JSON Decode Error: " +:+ msg);
   Print "--- LLM Raw Response ---";
   Print raw;
   Print "------------------------"].

Definition has_char (c : ascii) (s : string) : Prop :=
  In c (list_ascii_of_string s).

(** The text of the example [noise{"stocks":[]}more noise]. *)
Definition empty_stocks_text : string :=
  "{" +:+ dq +:+ "stocks" +:+ dq +:+ ":[]}".

Definition noisy_text : string := "noise" +:+ empty_stocks_text +:+ "more noise".

Definition empty_stocks : json := JObj [("stocks", JArr [])].

Definition state0 : state := State initial_cache [].

(** [timedelta(days=n)], in microseconds. *)
Definition days (n : Z) : Z := n * 86400 * 1000000.

(** The claim that a caller can tell the two decoding failures apart:
    some error [no_json_found] is raised exactly for texts without a
    brace pair, another one, [invalid_json], for texts whose extracted
    part does not decode. *)
Definition decode_errors_distinguishable (rt : Runtime) : Prop :=
  exists no_json_found invalid_json : exn,
    no_json_found <> invalid_json /\
    (forall raw st,
        ~ has_char "{" raw \/ ~ has_char "}" raw ->
        fst (decode_response rt (Some raw) st) = inl no_json_found) /\
    (forall raw st e,
        has_char "{" raw -> has_char "}" raw ->
        json_loads rt (str_slice raw (str_find raw "{") (str_rfind raw "}" + 1))
          = inl e ->
        is_JSONDecodeError e = true ->
        fst (decode_response rt (Some raw) st) = inl invalid_json).

Definition is_dict (v : json) : Prop :=
  match v with JObj _ => True | _ => False end.

(** The ticker of a cached or decoded item: its ["ticker"] entry, [None]
    when there is none. *)
Definition ticker_of (v : json) : json :=
  match v with JObj d => dict_get_default d "ticker" JNull | _ => JNull end.

(** The invariant of the cache: its items are dicts, and a non-empty list
    comes with the time it was stored. *)
Definition well_formed (c : cache) : Prop :=
  Forall is_dict (data c) /\ (data c <> [] -> last_updated c <> None).

(** A computation that leaves [weekly_stock_data] as it found it. *)
Definition preserves_cache {A} (m : M A) : Prop :=
  forall st, weekly_stock_data (snd (m st)) = weekly_stock_data st.

(** The name stored for the item at position [i] with ticker [t]. *)
Definition name_for (w : World) (i : nat) (t : json) : json :=
  match yf_info w i t with
  | inr ticker_info => dict_get_default ticker_info "longName" t
  | inl _ => t
  end.

(** What the item at position [i] contributes to the enriched list. *)
Definition enrich_of (w : World) (i : nat) (stock : json) : list json :=
  match stock with
  | JObj d =>
      let t := dict_get_default d "ticker" JNull in
      if truthy t then [JObj (dict_set d "name" (name_for w i t))] else []
  | _ => []
  end.

Fixpoint enriched_of (w : World) (i : nat) (stocks : list json) : list json :=
  match stocks with
  | [] => []
  | stock :: rest => enrich_of w i stock ++ enriched_of w (S i) rest
  end.

(** What the cached item at position [i] contributes to the merged
    result: one view when its price fetch gives two closes or more,
    nothing otherwise. *)
Definition view_of (rt : Runtime) (w : World) (i : nat) (stock : json) : list json :=
  match stock with
  | JObj d =>
      let t := dict_get_default d "ticker" JNull in
      if truthy t then
        match yf_history w i t with
        | inr closes =>
            match rev closes with
            | last_close :: prev_close :: _ =>
                [merged_view rt (now w) t
                   (dict_get_default d "name" JNull)
                   (dict_get_default d "buy_sell_score" (JInt 50))
                   (dict_get_default d "reason" (JStr ""))
                   last_close (percent_change prev_close last_close)]
            | _ => []
            end
        | inl _ => []
        end
      else []
  | _ => []
  end.

Fixpoint merged_of (rt : Runtime) (w : World) (i : nat) (stocks : list json)
    : list json :=
  match stocks with
  | [] => []
  | stock :: rest => view_of rt w i stock ++ merged_of rt w (S i) rest
  end.

(** The first half of [generate_weekly_stocks]: from the announcement to
    the decoded response (lines 30-32). *)
Definition decode_phase (rt : Runtime) (w : World) (provider_arg : string) : M json :=
  print "Generating weekly stock data from LLM..." ;;;
  llm_service <- LLMService_init w provider_arg ;;
  generate_stock_data rt w llm_service.

(** [v[k]] when [v] is a dict that has the key. *)
Definition field (v : json) (k : string) : option json :=
  match v with JObj d => dict_get d k | _ => None end.

(** [item] is the dict [d] with ["name"] set to [name] and every other
    key as in [d]. *)
Definition named_copy (d : dict) (name : json) (item : json) : Prop :=
  field item "name" = Some name /\
  forall k, k <> "name" -> field item k = dict_get d k.

(** [n] is the integer nearest to [m / d], and even when [m / d] lies
    half way between two integers. *)
Definition is_nearest_even (m d n : Z) : Prop :=
  2 * Z.abs (n * d - m) <= d /\
  (2 * Z.abs (n * d - m) = d -> Z.even n = true).

(** [n] is the integer nearest to [m * 2 ^ e], ties to even. *)
Definition nearest_integer (m : positive) (e n : Z) : Prop :=
  (0 <= e -> n = Z.pos m * 2 ^ e) /\
  (e < 0 -> is_nearest_even (Z.pos m) (2 ^ (- e)) n).

(** [c] is [x] rounded to two decimals, ties to even: with [s], [m] and
    [e] the sign, the mantissa and the exponent of the binary64 product
    [x * 100], [c] is the binary64 quotient by 100 of the integer
    nearest to [m * 2 ^ e], with the sign [s].  A product of magnitude
    [2 ^ 52] or more, a zero, an infinity and a NaN are divided as they
    are. *)
Definition rounded_half_even (x c : float) : Prop :=
  let y := (x * 100)%float in
  if (PrimFloat.abs y <? 0x1p52)%float then
    match Prim2SF y with
    | S754_finite s m e =>
        exists n, nearest_integer m e n /\ c = (integer_float s n / 100)%float
    | _ => c = (y / 100)%float
    end
  else c = (y / 100)%float.

(** ** A sample world

    The LLM answers with four entries: AAPL, an entry without ticker, ZZZ
    and NVDA, the last two without score and reason.  The name lookup
    knows AAPL only; the price service has two closes for AAPL, a single
    one for ZZZ and three for NVDA. *)

Module Sample.

Definition quoted (s : string) : string := dq +:+ s +:+ dq.

Definition answer : string :=
  "Here you go: {" +:+ quoted "stocks" +:+ ": [" +:+
  "{" +:+ quoted "ticker" +:+ ": " +:+ quoted "AAPL" +:+ ", " +:+
         quoted "buy_sell_score" +:+ ": 85, " +:+
         quoted "reason" +:+ ": " +:+ quoted "Strong earnings" +:+ "}, " +:+
  "{" +:+ quoted "score" +:+ ": 10}, " +:+
  "{" +:+ quoted "ticker" +:+ ": " +:+ quoted "ZZZ" +:+ "}, " +:+
  "{" +:+ quoted "ticker" +:+ ": " +:+ quoted "NVDA" +:+ "}" +:+
  "]} Good luck!".

Definition aapl : dict :=
  [("ticker", JStr "AAPL"); ("buy_sell_score", JInt 85);
   ("reason", JStr "Strong earnings")].

Definition no_ticker : dict := [("score", JInt 10)].

Definition zzz : dict := [("ticker", JStr "ZZZ")].

Definition nvda : dict := [("ticker", JStr "NVDA")].

Definition stocks : list json := [JObj aapl; JObj no_ticker; JObj zzz; JObj nvda].

Definition response : json := JObj [("stocks", JArr stocks)].

Definition is_str (v : json) (s : string) : bool :=
  match v with JStr s' => String.eqb s' s | _ => false end.

Definition world : World :=
  {| getenv := fun k =>
       if String.eqb k "OPENAI_API_KEY" then Some "sk-test"
       else if String.eqb k "GEMINI_API_KEY" then Some "g-test" else None;
     openai_client := fun k => inr k;
     openai_create := fun _ => inr (Some answer);
     gemini_configure := fun _ => inr tt;
     gemini_generate := fun _ => inr ("```json" +:+ nl +:+ answer +:+ nl +:+ "```");
     yf_info := fun _ t =>
       if is_str t "AAPL" then inr [("longName", JStr "Apple Inc.")]
       else inl (Exn OtherError "HTTP Error 404");
     yf_history := fun _ t =>
       if is_str t "AAPL" then inr [100%float; 105%float]
       else if is_str t "ZZZ" then inr [8%float]
       else if is_str t "NVDA" then inr [64%float; 80%float; 100%float]
       else inl (Exn OtherError "No data found");
     now := days 20000 |}.

(** The cache the sample answer leads to. *)
Definition aapl_item : json := JObj (aapl ++ [("name", JStr "Apple Inc.")]).
Definition zzz_item : json := JObj (zzz ++ [("name", JStr "ZZZ")]).
Definition nvda_item : json := JObj (nvda ++ [("name", JStr "NVDA")]).

Definition enriched : list json := [aapl_item; zzz_item; nvda_item].

(** A state whose cache was stored [age] microseconds ago. *)
Definition aged (age : Z) : state :=
  State (Cache (Some (now world - age)) enriched) [].

Definition aapl_view : json :=
  JObj [("id", JStr "AAPL-1728000000.0");
        ("ticker", JStr "AAPL");
        ("name", JStr "Apple Inc.");
        ("buy_sell_score", JInt 85);
        ("reason", JStr "Strong earnings");
        ("price", JFloat 105);
        ("changePct", JFloat 5)].

Definition nvda_view : json :=
  JObj [("id", JStr "NVDA-1728000000.0");
        ("ticker", JStr "NVDA");
        ("name", JStr "NVDA");
        ("buy_sell_score", JInt 50);
        ("reason", JStr "");
        ("price", JFloat 100);
        ("changePct", JFloat 25)].

End Sample.

(** ** Vocabulary of the further properties *)

(** [pat] occurs in [s] as a substring. *)
Definition occurs (pat s : string) : Prop :=
  exists pre post, s = pre +:+ pat +:+ post.

(** What [call_gemini] makes of the text of the model (line 73). *)
Definition cleaned (rt : Runtime) (text : string) : string :=
  str_replace (str_replace (str_strip rt text) "```json" "") "```" "".

(** The tickers the name lookup was called with, in order. *)
Fixpoint info_calls (evs : list event) : list json :=
  match evs with
  | [] => []
  | CallInfo t :: evs' => t :: info_calls evs'
  | _ :: evs' => info_calls evs'
  end.

(** The tickers the price service was called with, in order. *)
Fixpoint history_calls (evs : list event) : list json :=
  match evs with
  | [] => []
  | CallHistory t :: evs' => t :: history_calls evs'
  | _ :: evs' => history_calls evs'
  end.

(** The providers the LLM was called through, in order. *)
Fixpoint llm_calls (evs : list event) : list string :=
  match evs with
  | [] => []
  | CallLLM p :: evs' => p :: llm_calls evs'
  | _ :: evs' => llm_calls evs'
  end.

(** A computation that ignores the state it starts from: it gives the
    result [r] and appends the events [evs], whatever the cache and the
    trace. *)
Definition runs_as {A} (m : M A) (r : exn + A) (evs : list event) : Prop :=
  forall st, m st = (r, logged st evs).

(** The same, with every event satisfying [P]. *)
Definition oblivious {A} (P : event -> Prop) (m : M A) : Prop :=
  exists r evs, runs_as m r evs /\ Forall P evs.

Definition is_print (ev : event) : Prop :=
  match ev with Print _ => True | _ => False end.

Definition print_or_info (ev : event) : Prop :=
  match ev with Print _ | CallInfo _ => True | _ => False end.

Definition print_or_history (ev : event) : Prop :=
  match ev with Print _ | CallHistory _ => True | _ => False end.

(** [s] without its first [n] characters. *)
Fixpoint str_drop (n : nat) (s : string) : string :=
  match n, s with
  | S k, String _ r => str_drop k r
  | _, _ => s
  end.

(** An item as the enrichment loop stores it: a dict with a ticker that
    counts as true and a ["name"]. *)
Definition enriched_item (item : json) : Prop :=
  is_dict item /\ truthy (ticker_of item) = true /\ field item "name" <> None.

(** The invariant of the cache the two handlers keep. *)
Definition cache_invariant (c : cache) : Prop :=
  Forall enriched_item (data c) /\ (data c <> [] -> last_updated c <> None).

(** A request to the application, with the world it is served in. *)
Inductive request : Type :=
| GenerateWeekly (w : World) (provider_arg : string)
| DailyData (w : World).

Definition serve (rt : Runtime) (r : request) : M json :=
  match r with
  | GenerateWeekly w provider_arg => generate_weekly_stocks rt w provider_arg
  | DailyData w => get_daily_stock_data rt w
  end.

(** The state after serving the requests in turn; a request that raises
    leaves the state it reached. *)
Fixpoint serve_all (rt : Runtime) (rs : list request) (st : state) : state :=
  match rs with
  | [] => st
  | r :: rs' => serve_all rt rs' (snd (serve rt r st))
  end.

(** The keys of a merged view, in the order of the dict literal. *)
Definition view_keys : list string :=
  ["id"; "ticker"; "name"; "buy_sell_score"; "reason"; "price"; "changePct"].

Definition keys_of (v : json) : list string :=
  match v with JObj d => map fst d | _ => [] end.

Definition announcement : event :=
  Print "Generating weekly stock data from LLM...".

(** ** Further sample worlds *)

Module Scenario.

(** What the OpenAI SDK raises when it is given no key and finds none
    in the environment: an [OpenAIError], which is no [APIError]. *)
Definition missing_key : exn :=
  Exn OtherError
    ("The api_key client option must be set either by passing api_key to the "
     +:+ "client or by setting the OPENAI_API_KEY environment variable").

(** No API key is configured. *)
Definition no_keys : World :=
  {| getenv := fun _ => None;
     openai_client := fun k =>
       match k with
       | Some key => inr (Some key)
       | None => inl missing_key
       end;
     openai_create := openai_create Sample.world;
     gemini_configure := gemini_configure Sample.world;
     gemini_generate := gemini_generate Sample.world;
     yf_info := yf_info Sample.world;
     yf_history := yf_history Sample.world;
     now := now Sample.world |}.

(** Both LLM backends fail: OpenAI with an [APIError], Gemini with
    another exception. *)
Definition llm_down : World :=
  {| getenv := getenv Sample.world;
     openai_client := openai_client Sample.world;
     openai_create := fun _ => inl (Exn APIError "Rate limit reached");
     gemini_configure := gemini_configure Sample.world;
     gemini_generate := fun _ => inl (Exn OtherError "Deadline exceeded");
     yf_info := yf_info Sample.world;
     yf_history := yf_history Sample.world;
     now := now Sample.world |}.

(** OpenAI fails outside its SDK's error hierarchy, or answers without
    content. *)
Definition with_openai (answer : exn + option string) : World :=
  {| getenv := getenv Sample.world;
     openai_client := openai_client Sample.world;
     openai_create := fun _ => answer;
     gemini_configure := gemini_configure Sample.world;
     gemini_generate := gemini_generate Sample.world;
     yf_info := yf_info Sample.world;
     yf_history := yf_history Sample.world;
     now := now Sample.world |}.

(** An answer that lists an entry and then bare ticker strings. *)
Definition bare_tickers : string :=
  "{" +:+ Sample.quoted "stocks" +:+ ": [{" +:+ Sample.quoted "ticker" +:+ ": "
  +:+ Sample.quoted "ZZZ" +:+ "}, " +:+ Sample.quoted "AAPL" +:+ ", "
  +:+ Sample.quoted "MSFT" +:+ "]}".

(** An answer whose ["stocks"] is a number. *)
Definition stocks_count : string :=
  "{" +:+ Sample.quoted "stocks" +:+ ": 50}".

(** A runtime whose decoder gives up on every text, as [json.loads]
    does with a [RecursionError] on deeply nested input. *)
Definition overflowing_runtime : Runtime :=
  {| json_loads := fun _ => inl (Exn OtherError "maximum recursion depth exceeded");
     str_strip := Reference.strip;
     py_str := Reference.str;
     timestamp_str := Reference.timestamp;
     round2 := round_half_even |}.

(** The sample world at another time. *)
Definition at_time (t : Z) : World :=
  {| getenv := getenv Sample.world;
     openai_client := openai_client Sample.world;
     openai_create := openai_create Sample.world;
     gemini_configure := gemini_configure Sample.world;
     gemini_generate := gemini_generate Sample.world;
     yf_info := yf_info Sample.world;
     yf_history := yf_history Sample.world;
     now := t |}.

(** A cache with the same ticker twice: the first item carries a score
    and a reason, the second neither. *)
Definition twin_scored : json :=
  JObj [("ticker", JStr "AAPL"); ("buy_sell_score", JInt 10);
        ("reason", JStr "first"); ("name", JStr "Apple Inc.")].

Definition twin_bare : json :=
  JObj [("ticker", JStr "AAPL"); ("name", JStr "Apple Inc.")].

Definition twins : state :=
  State (Cache (Some (now Sample.world - days 1)) [twin_scored; twin_bare]) [].

Definition twin_scored_view : json :=
  JObj [("id", JStr "AAPL-1728000000.0");
        ("ticker", JStr "AAPL");
        ("name", JStr "Apple Inc.");
        ("buy_sell_score", JInt 10);
        ("reason", JStr "first");
        ("price", JFloat 105);
        ("changePct", JFloat 5)].

Definition twin_bare_view : json :=
  JObj [("id", JStr "AAPL-1728000000.0");
        ("ticker", JStr "AAPL");
        ("name", JStr "Apple Inc.");
        ("buy_sell_score", JInt 50);
        ("reason", JStr "");
        ("price", JFloat 105);
        ("changePct", JFloat 5)].

End Scenario.

(** * Properties *)

(** ** Searching and slicing *)

Section Strings.

Implicit Types (s pre mid post : string) (c a : ascii) (i last : Z).

Lemma append_nil s : "" +:+ s = s.
Proof. reflexivity. Qed.

Lemma append_cons a s1 s2 : String a s1 +:+ s2 = String a (s1 +:+ s2).
Proof. reflexivity. Qed.

Lemma length_append s1 s2 :
  String.length (s1 +:+ s2) = (String.length s1 + String.length s2)%nat.
Proof.
  induction s1 as [|a s1 IH];
    [reflexivity | rewrite append_cons; simpl; now rewrite IH].
Qed.

Lemma append_assoc s1 s2 s3 : (s1 +:+ s2) +:+ s3 = s1 +:+ (s2 +:+ s3).
Proof.
  induction s1 as [|a s1 IH];
    [reflexivity | rewrite !append_cons; now rewrite IH].
Qed.

Lemma find_from_absent c s i :
  ~ In c (list_ascii_of_string s) -> find_from c s i = -1.
Proof.
  revert i; induction s as [|a s IH]; intros i Hnot; simpl in *.
  - reflexivity.
  - destruct (Ascii.eqb_spec a c) as [->|Hne].
    + exfalso; apply Hnot; now left.
    + apply IH; intros Hin; apply Hnot; now right.
Qed.

Lemma find_from_present c s i :
  0 <= i -> In c (list_ascii_of_string s) -> find_from c s i <> -1.
Proof.
  revert i; induction s as [|a s IH]; intros i Hi Hin; simpl in *.
  - destruct Hin.
  - destruct (Ascii.eqb_spec a c) as [->|Hne]; [lia|].
    destruct Hin as [->|Hin]; [congruence|].
    apply IH; [lia | assumption].
Qed.

Lemma find_from_first c pre s i :
  ~ In c (list_ascii_of_string pre) ->
  find_from c (pre +:+ String c s) i = i + Z.of_nat (String.length pre).
Proof.
  revert i; induction pre as [|a pre IH]; intros i Hnot.
  - rewrite append_nil; simpl. rewrite Ascii.eqb_refl; lia.
  - rewrite append_cons; simpl in *.
    destruct (Ascii.eqb_spec a c) as [->|Hne].
    + exfalso; apply Hnot; now left.
    + rewrite IH; [lia|]. intros Hin; apply Hnot; now right.
Qed.

Lemma rfind_from_absent c s i last :
  ~ In c (list_ascii_of_string s) -> rfind_from c s i last = last.
Proof.
  revert i last; induction s as [|a s IH]; intros i last Hnot; simpl in *.
  - reflexivity.
  - destruct (Ascii.eqb_spec a c) as [->|Hne].
    + exfalso; apply Hnot; now left.
    + apply IH; intros Hin; apply Hnot; now right.
Qed.

Lemma rfind_from_last c s post i last :
  ~ In c (list_ascii_of_string post) ->
  rfind_from c (s +:+ String c post) i last = i + Z.of_nat (String.length s).
Proof.
  revert i last; induction s as [|a s IH]; intros i last Hnot.
  - rewrite append_nil; simpl.
    rewrite Ascii.eqb_refl, rfind_from_absent by assumption; lia.
  - rewrite append_cons; simpl. rewrite IH by assumption; lia.
Qed.

Lemma substring_head mid post :
  substring 0 (String.length mid) (mid +:+ post) = mid.
Proof.
  induction mid as [|b mid IH]; [rewrite append_nil | rewrite append_cons]; simpl.
  - now destruct post.
  - now rewrite IH.
Qed.

Lemma substring_middle pre mid post :
  substring (String.length pre) (String.length mid) (pre +:+ mid +:+ post) = mid.
Proof.
  induction pre as [|a pre IH]; [rewrite append_nil | rewrite append_cons; exact IH].
  apply substring_head.
Qed.

(** Slicing from the first '{' through the last '}' of
    [pre{mid}post] gives [{mid}]. *)
Lemma str_slice_braces pre mid post :
  ~ has_char "{" pre -> ~ has_char "}" post ->
  let raw := pre +:+ "{" +:+ mid +:+ "}" +:+ post in
  str_find raw "{" <> -1 /\ str_rfind raw "}" + 1 <> 0 /\
  str_slice raw (str_find raw "{") (str_rfind raw "}" + 1) = "{" +:+ mid +:+ "}".
Proof.
  intros Hpre Hpost raw.
  assert (Hf : str_find raw "{" = Z.of_nat (String.length pre)).
  { unfold str_find, raw. change ("{" +:+ mid +:+ "}" +:+ post)
      with (String "{" (mid +:+ "}" +:+ post)).
    rewrite find_from_first by assumption; lia. }
  assert (Hr : str_rfind raw "}" =
               Z.of_nat (String.length pre + 1 + String.length mid)).
  { unfold str_rfind, raw.
    replace (pre +:+ "{" +:+ mid +:+ "}" +:+ post)
      with ((pre +:+ "{" +:+ mid) +:+ String "}" post)
      by (now rewrite !append_assoc).
    rewrite rfind_from_last by assumption.
    rewrite !length_append; simpl; lia. }
  rewrite Hf, Hr. split; [lia|]. split; [lia|].
  unfold str_slice.
  assert (Hlen : String.length raw =
                 (String.length pre + (String.length mid + 2) + String.length post)%nat).
  { unfold raw. rewrite !length_append; simpl; lia. }
  rewrite Hlen.
  destruct (Z.ltb_spec (Z.of_nat (String.length pre)) 0) as [?|_]; [lia|].
  destruct (Z.ltb_spec (Z.of_nat (String.length pre + 1 + String.length mid) + 1) 0)
    as [?|_]; [lia|].
  rewrite !Z.min_l by lia.
  rewrite Nat2Z.id.
  replace (Z.to_nat _) with (String.length ("{" +:+ mid +:+ "}"))
    by (rewrite !length_append; simpl; lia).
  unfold raw.
  replace (pre +:+ "{" +:+ mid +:+ "}" +:+ post)
    with (pre +:+ ("{" +:+ mid +:+ "}") +:+ post)
    by (now rewrite !append_assoc).
  apply substring_middle.
Qed.

End Strings.

(** ** Decoding the LLM response *)

Section Decode.

Variable rt : Runtime.

Lemma logged_logged st evs1 evs2 :
  logged (logged st evs1) evs2 = logged st (evs1 ++ evs2).
Proof. unfold logged; simpl. now rewrite app_assoc. Qed.

Lemma str_find_absent raw c : ~ has_char c raw -> str_find raw c = -1.
Proof. apply find_from_absent. Qed.

Lemma str_find_present raw c : has_char c raw -> str_find raw c <> -1.
Proof. apply find_from_present; lia. Qed.

Lemma rfind_from_range c s i last :
  rfind_from c s i last = last \/ i <= rfind_from c s i last.
Proof.
  revert i last; induction s as [|a s IH]; intros i last; simpl.
  - now left.
  - destruct (Ascii.eqb a c).
    + destruct (IH (i + 1) i) as [->|H]; right; lia.
    + destruct (IH (i + 1) last) as [->|H]; [now left | right; lia].
Qed.

Lemma rfind_from_present c s i last :
  has_char c s -> i <= rfind_from c s i last.
Proof.
  revert i last; induction s as [|a s IH]; intros i last Hin; simpl in *.
  - destruct Hin.
  - destruct (Ascii.eqb_spec a c) as [->|Hne].
    + destruct (rfind_from_range c s (i + 1) i) as [->|H]; lia.
    + destruct Hin as [->|Hin]; [congruence|].
      specialize (IH (i + 1) last Hin); lia.
Qed.

Lemma str_rfind_absent raw c : ~ has_char c raw -> str_rfind raw c = -1.
Proof. apply rfind_from_absent. Qed.

Lemma str_rfind_present raw c : has_char c raw -> str_rfind raw c + 1 <> 0.
Proof.
  intros H. unfold str_rfind.
  pose proof (rfind_from_present c raw 0 (-1) H). lia.
Qed.

(** A text without a brace pair: the handler reports it and raises. *)
Lemma decode_response_no_object raw st :
  ~ has_char "{" raw \/ ~ has_char "}" raw ->
  decode_response rt (Some raw) st =
    (inl failed_to_decode,
     logged st (decode_failure_log no_json_object_msg raw)).
Proof.
  intros H. unfold decode_response, try_except.
  assert (Hguard : (str_find raw "{" =? -1) || (str_rfind raw "}" + 1 =? 0) = true).
  { destruct H as [H|H].
    - rewrite (str_find_absent _ _ H). reflexivity.
    - rewrite (str_rfind_absent _ _ H). apply orb_true_r. }
  rewrite Hguard. unfold raise at 1; simpl.
  unfold bind, print, emit, raise, logged, decode_failure_log; simpl.
  now rewrite <- !app_assoc.
Qed.

(** A text with a brace pair: the slice is handed to [json.loads]. *)
Lemma decode_response_object raw st :
  has_char "{" raw -> has_char "}" raw ->
  decode_response rt (Some raw) st =
    match json_loads rt (str_slice raw (str_find raw "{") (str_rfind raw "}" + 1)) with
    | inr v => (inr v, st)
    | inl e =>
        if is_JSONDecodeError e
        then (inl failed_to_decode, logged st (decode_failure_log (exn_msg e) raw))
        else (inl e, st)
    end.
Proof.
  intros Ho Hc. unfold decode_response, try_except.
  assert (Hguard : (str_find raw "{" =? -1) || (str_rfind raw "}" + 1 =? 0) = false).
  { apply orb_false_iff; split; apply Z.eqb_neq;
      [now apply str_find_present | now apply str_rfind_present]. }
  rewrite Hguard.
  destruct (json_loads rt _) as [e|v]; simpl; [|reflexivity].
  destruct (is_JSONDecodeError e); [|reflexivity].
  unfold bind, print, emit, raise, logged, decode_failure_log; simpl.
  now rewrite <- !app_assoc.
Qed.

Lemma has_char_append_r c s1 s2 : has_char c s2 -> has_char c (s1 +:+ s2).
Proof.
  unfold has_char. induction s1 as [|a s1 IH]; intros H;
    [exact H | rewrite append_cons; simpl; right; auto].
Qed.

Lemma has_char_append_l c s1 s2 : has_char c s1 -> has_char c (s1 +:+ s2).
Proof.
  unfold has_char. induction s1 as [|a s1 IH]; intros H; [destruct H|].
  rewrite append_cons; simpl in *. destruct H; [now left | right; auto].
Qed.

Lemma decode_response_braces pre mid post st :
  ~ has_char "{" pre -> ~ has_char "}" post ->
  decode_response rt (Some (pre +:+ "{" +:+ mid +:+ "}" +:+ post)) st =
    match json_loads rt ("{" +:+ mid +:+ "}") with
    | inr v => (inr v, st)
    | inl e =>
        if is_JSONDecodeError e
        then (inl failed_to_decode,
              logged st (decode_failure_log (exn_msg e)
                           (pre +:+ "{" +:+ mid +:+ "}" +:+ post)))
        else (inl e, st)
    end.
Proof.
  intros Hpre Hpost.
  destruct (str_slice_braces pre mid post Hpre Hpost) as (_ & _ & Hslice).
  rewrite decode_response_object.
  - now rewrite Hslice.
  - apply has_char_append_r. rewrite append_cons. now left.
  - apply has_char_append_r, has_char_append_r, has_char_append_r.
    rewrite append_cons. now left.
Qed.

End Decode.

(** C3: the decoder hands the text from the first '{' through the last
    '}' to [json.loads] and returns what it decodes; the text
    [noise{"stocks":[]}more noise] yields the object [{"stocks": []}];
    a text without '{' makes the decoder raise, and no value is
    returned. *)
Theorem decode_response_extracts (rt : Runtime) :
  (forall pre mid post st v,
      ~ has_char "{" pre -> ~ has_char "}" post ->
      json_loads rt ("{" +:+ mid +:+ "}") = inr v ->
      decode_response rt (Some (pre +:+ "{" +:+ mid +:+ "}" +:+ post)) st
        = (inr v, st)) /\
  (forall pre mid post st e,
      ~ has_char "{" pre -> ~ has_char "}" post ->
      json_loads rt ("{" +:+ mid +:+ "}") = inl e ->
      exists e' st',
        decode_response rt (Some (pre +:+ "{" +:+ mid +:+ "}" +:+ post)) st
          = (inl e', st')) /\
  (forall st,
      json_loads rt empty_stocks_text = inr empty_stocks ->
      decode_response rt (Some noisy_text) st = (inr empty_stocks, st)) /\
  (forall raw st,
      ~ has_char "{" raw ->
      exists e st', decode_response rt (Some raw) st = (inl e, st')).
Proof.
  repeat split.
  - intros pre mid post st v Hpre Hpost Hv.
    now rewrite decode_response_braces, Hv.
  - intros pre mid post st e Hpre Hpost He.
    rewrite decode_response_braces, He by assumption.
    destruct (is_JSONDecodeError e); eauto.
  - intros st Hv.
    change noisy_text
      with ("noise" +:+ "{" +:+ (dq +:+ "stocks" +:+ dq +:+ ":[]") +:+ "}" +:+ "more noise").
    rewrite decode_response_braces.
    + change ("{" +:+ (dq +:+ "stocks" +:+ dq +:+ ":[]") +:+ "}") with empty_stocks_text.
      now rewrite Hv.
    + unfold has_char; simpl; intuition discriminate.
    + unfold has_char; simpl; intuition discriminate.
  - intros raw st Hraw.
    rewrite decode_response_no_object by now left. eauto.
Qed.

Lemma decode_response_extracts_witness :
  decode_response Reference.runtime (Some ("say {" +:+ "}" +:+ " done")) state0
    = (inr (JObj []), state0) /\
  (exists e' st',
      decode_response Reference.runtime (Some ("" +:+ "{" +:+ "oops" +:+ "}" +:+ "")) state0
        = (inl e', st')) /\
  decode_response Reference.runtime (Some noisy_text) state0 = (inr empty_stocks, state0) /\
  (exists e st',
      decode_response Reference.runtime (Some "no object here") state0 = (inl e, st')).
Proof.
  destruct (decode_response_extracts Reference.runtime) as (H1 & H2 & H3 & H4).
  split; [|split; [|split]].
  - apply (H1 "say " "" " done" state0 (JObj []));
      [unfold has_char; simpl; intuition discriminate
      |unfold has_char; simpl; intuition discriminate
      |reflexivity].
  - apply (H2 "" "oops" "" state0 (Exn JSONDecodeError Reference.expecting_name));
      [unfold has_char; simpl; intuition discriminate
      |unfold has_char; simpl; intuition discriminate
      |reflexivity].
  - apply H3. reflexivity.
  - apply H4. unfold has_char; simpl; intuition discriminate.
Defined.

(** C9 (as stated): the two failures are not distinguishable by the
    caller.  A text without braces and a text whose braces enclose
    malformed JSON raise the very same exception. *)
Lemma decode_errors_not_distinguishable :
  ~ decode_errors_distinguishable Reference.runtime.
Proof.
  intros (e1 & e2 & Hne & H1 & H2).
  specialize (H1 "no object here" state0).
  specialize (H2 "{oops}" state0 (Exn JSONDecodeError Reference.expecting_name)).
  assert (Hl : inl e1 = @inl exn json failed_to_decode).
  { rewrite <- H1; [reflexivity|]. left. unfold has_char; simpl; intuition discriminate. }
  assert (Hr : inl e2 = @inl exn json failed_to_decode).
  { rewrite <- H2; [reflexivity| | |reflexivity|reflexivity];
      unfold has_char; simpl; intuition. }
  apply Hne. congruence.
Qed.

(** C9 (amended): both failures of the decoder reach the caller as the
    same exception, [Exception("Failed to decode JSON from LLM
    response.")]; they differ only in the first line the handler prints,
    which carries the message of the underlying [JSONDecodeError]. *)
Theorem decode_failures_raise_same_error (rt : Runtime) (raw : string) (st : state) :
  (~ has_char "{" raw \/ ~ has_char "}" raw ->
   decode_response rt (Some raw) st =
     (inl failed_to_decode,
      logged st (decode_failure_log no_json_object_msg raw))) /\
  (forall e,
      has_char "{" raw -> has_char "}" raw ->
      json_loads rt (str_slice raw (str_find raw "{") (str_rfind raw "}" + 1))
        = inl e ->
      is_JSONDecodeError e = true ->
      decode_response rt (Some raw) st =
        (inl failed_to_decode,
         logged st (decode_failure_log (exn_msg e) raw))).
Proof.
  split.
  - apply decode_response_no_object.
  - intros e Ho Hc He Hcls.
    now rewrite decode_response_object, He, Hcls.
Qed.

Lemma decode_failures_raise_same_error_witness :
  decode_response Reference.runtime (Some "no object here") state0 =
    (inl failed_to_decode,
     logged state0 (decode_failure_log no_json_object_msg "no object here")) /\
  decode_response Reference.runtime (Some "{oops}") state0 =
    (inl failed_to_decode,
     logged state0 (decode_failure_log Reference.expecting_name "{oops}")).
Proof.
  split.
  - apply (proj1 (decode_failures_raise_same_error
                    Reference.runtime "no object here" state0)).
    left. unfold has_char; simpl; intuition discriminate.
  - apply (proj2 (decode_failures_raise_same_error Reference.runtime "{oops}" state0)
             (Exn JSONDecodeError Reference.expecting_name));
      [unfold has_char; simpl; intuition
      |unfold has_char; simpl; intuition
      |reflexivity|reflexivity].
Defined.

(** ** What leaves the cache alone *)

Section CachePreservation.

Variable rt : Runtime.

Lemma preserves_ret {A} (a : A) : preserves_cache (ret a).
Proof. now intros st. Qed.

Lemma preserves_raise {A} (e : exn) : preserves_cache (@raise A e).
Proof. now intros st. Qed.

Lemma preserves_lift {A} (r : exn + A) : preserves_cache (lift r).
Proof. now destruct r; intros st. Qed.

Lemma preserves_emit ev : preserves_cache (emit ev).
Proof. now intros st. Qed.

Lemma preserves_print msg : preserves_cache (print msg).
Proof. now intros st. Qed.

Lemma preserves_bind {A B} (m : M A) (k : A -> M B) :
  preserves_cache m -> (forall a, preserves_cache (k a)) ->
  preserves_cache (bind m k).
Proof.
  intros Hm Hk st. unfold bind. specialize (Hm st).
  destruct (m st) as [[e|a] st1]; simpl in *; [assumption|].
  now rewrite Hk.
Qed.

Lemma preserves_try_except {A} (m : M A) catches (h : exn -> M A) :
  preserves_cache m -> (forall e, preserves_cache (h e)) ->
  preserves_cache (try_except m catches h).
Proof.
  intros Hm Hh st. unfold try_except. specialize (Hm st).
  destruct (m st) as [[e|a] st1]; simpl in *; [|assumption].
  destruct (catches e); simpl; [now rewrite Hh | assumption].
Qed.

Create HintDb cache.
#[local] Hint Resolve preserves_ret preserves_raise preserves_lift preserves_emit
  preserves_print : cache.

Ltac preserves :=
  repeat first
    [ progress auto with cache
    | apply preserves_bind; [|intros ?]
    | apply preserves_try_except; [|intros ?] ].

Lemma preserves_LLMService_init w provider_arg :
  preserves_cache (LLMService_init w provider_arg).
Proof.
  unfold LLMService_init.
  destruct (negb _); [preserves|].
  destruct (String.eqb (str_lower provider_arg) "openai").
  - apply preserves_bind; [preserves|]. intros [[|a k]|]; preserves.
  - destruct (String.eqb _ "gemini"); [|preserves].
    destruct (getenv w "GEMINI_API_KEY") as [[|a k]|]; preserves.
Qed.

Lemma preserves_decode_response raw : preserves_cache (decode_response rt raw).
Proof.
  unfold decode_response. apply preserves_try_except; [|intros e; preserves].
  destruct raw as [raw|]; [|preserves].
  destruct (_ || _); preserves.
Qed.

Lemma preserves_generate_stock_data w self :
  preserves_cache (generate_stock_data rt w self).
Proof.
  unfold generate_stock_data, call_openai, call_gemini.
  apply preserves_bind; [|intros raw; apply preserves_decode_response].
  destruct (String.eqb _ "openai"); [preserves|].
  destruct (String.eqb _ "gemini"); preserves.
Qed.

Lemma preserves_enrich_stock w i stock acc :
  preserves_cache (enrich_stock rt w i stock acc).
Proof.
  unfold enrich_stock. apply preserves_bind; [preserves|]. intros t.
  destruct (negb (truthy t)); preserves.
Qed.

Lemma preserves_enrich_loop w stocks : forall i acc,
  preserves_cache (enrich_loop rt w i stocks acc).
Proof.
  induction stocks as [|stock rest IH]; intros i acc; simpl; [preserves|].
  apply preserves_bind; [apply preserves_enrich_stock | intros acc'; apply IH].
Qed.

(** Running [m] and then [k]: either [m] raises and the cache is the old
    one, or [k] runs from a state with the old cache. *)
Lemma bind_outcome {A B} (m : M A) (k : A -> M B) st :
  preserves_cache m ->
  (exists e st', bind m k st = (inl e, st') /\
                 weekly_stock_data st' = weekly_stock_data st) \/
  (exists a st1, bind m k st = k a st1 /\
                 weekly_stock_data st1 = weekly_stock_data st).
Proof.
  intros Hm. unfold bind. specialize (Hm st).
  destruct (m st) as [[e|a] st1]; simpl in *; [left|right]; eauto.
Qed.

(** The second half of the handler either stores the whole enriched list
    and reports its length, or raises with the cache untouched. *)
Lemma store_enriched_outcome w response_data st :
  (exists items tr,
      store_enriched rt w response_data st =
        (inr (generated_response (length items)),
         State (Cache (Some (now w)) items) tr)) \/
  (exists e st',
      store_enriched rt w response_data st = (inl e, st') /\
      weekly_stock_data st' = weekly_stock_data st).
Proof.
  unfold store_enriched.
  destruct (bind_outcome (lift (py_get response_data "stocks" (JArr [])))
              (fun stock_list =>
                 items <- lift (py_iter stock_list) ;;
                 enriched_stock_list <- enrich_loop rt w 0 items [] ;;
                 set_cache {| last_updated := Some (now w);
                              data := enriched_stock_list |} ;;;
                 print "Weekly data generation complete." ;;;
                 ret (generated_response (length enriched_stock_list)))
              st (preserves_lift _))
    as [(e & st' & -> & Hc)|(stock_list & st1 & -> & Hc1)]; [right; eauto|].
  destruct (bind_outcome (lift (py_iter stock_list))
              (fun items =>
                 enriched_stock_list <- enrich_loop rt w 0 items [] ;;
                 set_cache {| last_updated := Some (now w);
                              data := enriched_stock_list |} ;;;
                 print "Weekly data generation complete." ;;;
                 ret (generated_response (length enriched_stock_list)))
              st1 (preserves_lift _))
    as [(e & st' & -> & Hc)|(items & st2 & -> & Hc2)];
    [right; exists e, st'; split; [reflexivity | congruence]|].
  destruct (bind_outcome (enrich_loop rt w 0 items [])
              (fun enriched_stock_list =>
                 set_cache {| last_updated := Some (now w);
                              data := enriched_stock_list |} ;;;
                 print "Weekly data generation complete." ;;;
                 ret (generated_response (length enriched_stock_list)))
              st2 (preserves_enrich_loop w items 0 []))
    as [(e & st' & -> & Hc)|(enriched & st3 & -> & Hc3)];
    [right; exists e, st'; split; [reflexivity | congruence]|].
  left. exists enriched. eexists. reflexivity.
Qed.

End CachePreservation.

(** C1: whatever the provider, the environment and the answers of the
    external services, [generate_weekly_stocks] returns a dict and either
    the cache is a new record (the current time and the enriched list)
    and the dict carries the length of that list as its count, or the
    dict is an error and the cache is the record found on entry. *)
Theorem generate_replaces_or_keeps (rt : Runtime) (w : World)
    (provider_arg : string) (st : state) :
  exists resp st',
    generate_weekly_stocks rt w provider_arg st = (inr resp, st') /\
    ((exists items,
         resp = generated_response (length items) /\
         weekly_stock_data st' = Cache (Some (now w)) items) \/
     (exists e,
         resp = error_response e /\
         weekly_stock_data st' = weekly_stock_data st)).
Proof.
  unfold generate_weekly_stocks, try_except, generate_body.
  set (body := (print "Generating weekly stock data from LLM..." ;;; _)).
  assert (Hbody :
    (exists items tr,
        body st = (inr (generated_response (length items)),
                   State (Cache (Some (now w)) items) tr)) \/
    (exists e st', body st = (inl e, st') /\
                   weekly_stock_data st' = weekly_stock_data st)).
  { subst body.
    destruct (bind_outcome (print "Generating weekly stock data from LLM...")
                (fun _ =>
                   llm_service <- LLMService_init w provider_arg ;;
                   response_data <- generate_stock_data rt w llm_service ;;
                   store_enriched rt w response_data)
                st (preserves_print _))
      as [(e & st' & -> & Hc)|(u & st1 & -> & Hc1)]; [right; eauto|].
    destruct (bind_outcome (LLMService_init w provider_arg)
                (fun llm_service =>
                   response_data <- generate_stock_data rt w llm_service ;;
                   store_enriched rt w response_data)
                st1 (preserves_LLMService_init w provider_arg))
      as [(e & st' & -> & Hc)|(svc & st2 & -> & Hc2)];
      [right; exists e, st'; split; [reflexivity | congruence]|].
    destruct (bind_outcome (generate_stock_data rt w svc)
                (fun response_data => store_enriched rt w response_data)
                st2 (preserves_generate_stock_data rt w svc))
      as [(e & st' & -> & Hc)|(response_data & st3 & -> & Hc3)];
      [right; exists e, st'; split; [reflexivity | congruence]|].
    destruct (store_enriched_outcome rt w response_data st3)
      as [(items & tr & ->)|(e & st' & -> & Hc)];
      [left; eauto | right; exists e, st'; split; [reflexivity | congruence]]. }
  destruct Hbody as [(items & tr & ->)|(e & st' & -> & Hc)]; simpl.
  - eexists _, _; split; [reflexivity|]. left; eauto.
  - eexists _, _; split; [reflexivity|]. right; eauto.
Qed.

(** ** End-to-end runs on the sample world *)

Example sample_generate_openai :
  fst (generate_weekly_stocks Reference.runtime Sample.world "OpenAI" state0)
    = inr (generated_response 3) /\
  weekly_stock_data
    (snd (generate_weekly_stocks Reference.runtime Sample.world "OpenAI" state0))
    = Cache (Some (now Sample.world)) Sample.enriched.
Proof. split; vm_compute; reflexivity. Qed.

Example sample_generate_gemini :
  weekly_stock_data
    (snd (generate_weekly_stocks Reference.runtime Sample.world "gemini" state0))
    = Cache (Some (now Sample.world)) Sample.enriched.
Proof. vm_compute; reflexivity. Qed.

Example sample_generate_unsupported :
  generate_weekly_stocks Reference.runtime Sample.world "claude" state0
    = (inr (JObj [("error",
                   JStr "An error occurred: Unsupported provider: claude. Please use 'openai' or 'gemini'.")]),
       State initial_cache [Print "Generating weekly stock data from LLM..."]).
Proof. vm_compute; reflexivity. Qed.

Example sample_daily :
  fst (get_daily_stock_data Reference.runtime Sample.world (Sample.aged (days 1)))
    = inr (JArr [Sample.aapl_view; Sample.nvda_view]).
Proof. vm_compute; reflexivity. Qed.

Example sample_timestamps :
  Reference.timestamp 1728000000120000 = "1728000000.12" /\
  Reference.timestamp 1728000000000001 = "1728000000.000001" /\
  Reference.timestamp 1728000000500000 = "1728000000.5".
Proof. repeat split; vm_compute; reflexivity. Qed.

(** ** Dicts *)

Lemma dict_get_set_eq (d : dict) (k : string) (v : json) :
  dict_get (dict_set d k v) k = Some v.
Proof.
  induction d as [|[k' v'] d IH]; simpl.
  - now rewrite String.eqb_refl.
  - destruct (String.eqb_spec k' k) as [->|Hne]; simpl.
    + now rewrite String.eqb_refl.
    + destruct (String.eqb_spec k' k); [contradiction | exact IH].
Qed.

Lemma dict_get_set_ne (d : dict) (k k' : string) (v : json) :
  k' <> k -> dict_get (dict_set d k v) k' = dict_get d k'.
Proof.
  intros Hne. induction d as [|[k0 v0] d IH]; simpl.
  - destruct (String.eqb_spec k k'); [congruence | reflexivity].
  - destruct (String.eqb_spec k0 k) as [->|Hk]; simpl.
    + destruct (String.eqb_spec k k'); [congruence | reflexivity].
    + destruct (String.eqb_spec k0 k'); [reflexivity | exact IH].
Qed.

Lemma named_copy_dict_set (d : dict) (name : json) :
  named_copy d name (JObj (dict_set d "name" name)).
Proof.
  split; simpl.
  - apply dict_get_set_eq.
  - intros k Hk. now apply dict_get_set_ne.
Qed.

Lemma ticker_of_dict_set_name (d : dict) (name : json) :
  ticker_of (JObj (dict_set d "name" name)) = ticker_of (JObj d).
Proof.
  unfold ticker_of, dict_get_default.
  now rewrite dict_get_set_ne by discriminate.
Qed.

(** ** The enrichment loop *)

Section Enrichment.

Variables (rt : Runtime) (w : World).

(** One turn on a dict: the item's contribution is appended, whatever the
    name lookup does. *)
Lemma enrich_stock_dict i d acc st :
  exists st',
    enrich_stock rt w i (JObj d) acc st = (inr (acc ++ enrich_of w i (JObj d)), st') /\
    weekly_stock_data st' = weekly_stock_data st.
Proof.
  unfold enrich_stock, enrich_of, name_for; simpl.
  unfold bind at 1; simpl.
  destruct (truthy (dict_get_default d "ticker" JNull)); simpl.
  - unfold try_except, bind, print, emit, lift; simpl.
    destruct (yf_info w i _) as [e|info]; simpl; eexists; split; reflexivity.
  - rewrite app_nil_r. eexists; split; reflexivity.
Qed.

(** One turn on anything else: [stock.get] raises. *)
Lemma enrich_stock_not_dict i stock acc st :
  ~ is_dict stock ->
  exists e, enrich_stock rt w i stock acc st = (inl e, st).
Proof.
  intros Hnd. unfold enrich_stock.
  destruct stock as [|b|z|f|s|l|d]; simpl in *; try (eexists; reflexivity).
  now destruct Hnd.
Qed.

Lemma enrich_loop_dicts stocks : forall i acc st,
  Forall is_dict stocks ->
  exists st',
    enrich_loop rt w i stocks acc st = (inr (acc ++ enriched_of w i stocks), st') /\
    weekly_stock_data st' = weekly_stock_data st.
Proof.
  induction stocks as [|stock rest IH]; intros i acc st Hall; simpl.
  - rewrite app_nil_r. eexists; split; reflexivity.
  - inversion Hall as [|? ? Hd Hrest]; subst.
    destruct stock as [|b|z|f|s|l|d]; try now destruct Hd.
    destruct (enrich_stock_dict i d acc st) as (st1 & Hrun & Hc1).
    unfold bind at 1. rewrite Hrun.
    destruct (IH (S i) (acc ++ enrich_of w i (JObj d)) st1 Hrest) as (st2 & Hloop & Hc2).
    rewrite Hloop, <- app_assoc. eexists; split; [reflexivity | congruence].
Qed.

(** The loop returns a list only when every item is a dict. *)
Lemma enrich_loop_returns stocks : forall i acc st res st',
  enrich_loop rt w i stocks acc st = (inr res, st') -> Forall is_dict stocks.
Proof.
  induction stocks as [|stock rest IH]; intros i acc st res st' Hrun; simpl in *.
  - constructor.
  - unfold bind at 1 in Hrun.
    destruct stock as [|b|z|f|s|l|d];
      try (unfold enrich_stock in Hrun; simpl in Hrun; discriminate).
    destruct (enrich_stock_dict i d acc st) as (st1 & Hstep & _).
    rewrite Hstep in Hrun. constructor; [exact I | eauto].
Qed.

Lemma enriched_of_tickers stocks : forall i,
  map ticker_of (enriched_of w i stocks) = List.filter truthy (map ticker_of stocks).
Proof.
  induction stocks as [|stock rest IH]; intros i; simpl; [reflexivity|].
  rewrite map_app, IH. unfold enrich_of.
  destruct stock as [|b|z|f|s|l|d]; simpl; try reflexivity.
  destruct (truthy (dict_get_default d "ticker" JNull)) eqn:Ht; simpl; [|reflexivity].
  f_equal. apply ticker_of_dict_set_name.
Qed.

Lemma enriched_of_has_ticker stocks : forall i item,
  In item (enriched_of w i stocks) ->
  exists t, field item "ticker" = Some t /\ truthy t = true.
Proof.
  induction stocks as [|stock rest IH]; intros i item Hin; simpl in *; [destruct Hin|].
  apply in_app_or in Hin as [Hin|Hin]; [|eauto].
  unfold enrich_of in Hin. destruct stock as [|b|z|f|s|l|d]; simpl in Hin; try now destruct Hin.
  unfold dict_get_default in Hin.
  destruct (dict_get d "ticker") as [t|] eqn:Hget; simpl in Hin; [|destruct Hin].
  destruct (truthy t) eqn:Ht; simpl in Hin; [|destruct Hin].
  destruct Hin as [<-|[]]. exists t. split; [|assumption]. simpl.
  now rewrite dict_get_set_ne by discriminate.
Qed.

Lemma enriched_of_lookup stocks : forall i k d,
  stocks !! k = Some (JObj d) ->
  truthy (ticker_of (JObj d)) = true ->
  In (JObj (dict_set d "name" (name_for w (i + k) (ticker_of (JObj d)))))
     (enriched_of w i stocks).
Proof.
  induction stocks as [|stock rest IH]; intros i k d Hk Ht; [discriminate|].
  simpl. apply in_or_app. destruct k as [|k]; simpl in Hk.
  - injection Hk as ->. left. unfold enrich_of. simpl in Ht. rewrite Ht.
    rewrite Nat.add_0_r. now left.
  - right. replace (i + S k)%nat with (S i + k)%nat by lia. now apply IH.
Qed.

(** On a response whose ["stocks"] is a list of dicts, the second half of
    the handler stores the enriched list. *)
Lemma store_enriched_dicts response_data stocks st :
  py_get response_data "stocks" (JArr []) = inr (JArr stocks) ->
  Forall is_dict stocks ->
  exists tr,
    store_enriched rt w response_data st =
      (inr (generated_response (length (enriched_of w 0 stocks))),
       State (Cache (Some (now w)) (enriched_of w 0 stocks)) tr).
Proof.
  intros Hget Hall. unfold store_enriched.
  rewrite Hget. unfold bind at 1; simpl. unfold bind at 1; simpl.
  destruct (enrich_loop_dicts stocks 0 [] st Hall) as (st1 & Hloop & _).
  unfold bind at 1. rewrite Hloop. simpl.
  eexists. reflexivity.
Qed.

End Enrichment.

(** Once the response is decoded, the handler's answer is that of its
    second half, with an exception turned into an error dict. *)
Lemma generate_weekly_stocks_after_decoding (rt : Runtime) (w : World)
    (provider_arg : string) (st st1 : state) (response_data : json) :
  decode_phase rt w provider_arg st = (inr response_data, st1) ->
  generate_weekly_stocks rt w provider_arg st =
    match store_enriched rt w response_data st1 with
    | (inr resp, st2) => (inr resp, st2)
    | (inl e, st2) => (inr (error_response e), st2)
    end.
Proof.
  unfold decode_phase, generate_weekly_stocks, try_except, generate_body, bind,
    print, emit.
  simpl.
  destruct (LLMService_init w provider_arg _) as [[e|svc] st'];
    [discriminate|].
  destruct (generate_stock_data rt w svc st') as [[e|r] st'']; [discriminate|].
  intros [= -> ->].
  now destruct (store_enriched rt w response_data st1) as [[e|resp] st2].
Qed.

(** A decoded response whose ["stocks"] is a list of dicts: the handler
    stores the contributions of the entries and reports their number. *)
Lemma generate_weekly_stocks_dicts (rt : Runtime) (w : World)
    (provider_arg : string) (st st1 : state) (response_data : json)
    (stocks : list json) :
  decode_phase rt w provider_arg st = (inr response_data, st1) ->
  py_get response_data "stocks" (JArr []) = inr (JArr stocks) ->
  Forall is_dict stocks ->
  exists tr,
    generate_weekly_stocks rt w provider_arg st =
      (inr (generated_response (length (enriched_of w 0 stocks))),
       State (Cache (Some (now w)) (enriched_of w 0 stocks)) tr).
Proof.
  intros Hdec Hget Hall.
  rewrite (generate_weekly_stocks_after_decoding rt w provider_arg st st1 _ Hdec).
  destruct (store_enriched_dicts rt w response_data stocks st1 Hget Hall) as (tr & ->).
  eauto.
Qed.

(** The raw text the decoder receives from each provider. *)
Lemma generate_stock_data_openai (rt : Runtime) (w : World) (st : state)
    (content : option string) :
  openai_create w generate_prompt = inr content ->
  generate_stock_data rt w {| provider := "openai" |} st =
    decode_response rt content (logged st [CallLLM "openai"]).
Proof.
  intros H. unfold generate_stock_data, call_openai, try_except, bind, emit; simpl.
  now rewrite H.
Qed.

Lemma generate_stock_data_gemini (rt : Runtime) (w : World) (st : state)
    (text : string) :
  gemini_generate w generate_prompt = inr text ->
  generate_stock_data rt w {| provider := "gemini" |} st =
    decode_response rt
      (Some (str_replace (str_replace (str_strip rt text) "```json" "") "```" ""))
      (logged st [CallLLM "gemini"]).
Proof.
  intros H. unfold generate_stock_data, call_gemini, try_except, bind, emit; simpl.
  now rewrite H.
Qed.

(** C4: a decoded entry without a ["ticker"] key is left out of the list
    written to the cache and of the count: every stored item has a
    ticker, no stored item is a copy of an entry that has none, the
    stored tickers are the tickers present in the decoded list, in
    order, and the count is their number.  For the decoded list
    [[{"score": 10}]] the stored list is empty and the count is 0. *)
Theorem entries_without_ticker_excluded (rt : Runtime) (w : World)
    (provider_arg : string) (st st1 : state) (response_data : json) :
  decode_phase rt w provider_arg st = (inr response_data, st1) ->
  (forall stocks,
      py_get response_data "stocks" (JArr []) = inr (JArr stocks) ->
      Forall is_dict stocks ->
      exists items tr,
        generate_weekly_stocks rt w provider_arg st =
          (inr (generated_response (length items)),
           State (Cache (Some (now w)) items) tr) /\
        (forall item, In item items ->
                      exists t, field item "ticker" = Some t /\ truthy t = true) /\
        (forall d name item,
            dict_get d "ticker" = None -> In item items -> ~ named_copy d name item) /\
        map ticker_of items = List.filter truthy (map ticker_of stocks)) /\
  (response_data = JObj [("stocks", JArr [JObj [("score", JInt 10)]])] ->
   exists tr,
     generate_weekly_stocks rt w provider_arg st =
       (inr (generated_response 0), State (Cache (Some (now w)) []) tr)).
Proof.
  intros Hdec. split.
  - intros stocks Hget Hall.
    destruct (generate_weekly_stocks_dicts rt w provider_arg st st1 response_data
                stocks Hdec Hget Hall) as (tr & Hrun).
    exists (enriched_of w 0 stocks), tr.
    split; [exact Hrun|]. split; [apply enriched_of_has_ticker|].
    split; [|apply enriched_of_tickers].
    intros d name item Hnone Hin (_ & Hcopy).
    destruct (enriched_of_has_ticker w stocks 0 item Hin) as (t & Ht & _).
    rewrite Hcopy in Ht by discriminate. congruence.
  - intros ->.
    destruct (generate_weekly_stocks_dicts rt w provider_arg st st1 _
                [JObj [("score", JInt 10)]] Hdec eq_refl) as (tr & Hrun).
    + repeat constructor.
    + exists tr. exact Hrun.
Qed.

Lemma sample_decode_phase :
  decode_phase Reference.runtime Sample.world "openai" state0 =
    (inr Sample.response,
     snd (decode_phase Reference.runtime Sample.world "openai" state0)).
Proof. vm_compute. reflexivity. Defined.

Lemma entries_without_ticker_excluded_witness :
  exists items tr,
    generate_weekly_stocks Reference.runtime Sample.world "openai" state0 =
      (inr (generated_response (length items)),
       State (Cache (Some (now Sample.world)) items) tr) /\
    (forall item, In item items ->
                  exists t, field item "ticker" = Some t /\ truthy t = true) /\
    (forall d name item,
        dict_get d "ticker" = None -> In item items -> ~ named_copy d name item) /\
    map ticker_of items = List.filter truthy (map ticker_of Sample.stocks).
Proof.
  apply (proj1 (entries_without_ticker_excluded Reference.runtime Sample.world
                  "openai" state0 _ Sample.response sample_decode_phase)
           Sample.stocks).
  - reflexivity.
  - repeat constructor.
Defined.

(** C5: when the name lookup of an entry with a ticker raises, the entry
    is stored all the same, with ["name"] set to its ticker and its
    other keys unchanged; the run still succeeds, and every entry with a
    ticker is stored under some name, whatever the lookups of the other
    entries did. *)
Theorem lookup_failure_falls_back (rt : Runtime) (w : World)
    (provider_arg : string) (st st1 : state) (response_data : json)
    (stocks : list json) :
  decode_phase rt w provider_arg st = (inr response_data, st1) ->
  py_get response_data "stocks" (JArr []) = inr (JArr stocks) ->
  Forall is_dict stocks ->
  exists items tr,
    generate_weekly_stocks rt w provider_arg st =
      (inr (generated_response (length items)),
       State (Cache (Some (now w)) items) tr) /\
    (forall k d e,
        stocks !! k = Some (JObj d) ->
        truthy (ticker_of (JObj d)) = true ->
        yf_info w k (ticker_of (JObj d)) = inl e ->
        exists item, In item items /\ named_copy d (ticker_of (JObj d)) item) /\
    (forall k d,
        stocks !! k = Some (JObj d) ->
        truthy (ticker_of (JObj d)) = true ->
        exists item name, In item items /\ named_copy d name item) /\
    length items = length (List.filter truthy (map ticker_of stocks)).
Proof.
  intros Hdec Hget Hall.
  destruct (generate_weekly_stocks_dicts rt w provider_arg st st1 response_data
              stocks Hdec Hget Hall) as (tr & Hrun).
  exists (enriched_of w 0 stocks), tr.
  split; [exact Hrun|]. split; [|split].
  - intros k d e Hk Ht Hfail.
    pose proof (enriched_of_lookup w stocks 0 k d Hk Ht) as Hin.
    unfold name_for in Hin; simpl in Hin, Hfail. rewrite Hfail in Hin.
    eexists; split; [exact Hin | apply named_copy_dict_set].
  - intros k d Hk Ht.
    pose proof (enriched_of_lookup w stocks 0 k d Hk Ht) as Hin.
    eexists _, _; split; [exact Hin | apply named_copy_dict_set].
  - rewrite <- (enriched_of_tickers w stocks 0). now rewrite length_map.
Qed.

Lemma lookup_failure_falls_back_witness :
  exists items tr,
    generate_weekly_stocks Reference.runtime Sample.world "openai" state0 =
      (inr (generated_response (length items)),
       State (Cache (Some (now Sample.world)) items) tr) /\
    (forall k d e,
        Sample.stocks !! k = Some (JObj d) ->
        truthy (ticker_of (JObj d)) = true ->
        yf_info Sample.world k (ticker_of (JObj d)) = inl e ->
        exists item, In item items /\ named_copy d (ticker_of (JObj d)) item) /\
    (forall k d,
        Sample.stocks !! k = Some (JObj d) ->
        truthy (ticker_of (JObj d)) = true ->
        exists item name, In item items /\ named_copy d name item) /\
    length items = length (List.filter truthy (map ticker_of Sample.stocks)).
Proof.
  apply (lookup_failure_falls_back Reference.runtime Sample.world "openai" state0
           _ Sample.response Sample.stocks sample_decode_phase).
  - reflexivity.
  - repeat constructor.
Defined.

(** The ZZZ entry of the sample: its lookup raises, and it is stored
    under its ticker. *)
Example sample_fallback :
  yf_info Sample.world 2 (JStr "ZZZ") = inl (Exn OtherError "HTTP Error 404") /\
  In Sample.zzz_item
     (data (weekly_stock_data
              (snd (generate_weekly_stocks Reference.runtime Sample.world "openai"
                      state0)))).
Proof. split; [reflexivity | vm_compute; auto]. Qed.

(** ** The merge loop *)

Section Merge.

Variables (rt : Runtime) (w : World).

Lemma iloc_last_two (init : list float) (prev_close last_close : float) :
  (length (init ++ [prev_close; last_close]) <? 2)%nat = false /\
  iloc (init ++ [prev_close; last_close]) (-1) = inr last_close /\
  iloc (init ++ [prev_close; last_close]) (-2) = inr prev_close.
Proof.
  assert (Hlen : length (init ++ [prev_close; last_close]) = (length init + 2)%nat)
    by (rewrite length_app; reflexivity).
  split; [apply Nat.ltb_ge; lia|].
  unfold iloc. rewrite Hlen. cbv zeta.
  change (-1 <? 0) with true. change (-2 <? 0) with true. cbv iota.
  set (n := Z.of_nat (length init + 2)).
  assert (H1 : (0 <=? -1 + n) && (-1 + n <? n) = true)
    by (apply andb_true_intro; split; [apply Z.leb_le | apply Z.ltb_lt]; lia).
  assert (H2 : (0 <=? -2 + n) && (-2 + n <? n) = true)
    by (apply andb_true_intro; split; [apply Z.leb_le | apply Z.ltb_lt]; lia).
  rewrite H1, H2. split; f_equal.
  - replace (Z.to_nat (-1 + n)) with (length init + 1)%nat by lia.
    rewrite app_nth2 by lia.
    now replace (length init + 1 - length init)%nat with 1%nat by lia.
  - replace (Z.to_nat (-2 + n)) with (length init + 0)%nat by lia.
    rewrite app_nth2 by lia.
    now replace (length init + 0 - length init)%nat with 0%nat by lia.
Qed.

Lemma closes_of_rev (closes : list float) (last_close prev_close : float)
    (r : list float) :
  rev closes = last_close :: prev_close :: r ->
  closes = rev r ++ [prev_close; last_close].
Proof.
  intros Hrev. apply (f_equal (@rev float)) in Hrev.
  rewrite rev_involutive in Hrev. subst closes. simpl.
  now rewrite <- app_assoc.
Qed.

(** One turn on a dict: the item's contribution is appended; a failed or
    short fetch contributes nothing and raises nothing. *)
Lemma merge_stock_dict i d acc st :
  exists st',
    merge_stock rt w i (JObj d) acc st = (inr (acc ++ view_of rt w i (JObj d)), st') /\
    weekly_stock_data st' = weekly_stock_data st.
Proof.
  unfold merge_stock, view_of; simpl.
  unfold bind at 1; simpl.
  destruct (truthy (dict_get_default d "ticker" JNull)); simpl;
    [|rewrite app_nil_r; eexists; split; reflexivity].
  unfold try_except. unfold bind at 1. simpl.
  unfold bind at 1.
  destruct (yf_history w i _) as [e|closes]; simpl;
    [rewrite app_nil_r; eexists; split; reflexivity|].
  destruct (rev closes) as [|last_close [|prev_close r]] eqn:Hrev.
  - apply (f_equal (@rev float)) in Hrev. rewrite rev_involutive in Hrev.
    subst closes. simpl. rewrite app_nil_r; eexists; split; reflexivity.
  - apply (f_equal (@rev float)) in Hrev. rewrite rev_involutive in Hrev.
    subst closes. simpl. rewrite app_nil_r; eexists; split; reflexivity.
  - apply closes_of_rev in Hrev. subst closes.
    destruct (iloc_last_two (rev r) prev_close last_close) as (Hlen & Hlast & Hprev).
    rewrite Hlen. unfold bind. rewrite Hlast, Hprev. simpl.
    eexists; split; reflexivity.
Qed.

Lemma merge_loop_dicts stocks : forall i acc st,
  Forall is_dict stocks ->
  exists st',
    merge_loop rt w i stocks acc st = (inr (acc ++ merged_of rt w i stocks), st') /\
    weekly_stock_data st' = weekly_stock_data st.
Proof.
  induction stocks as [|stock rest IH]; intros i acc st Hall; simpl.
  - rewrite app_nil_r. eexists; split; reflexivity.
  - inversion Hall as [|? ? Hd Hrest]; subst.
    destruct stock as [|b|z|f|s|l|d]; try now destruct Hd.
    destruct (merge_stock_dict i d acc st) as (st1 & Hrun & Hc1).
    unfold bind at 1. rewrite Hrun.
    destruct (IH (S i) (acc ++ view_of rt w i (JObj d)) st1 Hrest) as (st2 & Hloop & Hc2).
    rewrite Hloop, <- app_assoc. eexists; split; [reflexivity | congruence].
Qed.

(** The loop returns a list only when every cached item is a dict. *)
Lemma merge_loop_returns stocks : forall i acc st res st',
  merge_loop rt w i stocks acc st = (inr res, st') -> Forall is_dict stocks.
Proof.
  induction stocks as [|stock rest IH]; intros i acc st res st' Hrun; simpl in *.
  - constructor.
  - unfold bind at 1 in Hrun.
    destruct stock as [|b|z|f|s|l|d];
      try (unfold merge_stock in Hrun; simpl in Hrun; discriminate).
    destruct (merge_stock_dict i d acc st) as (st1 & Hstep & _).
    rewrite Hstep in Hrun. constructor; [exact I | eauto].
Qed.

Lemma merged_of_lookup stocks : forall i k stock v,
  stocks !! k = Some stock ->
  In v (view_of rt w (i + k) stock) ->
  In v (merged_of rt w i stocks).
Proof.
  induction stocks as [|s rest IH]; intros i k stock v Hk Hv; [discriminate|].
  simpl. apply in_or_app. destruct k as [|k]; simpl in Hk.
  - injection Hk as ->. left. now rewrite Nat.add_0_r in Hv.
  - right. apply (IH (S i) k stock); [assumption|].
    now replace (S i + k)%nat with (i + S k)%nat by lia.
Qed.

Lemma merged_of_origin stocks : forall i v,
  In v (merged_of rt w i stocks) ->
  exists k stock, stocks !! k = Some stock /\ In v (view_of rt w (i + k) stock).
Proof.
  induction stocks as [|s rest IH]; intros i v Hin; simpl in Hin; [destruct Hin|].
  apply in_app_or in Hin as [Hin|Hin].
  - exists 0%nat, s. split; [reflexivity | now rewrite Nat.add_0_r].
  - destruct (IH (S i) v Hin) as (k & stock & Hk & Hv).
    exists (S k), stock. split; [exact Hk|].
    now replace (i + S k)%nat with (S i + k)%nat by lia.
Qed.

Lemma ticker_of_merged_view now_ t name score reason last_close pct :
  ticker_of (merged_view rt now_ t name score reason last_close pct) = t.
Proof. reflexivity. Qed.

Lemma view_of_tickers i stock :
  map ticker_of (view_of rt w i stock) = [] \/
  map ticker_of (view_of rt w i stock) = [ticker_of stock].
Proof.
  unfold view_of. destruct stock as [|b|z|f|s|l|d]; try now left.
  destruct (truthy _); [|now left].
  destruct (yf_history w i _) as [e|closes]; [now left|].
  destruct (rev closes) as [|last_close [|prev_close r]]; [now left..|].
  now right.
Qed.

Lemma merged_of_tickers_sublist stocks : forall i,
  sublist (map ticker_of (merged_of rt w i stocks)) (map ticker_of stocks).
Proof.
  induction stocks as [|stock rest IH]; intros i; simpl; [constructor|].
  rewrite map_app.
  destruct (view_of_tickers i stock) as [-> | ->]; simpl.
  - apply sublist_cons, IH.
  - apply sublist_skip, IH.
Qed.

End Merge.

(** ** The daily handler *)

Section Daily.

Variables (rt : Runtime) (w : World).

Lemma get_daily_stale st :
  is_stale (weekly_stock_data st) (now w) = inr true ->
  get_daily_stock_data rt w st = (inr staleness_error, st).
Proof.
  intros H. unfold get_daily_stock_data, bind, get_cache. now rewrite H.
Qed.

Lemma get_daily_fresh st :
  is_stale (weekly_stock_data st) (now w) = inr false ->
  get_daily_stock_data rt w st =
    (merged_data <- merge_loop rt w 0 (data (weekly_stock_data st)) [] ;;
     ret (JArr merged_data)) st.
Proof.
  intros H. unfold get_daily_stock_data, get_cache.
  unfold bind at 1 2. now rewrite H.
Qed.

Lemma get_daily_raises st e :
  is_stale (weekly_stock_data st) (now w) = inl e ->
  get_daily_stock_data rt w st = (inl e, st).
Proof.
  intros H. unfold get_daily_stock_data, bind, get_cache. now rewrite H.
Qed.

Lemma is_stale_spec c now_ :
  is_stale c now_ = inr true <->
  data c = [] \/ exists t, last_updated c = Some t /\ now_ - t > seven_days.
Proof.
  unfold is_stale. destruct (data c) as [|item items].
  - split; [now left | reflexivity].
  - destruct (last_updated c) as [t|].
    + destruct (Z.ltb_spec seven_days (now_ - t)); split.
      * intros _. right. exists t. split; [reflexivity | lia].
      * reflexivity.
      * discriminate.
      * intros [Hnil|(t' & [= <-] & Hgt)]; [discriminate | lia].
    + split; [discriminate|].
      intros [Hnil|(t' & Ht & _)]; discriminate.
Qed.

Lemma is_stale_well_formed c now_ :
  well_formed c -> exists b, is_stale c now_ = inr b.
Proof.
  intros (_ & Hts). unfold is_stale.
  destruct (data c) as [|item items]; [eauto|].
  destruct (last_updated c) as [t|]; [eauto|].
  exfalso. now apply Hts.
Qed.

(** A list returned by the handler is the concatenation of the
    contributions of the cached items. *)
Lemma get_daily_returns_list st views st' :
  get_daily_stock_data rt w st = (inr (JArr views), st') ->
  views = merged_of rt w 0 (data (weekly_stock_data st)).
Proof.
  intros Hrun.
  destruct (is_stale (weekly_stock_data st) (now w)) as [e|[|]] eqn:Hs.
  - rewrite (get_daily_raises st e Hs) in Hrun. discriminate.
  - rewrite (get_daily_stale st Hs) in Hrun. discriminate.
  - rewrite (get_daily_fresh st Hs) in Hrun. unfold bind in Hrun.
    destruct (merge_loop rt w 0 _ [] st) as [[e|m] st1] eqn:Hloop; [discriminate|].
    injection Hrun as <- <-.
    pose proof (merge_loop_returns rt w _ _ _ _ _ _ Hloop) as Hall.
    destruct (merge_loop_dicts rt w _ 0 [] st Hall) as (st2 & Hloop' & _).
    rewrite Hloop in Hloop'. now injection Hloop' as -> _.
Qed.

Lemma view_of_fields i d v :
  In v (view_of rt w i (JObj d)) ->
  field v "ticker" = Some (ticker_of (JObj d)) /\
  field v "name" = Some (dict_get_default d "name" JNull) /\
  field v "buy_sell_score" = Some (dict_get_default d "buy_sell_score" (JInt 50)) /\
  field v "reason" = Some (dict_get_default d "reason" (JStr "")) /\
  field v "score" = None.
Proof.
  unfold view_of.
  destruct (truthy _); [|intros []].
  destruct (yf_history w i _) as [e|closes]; [intros []|].
  destruct (rev closes) as [|last_close [|prev_close r]]; [intros []..|].
  intros [<-|[]]. repeat split; reflexivity.
Qed.

Lemma view_of_two_closes i d init prev_close last_close :
  truthy (ticker_of (JObj d)) = true ->
  yf_history w i (ticker_of (JObj d)) = inr (init ++ [prev_close; last_close]) ->
  view_of rt w i (JObj d) =
    [merged_view rt (now w) (ticker_of (JObj d))
       (dict_get_default d "name" JNull)
       (dict_get_default d "buy_sell_score" (JInt 50))
       (dict_get_default d "reason" (JStr ""))
       last_close (percent_change prev_close last_close)].
Proof.
  intros Ht Hh. unfold view_of. simpl in Ht, Hh. rewrite Ht, Hh.
  rewrite rev_app_distr. reflexivity.
Qed.

Lemma view_of_short i stock :
  (forall closes, yf_history w i (ticker_of stock) = inr closes ->
                  (length closes < 2)%nat) ->
  view_of rt w i stock = [].
Proof.
  intros Hshort. unfold view_of.
  destruct stock as [|b|z|f|s|l|d]; try reflexivity.
  destruct (truthy _); [|reflexivity].
  simpl in Hshort.
  destruct (yf_history w i _) as [e|closes]; [reflexivity|].
  specialize (Hshort closes eq_refl).
  destruct (rev closes) as [|last_close [|prev_close r]] eqn:Hrev; try reflexivity.
  apply closes_of_rev in Hrev. subst closes.
  rewrite length_app in Hshort. simpl in Hshort. lia.
Qed.

Lemma two_closes_split (closes : list float) :
  (2 <= length closes)%nat ->
  exists init prev_close last_close, closes = init ++ [prev_close; last_close].
Proof.
  intros Hlen.
  destruct (rev closes) as [|last_close [|prev_close r]] eqn:Hrev.
  - apply (f_equal (@length float)) in Hrev. rewrite length_rev in Hrev.
    simpl in Hrev. lia.
  - apply (f_equal (@length float)) in Hrev. rewrite length_rev in Hrev.
    simpl in Hrev. lia.
  - apply closes_of_rev in Hrev. eauto.
Qed.

End Daily.

(** The handlers keep the cache well formed. *)
Lemma initial_cache_well_formed : well_formed initial_cache.
Proof. split; [constructor | intros H; now destruct H]. Qed.

Lemma generate_keeps_well_formed (rt : Runtime) (w : World)
    (provider_arg : string) (st : state) :
  well_formed (weekly_stock_data st) ->
  well_formed (weekly_stock_data (snd (generate_weekly_stocks rt w provider_arg st))).
Proof.
  intros Hwf.
  unfold generate_weekly_stocks, try_except, generate_body.
  unfold bind at 1. simpl.
  set (st0 := {| weekly_stock_data := _; trace := _ |}).
  pose proof (preserves_LLMService_init w provider_arg st0) as Hinit.
  unfold bind at 1.
  destruct (LLMService_init w provider_arg st0) as [[e|svc] st1]; simpl in *;
    [now rewrite Hinit|].
  pose proof (preserves_generate_stock_data rt w svc st1) as Hgen.
  unfold bind at 1.
  destruct (generate_stock_data rt w svc st1) as [[e|r] st2]; simpl in *;
    [now rewrite Hgen, Hinit|].
  unfold store_enriched.
  pose proof (preserves_lift (py_get r "stocks" (JArr [])) st2) as H1.
  unfold bind at 1.
  destruct (lift (py_get r "stocks" (JArr [])) st2) as [[e|sl] st3]; simpl in *;
    [now rewrite H1, Hgen, Hinit|].
  pose proof (preserves_lift (py_iter sl) st3) as H2.
  unfold bind at 1.
  destruct (lift (py_iter sl) st3) as [[e|items] st4]; simpl in *;
    [now rewrite H2, H1, Hgen, Hinit|].
  pose proof (preserves_enrich_loop rt w items 0 [] st4) as H3.
  unfold bind at 1.
  destruct (enrich_loop rt w 0 items [] st4) as [[e|enriched] st5] eqn:Hloop;
    simpl in *; [now rewrite H3, H2, H1, Hgen, Hinit|].
  pose proof (enrich_loop_returns rt w _ _ _ _ _ _ Hloop) as Hall.
  destruct (enrich_loop_dicts rt w items 0 [] st4 Hall) as (st6 & Hloop' & _).
  rewrite Hloop in Hloop'. injection Hloop' as -> _.
  split; simpl; [|discriminate].
  clear. generalize 0%nat. induction items as [|s rest IH]; intros i; simpl;
    [constructor|].
  apply Forall_app. split; [|apply IH].
  unfold enrich_of. destruct s as [|b|z|f|s|l|d]; try constructor.
  destruct (truthy _); repeat constructor.
Qed.

(** C2: the handler answers with the staleness error exactly when the
    cached list is empty or more than seven days have passed since
    [last_updated]; the error leaves the state as it was (no call to any
    service, nothing printed, the cache unchanged); a cache stored eight
    days ago gives the error, a non-empty cache stored six days ago is
    handed to the merge loop. *)
Theorem staleness_error_iff (rt : Runtime) (w : World) (st : state) :
  let c := weekly_stock_data st in
  (fst (get_daily_stock_data rt w st) = inr staleness_error <->
   data c = [] \/ exists t, last_updated c = Some t /\ now w - t > seven_days) /\
  (fst (get_daily_stock_data rt w st) = inr staleness_error ->
   get_daily_stock_data rt w st = (inr staleness_error, st)) /\
  (last_updated c = Some (now w - days 8) ->
   get_daily_stock_data rt w st = (inr staleness_error, st)) /\
  (last_updated c = Some (now w - days 6) -> data c <> [] ->
   get_daily_stock_data rt w st =
     (merged_data <- merge_loop rt w 0 (data c) [] ;; ret (JArr merged_data)) st).
Proof.
  intros c.
  assert (Hiff : fst (get_daily_stock_data rt w st) = inr staleness_error <->
                 is_stale c (now w) = inr true).
  { destruct (is_stale c (now w)) as [e|[|]] eqn:Hs.
    - rewrite (get_daily_raises rt w st e Hs). simpl. split; discriminate.
    - rewrite (get_daily_stale rt w st Hs). simpl. split; reflexivity.
    - rewrite (get_daily_fresh rt w st Hs). unfold bind.
      destruct (merge_loop rt w 0 _ [] st) as [[e|m] st1]; simpl;
        split; discriminate. }
  split; [|split; [|split]].
  - rewrite Hiff. apply is_stale_spec.
  - intros H. apply get_daily_stale. now apply Hiff.
  - intros Ht. apply get_daily_stale, is_stale_spec.
    destruct (data c) as [|item items] eqn:Hd; [now left|].
    right. eexists. split; [exact Ht|]. unfold days, seven_days. lia.
  - intros Ht Hne. apply get_daily_fresh.
    unfold is_stale. fold c. rewrite Ht.
    destruct (data c) as [|item items]; [contradiction|].
    f_equal. apply Z.ltb_ge. unfold days, seven_days. lia.
Qed.

Lemma staleness_error_iff_witness :
  get_daily_stock_data Reference.runtime Sample.world (Sample.aged (days 8))
    = (inr staleness_error, Sample.aged (days 8)) /\
  get_daily_stock_data Reference.runtime Sample.world (Sample.aged (days 6))
    = (merged_data <- merge_loop Reference.runtime Sample.world 0 Sample.enriched [] ;;
       ret (JArr merged_data)) (Sample.aged (days 6)) /\
  (exists t, Some (now Sample.world - days 8) = Some t /\
             now Sample.world - t > seven_days).
Proof.
  destruct (staleness_error_iff Reference.runtime Sample.world (Sample.aged (days 8)))
    as (Hiff & Hsame & Height & _).
  destruct (staleness_error_iff Reference.runtime Sample.world (Sample.aged (days 6)))
    as (_ & _ & _ & Hsix).
  split; [|split].
  - apply Hsame. reflexivity.
  - apply Hsix; [reflexivity | discriminate].
  - destruct (proj1 Hiff eq_refl) as [Hnil|H]; [discriminate | exact H].
Defined.

(** C7: on a well-formed cache the handler never raises; it answers with
    the staleness error only when the cache is stale, and otherwise with
    the concatenation of what each cached item contributes.  An item
    whose price fetch raises or gives fewer than two closes contributes
    nothing; an item with a ticker and two closes or more contributes
    its view, whatever happened to the other items. *)
Theorem per_ticker_failures_isolated (rt : Runtime) (w : World) (st : state) :
  well_formed (weekly_stock_data st) ->
  let c := weekly_stock_data st in
  (exists resp st',
      get_daily_stock_data rt w st = (inr resp, st') /\
      weekly_stock_data st' = c /\
      ((resp = staleness_error /\ is_stale c (now w) = inr true) \/
       (resp = JArr (merged_of rt w 0 (data c)) /\ is_stale c (now w) = inr false))) /\
  (forall k stock,
      data c !! k = Some stock ->
      (forall closes, yf_history w k (ticker_of stock) = inr closes ->
                      (length closes < 2)%nat) ->
      view_of rt w k stock = []) /\
  (forall k stock closes,
      data c !! k = Some stock ->
      truthy (ticker_of stock) = true ->
      yf_history w k (ticker_of stock) = inr closes ->
      (2 <= length closes)%nat ->
      exists v, view_of rt w k stock = [v] /\
                ticker_of v = ticker_of stock /\
                In v (merged_of rt w 0 (data c))).
Proof.
  intros Hwf c. split; [|split].
  - destruct (is_stale_well_formed c (now w) Hwf) as ([|] & Hs).
    + exists staleness_error, st. split; [now apply get_daily_stale|].
      split; [reflexivity | now left].
    + destruct Hwf as (Hall & _).
      destruct (merge_loop_dicts rt w (data c) 0 [] st Hall) as (st1 & Hloop & Hc).
      exists (JArr (merged_of rt w 0 (data c))), st1.
      split; [|split; [exact Hc | now right]].
      rewrite (get_daily_fresh rt w st Hs). unfold bind. fold c.
      now rewrite Hloop.
  - intros k stock _ Hshort. now apply view_of_short.
  - intros k stock closes Hk Ht Hh Hlen.
    destruct Hwf as (Hall & _).
    assert (Hd : is_dict stock).
    { rewrite List.Forall_forall in Hall. apply Hall.
      apply list_elem_of_In. eapply list_elem_of_lookup_2. exact Hk. }
    destruct stock as [|b|z|f|s|l|d]; try now destruct Hd.
    destruct (two_closes_split closes Hlen) as (init & prev_close & last_close & ->).
    eexists.
    split; [exact (view_of_two_closes rt w k d init prev_close last_close Ht Hh)|].
    split; [reflexivity|].
    apply (merged_of_lookup rt w (data c) 0 k (JObj d)); [exact Hk|].
    change (0 + k)%nat with k.
    rewrite (view_of_two_closes rt w k d init prev_close last_close Ht Hh).
    now left.
Qed.

Lemma sample_well_formed : well_formed (weekly_stock_data (Sample.aged (days 1))).
Proof. split; [repeat constructor | discriminate]. Qed.

Lemma per_ticker_failures_isolated_witness :
  (exists resp st',
      get_daily_stock_data Reference.runtime Sample.world (Sample.aged (days 1))
        = (inr resp, st') /\
      weekly_stock_data st' = weekly_stock_data (Sample.aged (days 1)) /\
      ((resp = staleness_error /\
        is_stale (weekly_stock_data (Sample.aged (days 1))) (now Sample.world)
          = inr true) \/
       (resp = JArr (merged_of Reference.runtime Sample.world 0 Sample.enriched) /\
        is_stale (weekly_stock_data (Sample.aged (days 1))) (now Sample.world)
          = inr false))) /\
  view_of Reference.runtime Sample.world 1 Sample.zzz_item = [] /\
  (exists v, view_of Reference.runtime Sample.world 2 Sample.nvda_item = [v] /\
             ticker_of v = ticker_of Sample.nvda_item /\
             In v (merged_of Reference.runtime Sample.world 0 Sample.enriched)).
Proof.
  destruct (per_ticker_failures_isolated Reference.runtime Sample.world
              (Sample.aged (days 1)) sample_well_formed) as (Hrun & Hshort & Hgood).
  split; [exact Hrun|]. split.
  - apply Hshort; [reflexivity|].
    intros closes [= <-]. simpl. lia.
  - apply (Hgood 2%nat _ [64%float; 80%float; 100%float]);
      [reflexivity | reflexivity | reflexivity | simpl; lia].
Defined.

(** C8: whatever the cache holds and whatever the price fetches do, the
    tickers of a returned list form a subsequence of the tickers of the
    cached list, in the cache's order. *)
Theorem merged_order_follows_cache (rt : Runtime) (w : World) (st st' : state)
    (views : list json) :
  get_daily_stock_data rt w st = (inr (JArr views), st') ->
  sublist (map ticker_of views) (map ticker_of (data (weekly_stock_data st))).
Proof.
  intros Hrun. rewrite (get_daily_returns_list rt w st views st' Hrun).
  apply merged_of_tickers_sublist.
Qed.

Lemma merged_order_follows_cache_witness :
  sublist (map ticker_of [Sample.aapl_view; Sample.nvda_view])
          (map ticker_of Sample.enriched).
Proof.
  apply (merged_order_follows_cache Reference.runtime Sample.world
           (Sample.aged (days 1))
           (snd (get_daily_stock_data Reference.runtime Sample.world
                   (Sample.aged (days 1))))).
  vm_compute. reflexivity.
Defined.

(** Every view of a returned list comes from a cached dict. *)
Lemma returned_view_origin (rt : Runtime) (w : World) (st st' : state)
    (views : list json) (v : json) :
  get_daily_stock_data rt w st = (inr (JArr views), st') ->
  In v views ->
  exists k d, data (weekly_stock_data st) !! k = Some (JObj d) /\
              In v (view_of rt w k (JObj d)).
Proof.
  intros Hrun Hin. rewrite (get_daily_returns_list rt w st views st' Hrun) in Hin.
  destruct (merged_of_origin rt w _ 0 v Hin) as (k & stock & Hk & Hv).
  change (0 + k)%nat with k in Hv.
  destruct stock as [|b|z|f|s|l|d]; try now destruct Hv.
  eauto.
Qed.

(** ** Rounding *)

Lemma nearest_even_spec (m d : Z) : 0 < d -> is_nearest_even m d (nearest_even m d).
Proof.
  intros Hd. unfold is_nearest_even, nearest_even.
  pose proof (Z.div_mod m d ltac:(lia)) as Hm.
  pose proof (Z.mod_pos_bound m d Hd) as Hr.
  set (q := m / d) in *. set (r := m mod d) in *.
  destruct (Z.ltb_spec (2 * r) d) as [H1|H1].
  - split; [lia|]. intros H. exfalso. lia.
  - destruct (Z.ltb_spec d (2 * r)) as [H2|H2].
    + split; [lia|]. intros H. exfalso. lia.
    + destruct (Z.even q) eqn:Hq.
      * split; [lia|]. intros _. exact Hq.
      * split; [lia|]. intros _.
        rewrite Z.add_1_r, Z.even_succ, <- Z.negb_even, Hq. reflexivity.
Qed.

(** The nearest integer, ties to even, is determined. *)
Lemma is_nearest_even_unique (m d n1 n2 : Z) :
  0 < d -> is_nearest_even m d n1 -> is_nearest_even m d n2 -> n1 = n2.
Proof.
  intros Hd (Hb1 & He1) (Hb2 & He2).
  assert (Hclose : n1 = n2 \/ n1 = n2 + 1 \/ n2 = n1 + 1) by nia.
  destruct Hclose as [H|[H|H]]; [exact H| |]; exfalso; subst.
  - assert (Hodd : Z.even (n2 + 1) = true) by (apply He1; nia).
    assert (Heven : Z.even n2 = true) by (apply He2; nia).
    rewrite Z.add_1_r, Z.even_succ, <- Z.negb_even, Heven in Hodd. discriminate.
  - assert (Hodd : Z.even (n1 + 1) = true) by (apply He2; nia).
    assert (Heven : Z.even n1 = true) by (apply He1; nia).
    rewrite Z.add_1_r, Z.even_succ, <- Z.negb_even, Heven in Hodd. discriminate.
Qed.

Lemma nearest_integer_of_spec (m : positive) (e : Z) :
  nearest_integer m e (nearest_integer_of m e).
Proof.
  unfold nearest_integer, nearest_integer_of.
  destruct (Z.leb_spec 0 e) as [H|H]; split; intros H'; try lia.
  apply nearest_even_spec. apply Z.pow_pos_nonneg; lia.
Qed.

Lemma nearest_integer_unique (m : positive) (e n1 n2 : Z) :
  nearest_integer m e n1 -> nearest_integer m e n2 -> n1 = n2.
Proof.
  intros (Hpos1 & Hneg1) (Hpos2 & Hneg2).
  destruct (Z.le_gt_cases 0 e) as [H|H].
  - rewrite (Hpos1 H), (Hpos2 H). reflexivity.
  - apply (is_nearest_even_unique (Z.pos m) (2 ^ (- e)));
      [apply Z.pow_pos_nonneg; lia | auto | auto].
Qed.


(** It is the only function that does. *)
Lemma rounded_half_even_unique (x c : float) :
  rounded_half_even x c -> c = round_half_even x.
Proof.
  unfold rounded_half_even, round_half_even, rint.
  destruct (PrimFloat.abs (x * 100) <? 0x1p52)%float; [|auto].
  destruct (Prim2SF (x * 100)) as [s|s| |s m e]; auto.
  intros (n & Hn & ->).
  now rewrite (nearest_integer_unique m e n _ Hn (nearest_integer_of_spec m e)).
Qed.

(** A price of 3.14159 becomes 3.14; the ties 0.125 and 0.375 go to the
    even hundredth, 0.12 and 0.38, whatever their sign; [rint] takes 0.5
    and 2.5 down and 1.5 and 3.5 up. *)
Example sample_rounding :
  round_half_even 0x1.921f9f01b866ep+1 = (314 / 100)%float /\
  round_half_even 0.125 = (12 / 100)%float /\
  round_half_even 0.375 = (38 / 100)%float /\
  round_half_even (-0.125) = (-12 / 100)%float /\
  round_half_even (-0.375) = (-38 / 100)%float /\
  map rint [0.5; 1.5; 2.5; 3.5; -2.5]%float = [0; 2; 2; 4; -2]%float /\
  map round_half_even [105; 5; 100; 25]%float = [105; 5; 100; 25]%float.
Proof. repeat split; vm_compute; reflexivity. Qed.



(** The merged list is the concatenation of the contributions of the
    positions, in order. *)
Lemma merged_of_concat (rt : Runtime) (w : World) (stocks : list json) : forall i,
  merged_of rt w i stocks = concat (imap (fun k => view_of rt w (i + k)) stocks).
Proof.
  induction stocks as [|stock rest IH]; intros i; [reflexivity|].
  simpl. rewrite Nat.add_0_r, IH. do 2 f_equal.
  apply imap_ext. intros k x _. simpl. now rewrite Nat.add_succ_r.
Qed.

(** A position contributes one view at most. *)
Lemma view_of_singleton (rt : Runtime) (w : World) (i : nat) (stock v : json) :
  In v (view_of rt w i stock) -> view_of rt w i stock = [v].
Proof.
  unfold view_of.
  destruct stock as [|b|z|f|s|l|d]; try now intros [].
  destruct (truthy _); [|now intros []].
  destruct (yf_history w i _) as [e|closes]; [now intros []|].
  destruct (rev closes) as [|last_close [|prev_close l]]; try now intros [].
  intros [<-|[]]. reflexivity.
Qed.

(** C10: the returned list is made of what the cached items contribute,
    position by position and in the cache's order.  An item contributes
    one view at most, and that view carries the item's ticker, the
    item's own ["buy_sell_score"], or 50 when the item has none, the
    item's own ["reason"], or the empty string when the item has none,
    and no ["score"] key, whatever another item with the same ticker
    holds.  An item with a ticker whose price fetch gives two closes or
    more does contribute a view. *)
Theorem merged_view_defaults (rt : Runtime) (w : World) (st st' : state)
    (views : list json) :
  get_daily_stock_data rt w st = (inr (JArr views), st') ->
  views = concat (imap (view_of rt w) (data (weekly_stock_data st))) /\
  (forall k item v,
      data (weekly_stock_data st) !! k = Some item ->
      In v (view_of rt w k item) ->
      view_of rt w k item = [v] /\
      exists d,
        item = JObj d /\
        field v "ticker" = Some (ticker_of item) /\
        (dict_get d "buy_sell_score" = None ->
         field v "buy_sell_score" = Some (JInt 50)) /\
        (forall score, dict_get d "buy_sell_score" = Some score ->
                       field v "buy_sell_score" = Some score) /\
        (dict_get d "reason" = None -> field v "reason" = Some (JStr "")) /\
        (forall reason, dict_get d "reason" = Some reason ->
                        field v "reason" = Some reason) /\
        field v "score" = None) /\
  (forall k d closes,
      data (weekly_stock_data st) !! k = Some (JObj d) ->
      truthy (ticker_of (JObj d)) = true ->
      yf_history w k (ticker_of (JObj d)) = inr closes ->
      (2 <= length closes)%nat ->
      exists v, view_of rt w k (JObj d) = [v] /\ In v views).
Proof.
  intros Hrun. split; [|split].
  - rewrite (get_daily_returns_list rt w st views st' Hrun).
    apply (merged_of_concat rt w _ 0).
  - intros k item v _ Hv.
    split; [now apply view_of_singleton|].
    destruct item as [|b|z|f|s|l|d]; try now destruct Hv.
    destruct (view_of_fields rt w k d v Hv) as (Ht & _ & Hscore & Hreason & Hno).
    exists d. unfold dict_get_default in Hscore, Hreason.
    repeat split; try assumption.
    + intros Hnone. now rewrite Hnone in Hscore.
    + intros score Hsome. now rewrite Hsome in Hscore.
    + intros Hnone. now rewrite Hnone in Hreason.
    + intros reason Hsome. now rewrite Hsome in Hreason.
  - intros k d closes Hk Ht Hh Hlen.
    destruct (two_closes_split closes Hlen) as (init & prev_close & last_close & ->).
    pose proof (view_of_two_closes rt w k d init prev_close last_close Ht Hh) as Hview.
    eexists. split; [exact Hview|].
    rewrite (get_daily_returns_list rt w st views st' Hrun).
    apply (merged_of_lookup rt w _ 0 k (JObj d)); [exact Hk|].
    change (0 + k)%nat with k. rewrite Hview. now left.
Qed.

Lemma merged_view_defaults_witness :
  [Scenario.twin_scored_view; Scenario.twin_bare_view] =
    concat (imap (view_of Reference.runtime Sample.world)
              [Scenario.twin_scored; Scenario.twin_bare]) /\
  view_of Reference.runtime Sample.world 1 Scenario.twin_bare =
    [Scenario.twin_bare_view] /\
  exists d,
    Scenario.twin_bare = JObj d /\
    field Scenario.twin_bare_view "ticker" = Some (ticker_of Scenario.twin_bare) /\
    (dict_get d "buy_sell_score" = None ->
     field Scenario.twin_bare_view "buy_sell_score" = Some (JInt 50)) /\
    (forall score, dict_get d "buy_sell_score" = Some score ->
                   field Scenario.twin_bare_view "buy_sell_score" = Some score) /\
    (dict_get d "reason" = None ->
     field Scenario.twin_bare_view "reason" = Some (JStr "")) /\
    (forall reason, dict_get d "reason" = Some reason ->
                    field Scenario.twin_bare_view "reason" = Some reason) /\
    field Scenario.twin_bare_view "score" = None.
Proof.
  destruct (merged_view_defaults Reference.runtime Sample.world Scenario.twins
              (snd (get_daily_stock_data Reference.runtime Sample.world
                      Scenario.twins))
              [Scenario.twin_scored_view; Scenario.twin_bare_view])
    as (Hall & Hitem & _).
  - vm_compute. reflexivity.
  - split; [exact Hall|].
    apply (Hitem 1%nat Scenario.twin_bare Scenario.twin_bare_view);
      [reflexivity | vm_compute; left; reflexivity].
Defined.

(** Two cached items with the same ticker: each is served with its own
    score and reason, the second with the defaults. *)
Example sample_twins :
  fst (get_daily_stock_data Reference.runtime Sample.world Scenario.twins) =
    inr (JArr [Scenario.twin_scored_view; Scenario.twin_bare_view]) /\
  field Scenario.twin_scored_view "buy_sell_score" = Some (JInt 10) /\
  field Scenario.twin_scored_view "reason" = Some (JStr "first") /\
  field Scenario.twin_bare_view "buy_sell_score" = Some (JInt 50) /\
  field Scenario.twin_bare_view "reason" = Some (JStr "").
Proof. repeat split; vm_compute; reflexivity. Qed.

(** The views of the sample: AAPL carries the cached score and reason,
    NVDA the defaults. *)
Example sample_defaults :
  field Sample.aapl_view "buy_sell_score" = Some (JInt 85) /\
  field Sample.aapl_view "reason" = Some (JStr "Strong earnings") /\
  field Sample.nvda_view "buy_sell_score" = Some (JInt 50) /\
  field Sample.nvda_view "reason" = Some (JStr "").
Proof. repeat split. Qed.

(** The reference decoder on numbers, nesting and malformed texts. *)
Example sample_loads :
  Reference.loads "[1.5, -0.25, 25e-1, 1e2, -7, 0]" =
    inr (JArr [JFloat 1.5; JFloat (-0.25); JFloat 2.5; JFloat 100; JInt (-7); JInt 0]) /\
  Reference.loads " {} " = inr (JObj []) /\
  Reference.loads "[1 2]" = inl (Exn JSONDecodeError "Expecting ',' delimiter") /\
  Reference.loads "{oops}" = inl (Exn JSONDecodeError Reference.expecting_name) /\
  Reference.loads "" = inl (Exn JSONDecodeError "Expecting value") /\
  Reference.loads "{} {}" = inl (Exn JSONDecodeError "Extra data") /\
  Reference.loads Sample.answer = inl (Exn JSONDecodeError "Expecting value").
Proof. repeat split; vm_compute; reflexivity. Qed.

(** * Further properties *)

(** ** Selecting and configuring the provider *)

Lemma ascii_lower_idempotent (a : ascii) : ascii_lower (ascii_lower a) = ascii_lower a.
Proof. destruct a as [[] [] [] [] [] [] [] []]; reflexivity. Qed.

Lemma str_lower_idempotent (s : string) : str_lower (str_lower s) = str_lower s.
Proof.
  induction s as [|a s IH]; simpl; [reflexivity|].
  now rewrite ascii_lower_idempotent, IH.
Qed.

(** The constructor neither reads nor writes the state. *)
Lemma LLMService_init_pure (w : World) (p : string) :
  exists r, forall st, LLMService_init w p st = (r, st).
Proof.
  unfold LLMService_init.
  destruct (negb _); [eexists; intros st; reflexivity|].
  destruct (String.eqb (str_lower p) "openai").
  - destruct (openai_client w _) as [e|[[|a k]|]];
      eexists; intros st; reflexivity.
  - destruct (String.eqb _ "gemini"); [|eexists; intros st; reflexivity].
    destruct (getenv w "GEMINI_API_KEY") as [[|a k]|];
      try (eexists; intros st; reflexivity).
    destruct (gemini_configure w _) as [e|[]]; eexists; intros st; reflexivity.
Qed.

Lemma LLMService_init_state (w : World) (p : string) (st st' : state) r :
  LLMService_init w p st = (r, st') -> st' = st /\ forall st2, LLMService_init w p st2 = (r, st2).
Proof.
  destruct (LLMService_init_pure w p) as (r0 & Hr0). rewrite Hr0.
  intros [= <- <-]. split; [reflexivity | exact Hr0].
Qed.

Lemma string_eqb_false (s1 s2 : string) : s1 <> s2 -> String.eqb s1 s2 = false.
Proof. intros H. now destruct (String.eqb_spec s1 s2). Qed.

(** X1: the constructor accepts the two supported providers only, under
    any spelling of their letters' case: a service it returns carries the
    lowercased name, which is "openai" or "gemini"; any other name raises
    a [ValueError], and the state is as before in both cases. *)
Theorem LLMService_init_outcomes (w : World) (p : string) (st : state) :
  (forall svc st',
      LLMService_init w p st = (inr svc, st') ->
      st' = st /\ provider svc = str_lower p /\
      (provider svc = "openai" \/ provider svc = "gemini")) /\
  (str_lower p <> "openai" -> str_lower p <> "gemini" ->
   exists msg, LLMService_init w p st = (inl (Exn ValueError msg), st)).
Proof.
  split.
  - intros svc st' Hrun.
    destruct (LLMService_init_state w p st st' _ Hrun) as (-> & _).
    split; [reflexivity|].
    unfold LLMService_init in Hrun.
    destruct (String.eqb_spec (str_lower p) "openai") as [Ho|Ho]; simpl in Hrun.
    + unfold bind in Hrun.
      destruct (lift (openai_client w _) st) as [[e|[[|a k]|]] st1];
        try discriminate.
      injection Hrun as <- _. simpl. auto.
    + destruct (String.eqb_spec (str_lower p) "gemini") as [Hg|Hg]; simpl in Hrun;
        [|discriminate].
      destruct (getenv w "GEMINI_API_KEY") as [[|a k]|]; try discriminate.
      unfold bind in Hrun.
      destruct (lift (gemini_configure w _) st) as [[e|[]] st1]; [discriminate|].
      injection Hrun as <- _. simpl. auto.
  - intros Ho Hg. unfold LLMService_init.
    rewrite (string_eqb_false _ _ Ho), (string_eqb_false _ _ Hg). simpl.
    eexists. reflexivity.
Qed.

Lemma LLMService_init_outcomes_witness :
  (provider {| provider := "gemini" |} = str_lower "Gemini" /\
   (provider {| provider := "gemini" |} = "openai" \/
    provider {| provider := "gemini" |} = "gemini")) /\
  (exists msg,
      LLMService_init Sample.world "Claude" state0 = (inl (Exn ValueError msg), state0)).
Proof.
  destruct (LLMService_init_outcomes Sample.world "Gemini" state0) as (Hok & _).
  destruct (LLMService_init_outcomes Sample.world "Claude" state0) as (_ & Hbad).
  split.
  - apply (Hok {| provider := "gemini" |} state0). reflexivity.
  - apply Hbad; discriminate.
Defined.

(** X2: a Gemini provider whose [GEMINI_API_KEY] is missing or empty is
    refused with a [ValueError] naming the variable.  For OpenAI the key
    read from the environment is handed to the client constructor, and an
    exception the constructor raises, as the SDK does when it finds no
    key, is passed on as it is. *)
Theorem missing_api_key_is_refused (w : World) (p : string) (st : state) :
  (str_lower p = "gemini" ->
   getenv w "GEMINI_API_KEY" = None \/ getenv w "GEMINI_API_KEY" = Some "" ->
   LLMService_init w p st =
     (inl (Exn ValueError "GEMINI_API_KEY environment variable not set."), st)) /\
  (forall e,
      str_lower p = "openai" ->
      openai_client w (getenv w "OPENAI_API_KEY") = inl e ->
      LLMService_init w p st = (inl e, st)).
Proof.
  unfold LLMService_init. split.
  - intros -> [-> | ->]; reflexivity.
  - intros e -> H; simpl; unfold bind; rewrite H; reflexivity.
Qed.

Lemma missing_api_key_is_refused_witness :
  LLMService_init Scenario.no_keys "GEMINI" state0 =
    (inl (Exn ValueError "GEMINI_API_KEY environment variable not set."), state0) /\
  LLMService_init Scenario.no_keys "openai" state0 =
    (inl Scenario.missing_key, state0).
Proof.
  destruct (missing_api_key_is_refused Scenario.no_keys "GEMINI" state0) as (Hg & _).
  destruct (missing_api_key_is_refused Scenario.no_keys "openai" state0) as (_ & Ho).
  split.
  - apply Hg; [reflexivity | now left].
  - apply Ho; reflexivity.
Defined.

(** The handler turns an exception of the decoding phase into an error
    dict. *)
Lemma generate_weekly_stocks_decode_error (rt : Runtime) (w : World)
    (p : string) (st st1 : state) (e : exn) :
  decode_phase rt w p st = (inl e, st1) ->
  generate_weekly_stocks rt w p st = (inr (error_response e), st1).
Proof.
  unfold decode_phase, generate_weekly_stocks, try_except, generate_body, bind,
    print, emit.
  simpl.
  destruct (LLMService_init w p _) as [[e0|svc] st'].
  - now intros [= -> ->].
  - destruct (generate_stock_data rt w svc st') as [[e0|r] st''];
      [now intros [= -> ->] | discriminate].
Qed.

Lemma decode_phase_init_error (rt : Runtime) (w : World) (p : string)
    (st st0 st0' : state) (e : exn) :
  LLMService_init w p st0 = (inl e, st0') ->
  decode_phase rt w p st = (inl e, logged st [announcement]).
Proof.
  intros Hinit.
  destruct (LLMService_init_state w p st0 st0' _ Hinit) as (_ & Hany).
  unfold decode_phase, bind, print, emit. simpl. now rewrite Hany.
Qed.

Lemma decode_phase_init_ok (rt : Runtime) (w : World) (p : string)
    (st st0 st0' : state) (svc : LLMService) :
  LLMService_init w p st0 = (inr svc, st0') ->
  decode_phase rt w p st = generate_stock_data rt w svc (logged st [announcement]).
Proof.
  intros Hinit.
  destruct (LLMService_init_state w p st0 st0' _ Hinit) as (_ & Hany).
  unfold decode_phase, bind, print, emit. simpl. now rewrite Hany.
Qed.

(** X3: a configuration error is reported before anything else happens:
    when the constructor raises, the handler answers with the error
    dict of that exception, the only event is the announcement it
    prints (no call to the LLM, no name lookup) and the cache is
    unchanged. *)
Theorem config_error_before_any_call (rt : Runtime) (w : World) (p : string)
    (st st0 st0' : state) (e : exn) :
  LLMService_init w p st0 = (inl e, st0') ->
  generate_weekly_stocks rt w p st =
    (inr (error_response e), logged st [announcement]).
Proof.
  intros Hinit. apply generate_weekly_stocks_decode_error.
  now apply (decode_phase_init_error rt w p st st0 st0').
Qed.

Lemma config_error_before_any_call_witness :
  generate_weekly_stocks Reference.runtime Scenario.no_keys "gemini"
    (Sample.aged (days 1)) =
    (inr (JObj [("error",
                 JStr "An error occurred: GEMINI_API_KEY environment variable not set.")]),
     logged (Sample.aged (days 1)) [announcement]).
Proof.
  apply (config_error_before_any_call Reference.runtime Scenario.no_keys "gemini"
           (Sample.aged (days 1)) state0 state0
           (Exn ValueError "GEMINI_API_KEY environment variable not set.")).
  reflexivity.
Defined.

(** X4: the provider name is matched without regard to case: two
    spellings with the same lowercase form give the same answer and the
    same final state. *)
Theorem provider_case_insensitive (rt : Runtime) (w : World) (p q : string)
    (st : state) :
  str_lower p = str_lower q ->
  generate_weekly_stocks rt w p st = generate_weekly_stocks rt w q st.
Proof.
  intros Hpq.
  assert (Hinit : forall st', LLMService_init w p st' = LLMService_init w q st').
  { intros st'. unfold LLMService_init. now rewrite Hpq. }
  unfold generate_weekly_stocks, try_except, generate_body, bind, print, emit.
  simpl. now rewrite Hinit.
Qed.

Lemma provider_case_insensitive_witness :
  generate_weekly_stocks Reference.runtime Sample.world "OpenAI" state0 =
  generate_weekly_stocks Reference.runtime Sample.world "OPENAI" state0.
Proof.
  apply (provider_case_insensitive Reference.runtime Sample.world "OpenAI" "OPENAI").
  reflexivity.
Defined.

(** ** Failures of the LLM call *)

Lemma generate_stock_data_openai_error (rt : Runtime) (w : World) (st : state)
    (e : exn) :
  openai_create w generate_prompt = inl e ->
  generate_stock_data rt w {| provider := "openai" |} st =
    (inl (if is_APIError e
          then Exn Exception_ ("OpenAI API error: " +:+ exn_msg e)
          else e),
     logged st [CallLLM "openai"]).
Proof.
  intros H. unfold generate_stock_data, call_openai, try_except, bind, emit; simpl.
  rewrite H. simpl. now destruct (is_APIError e).
Qed.

Lemma generate_stock_data_gemini_error (rt : Runtime) (w : World) (st : state)
    (e : exn) :
  gemini_generate w generate_prompt = inl e ->
  generate_stock_data rt w {| provider := "gemini" |} st =
    (inl (Exn Exception_ ("Gemini API error: " +:+ exn_msg e)),
     logged st [CallLLM "gemini"]).
Proof.
  intros H. unfold generate_stock_data, call_gemini, try_except, bind, emit; simpl.
  now rewrite H.
Qed.

(** X5: when the OpenAI call raises, the handler answers with an error
    dict and leaves the cache alone, after exactly one call to the LLM
    and no name lookup; the message of an [openai.APIError] is prefixed
    with "OpenAI API error: ", any other exception is reported with its
    own message. *)
Theorem openai_failure_reported (rt : Runtime) (w : World) (p : string)
    (st st0 st0' : state) (e : exn) :
  LLMService_init w p st0 = (inr {| provider := "openai" |}, st0') ->
  openai_create w generate_prompt = inl e ->
  generate_weekly_stocks rt w p st =
    (inr (JObj [("error",
                 JStr ("An error occurred: " +:+
                       (if is_APIError e then "OpenAI API error: " +:+ exn_msg e
                        else exn_msg e)))]),
     logged st [announcement; CallLLM "openai"]).
Proof.
  intros Hinit Hcall.
  rewrite (generate_weekly_stocks_decode_error rt w p st
             (logged st [announcement; CallLLM "openai"])
             (if is_APIError e
              then Exn Exception_ ("OpenAI API error: " +:+ exn_msg e) else e)).
  - unfold error_response. now destruct (is_APIError e).
  - rewrite (decode_phase_init_ok rt w p st st0 st0' _ Hinit).
    rewrite (generate_stock_data_openai_error rt w _ e Hcall).
    now rewrite logged_logged.
Qed.

Lemma openai_failure_reported_witness :
  generate_weekly_stocks Reference.runtime Scenario.llm_down "openai"
    (Sample.aged (days 1)) =
    (inr (JObj [("error",
                 JStr "An error occurred: OpenAI API error: Rate limit reached")]),
     logged (Sample.aged (days 1)) [announcement; CallLLM "openai"]) /\
  generate_weekly_stocks Reference.runtime
    (Scenario.with_openai (inl (Exn OtherError "Connection reset"))) "openai"
    (Sample.aged (days 1)) =
    (inr (JObj [("error", JStr "An error occurred: Connection reset")]),
     logged (Sample.aged (days 1)) [announcement; CallLLM "openai"]).
Proof.
  split.
  - apply (openai_failure_reported Reference.runtime Scenario.llm_down "openai"
             (Sample.aged (days 1)) state0 state0 (Exn APIError "Rate limit reached"));
      reflexivity.
  - apply (openai_failure_reported Reference.runtime
             (Scenario.with_openai (inl (Exn OtherError "Connection reset"))) "openai"
             (Sample.aged (days 1)) state0 state0 (Exn OtherError "Connection reset"));
      reflexivity.
Defined.

(** X6: when the Gemini call raises, whatever the exception, the handler
    answers with an error dict whose message is prefixed with
    "Gemini API error: " and leaves the cache alone, after exactly one
    call to the LLM and no name lookup. *)
Theorem gemini_failure_reported (rt : Runtime) (w : World) (p : string)
    (st st0 st0' : state) (e : exn) :
  LLMService_init w p st0 = (inr {| provider := "gemini" |}, st0') ->
  gemini_generate w generate_prompt = inl e ->
  generate_weekly_stocks rt w p st =
    (inr (JObj [("error",
                 JStr ("An error occurred: Gemini API error: " +:+ exn_msg e))]),
     logged st [announcement; CallLLM "gemini"]).
Proof.
  intros Hinit Hcall.
  apply (generate_weekly_stocks_decode_error rt w p st _
           (Exn Exception_ ("Gemini API error: " +:+ exn_msg e))).
  rewrite (decode_phase_init_ok rt w p st st0 st0' _ Hinit).
  rewrite (generate_stock_data_gemini_error rt w _ e Hcall).
  now rewrite logged_logged.
Qed.

Lemma gemini_failure_reported_witness :
  generate_weekly_stocks Reference.runtime Scenario.llm_down "gemini"
    (Sample.aged (days 1)) =
    (inr (JObj [("error",
                 JStr "An error occurred: Gemini API error: Deadline exceeded")]),
     logged (Sample.aged (days 1)) [announcement; CallLLM "gemini"]).
Proof.
  apply (gemini_failure_reported Reference.runtime Scenario.llm_down "gemini"
           (Sample.aged (days 1)) state0 state0 (Exn OtherError "Deadline exceeded"));
    reflexivity.
Defined.

Lemma decode_response_none (rt : Runtime) (st : state) :
  decode_response rt None st =
    (inl (Exn AttributeError "'NoneType' object has no attribute 'find'"), st).
Proof. reflexivity. Qed.

(** X7: only a [JSONDecodeError] is turned into "Failed to decode JSON
    from LLM response.".  A missing content ([None], on which [find]
    raises an [AttributeError]) and an exception of another class raised
    by [json.loads] leave the decoder as they are, and nothing is
    printed. *)
Theorem decode_response_passes_other_errors (rt : Runtime) (st : state) :
  decode_response rt None st =
    (inl (Exn AttributeError "'NoneType' object has no attribute 'find'"), st) /\
  (forall raw e,
      has_char "{" raw -> has_char "}" raw ->
      json_loads rt (str_slice raw (str_find raw "{") (str_rfind raw "}" + 1)) = inl e ->
      is_JSONDecodeError e = false ->
      decode_response rt (Some raw) st = (inl e, st)).
Proof.
  split; [apply decode_response_none|].
  intros raw e Ho Hc He Hcls.
  now rewrite decode_response_object, He, Hcls.
Qed.

Lemma decode_response_passes_other_errors_witness :
  decode_response Scenario.overflowing_runtime (Some "{[[[[]]]]}") state0 =
    (inl (Exn OtherError "maximum recursion depth exceeded"), state0).
Proof.
  apply (proj2 (decode_response_passes_other_errors Scenario.overflowing_runtime state0)
           "{[[[[]]]]}" (Exn OtherError "maximum recursion depth exceeded"));
    [unfold has_char; simpl; intuition
    |unfold has_char; simpl; intuition
    |reflexivity|reflexivity].
Defined.

(** X8: an OpenAI answer without content makes the handler report the
    [AttributeError] of [None.find] and leave the cache alone. *)
Theorem openai_without_content_reported (rt : Runtime) (w : World) (p : string)
    (st st0 st0' : state) :
  LLMService_init w p st0 = (inr {| provider := "openai" |}, st0') ->
  openai_create w generate_prompt = inr None ->
  generate_weekly_stocks rt w p st =
    (inr (JObj [("error",
                 JStr "An error occurred: 'NoneType' object has no attribute 'find'")]),
     logged st [announcement; CallLLM "openai"]).
Proof.
  intros Hinit Hcall.
  apply (generate_weekly_stocks_decode_error rt w p st _
           (Exn AttributeError "'NoneType' object has no attribute 'find'")).
  rewrite (decode_phase_init_ok rt w p st st0 st0' _ Hinit).
  rewrite (generate_stock_data_openai rt w _ None Hcall).
  rewrite decode_response_none. now rewrite logged_logged.
Qed.

Lemma openai_without_content_reported_witness :
  generate_weekly_stocks Reference.runtime (Scenario.with_openai (inr None)) "openai"
    (Sample.aged (days 1)) =
    (inr (JObj [("error",
                 JStr "An error occurred: 'NoneType' object has no attribute 'find'")]),
     logged (Sample.aged (days 1)) [announcement; CallLLM "openai"]).
Proof.
  apply (openai_without_content_reported Reference.runtime
           (Scenario.with_openai (inr None)) "openai"
           (Sample.aged (days 1)) state0 state0); reflexivity.
Defined.

(** ** Braces in the wrong order *)

Lemma has_char_append_inv c s1 s2 :
  has_char c (s1 +:+ s2) -> has_char c s1 \/ has_char c s2.
Proof.
  unfold has_char. induction s1 as [|a s1 IH]; [now right|].
  rewrite append_cons. simpl. intros [->|H]; [left; now left|].
  destruct (IH H); [left; now right | now right].
Qed.

Lemma has_char_singleton c a : has_char c (String a "") -> a = c.
Proof. unfold has_char; simpl. now intros [H|[]]. Qed.

Lemma substring_empty (n : nat) (s : string) : substring n 0 s = "".
Proof.
  revert s; induction n as [|n IH]; intros [|a s]; simpl; auto.
Qed.

(** X9: when the last '}' of the text comes before its first '{', the
    decoder does not report a missing object: it hands the empty string
    to [json.loads]. *)
Theorem braces_in_wrong_order (rt : Runtime) (a b c : string) (st : state) :
  ~ has_char "{" a -> ~ has_char "{" b -> ~ has_char "}" b -> ~ has_char "}" c ->
  let raw := a +:+ "}" +:+ b +:+ "{" +:+ c in
  decode_response rt (Some raw) st =
    match json_loads rt "" with
    | inr v => (inr v, st)
    | inl e =>
        if is_JSONDecodeError e
        then (inl failed_to_decode, logged st (decode_failure_log (exn_msg e) raw))
        else (inl e, st)
    end.
Proof.
  intros Ha Hb Hb' Hc raw.
  assert (Hfind : str_find raw "{" = Z.of_nat (String.length a + 1 + String.length b)).
  { unfold str_find, raw.
    replace (a +:+ "}" +:+ b +:+ "{" +:+ c)
      with ((a +:+ "}" +:+ b) +:+ String "{" c)
      by (now rewrite !append_assoc).
    rewrite find_from_first.
    - rewrite !length_append. simpl. lia.
    - intros H. apply has_char_append_inv in H as [H|H]; [contradiction|].
      apply has_char_append_inv in H as [H|H]; [|contradiction].
      apply has_char_singleton in H. discriminate. }
  assert (Hrfind : str_rfind raw "}" = Z.of_nat (String.length a)).
  { unfold str_rfind, raw.
    change ("}" +:+ b +:+ "{" +:+ c) with (String "}" (b +:+ "{" +:+ c)).
    rewrite rfind_from_last; [lia|].
    intros H. apply has_char_append_inv in H as [H|H]; [contradiction|].
    apply has_char_append_inv in H as [H|H]; [|contradiction].
    apply has_char_singleton in H. discriminate. }
  rewrite decode_response_object.
  - rewrite Hfind, Hrfind. unfold str_slice.
    set (n := Z.of_nat (String.length raw)).
    assert (Hn : Z.of_nat (String.length a + 1 + String.length b) < n).
    { unfold n, raw. rewrite !length_append. simpl. lia. }
    destruct (Z.ltb_spec (Z.of_nat (String.length a + 1 + String.length b)) 0); [lia|].
    destruct (Z.ltb_spec (Z.of_nat (String.length a) + 1) 0); [lia|].
    rewrite !Z.min_l by lia.
    replace (Z.to_nat (Z.of_nat (String.length a) + 1 -
                       Z.of_nat (String.length a + 1 + String.length b)))
      with 0%nat by lia.
    now rewrite substring_empty.
  - unfold raw. apply has_char_append_r, has_char_append_r, has_char_append_r.
    apply has_char_append_l. now left.
  - unfold raw. apply has_char_append_r, has_char_append_l. now left.
Qed.

Lemma braces_in_wrong_order_witness :
  decode_response Reference.runtime (Some ("done }" +:+ "}" +:+ " and " +:+ "{" +:+ " {more"))
    state0 =
    (inl failed_to_decode,
     logged state0 (decode_failure_log "Expecting value" "done }} and { {more")).
Proof.
  apply (braces_in_wrong_order Reference.runtime "done }" " and " " {more" state0);
    unfold has_char; simpl; intuition discriminate.
Defined.

(** ** Cleaning the Gemini answer *)

Section Replace.

Implicit Types (s old new : string) (a : ascii).

Lemma replace_aux_skip old new s : forall k,
  replace_aux old new s k = replace_aux old new (str_drop k s) 0.
Proof.
  induction s as [|a s IH]; intros [|k]; simpl; try reflexivity.
  apply IH.
Qed.

Lemma str_replace_match old new a s :
  String.prefix old (String a s) = true ->
  str_replace (String a s) old new =
    new +:+ str_replace (str_drop (String.length old - 1) s) old new.
Proof.
  intros H. unfold str_replace.
  change (replace_aux old new (String a s) 0)
    with (if String.prefix old (String a s)
          then new +:+ replace_aux old new s (String.length old - 1)
          else String a (replace_aux old new s 0)).
  rewrite H. now rewrite replace_aux_skip.
Qed.

Lemma str_replace_no_match old new a s :
  String.prefix old (String a s) = false ->
  str_replace (String a s) old new = String a (str_replace s old new).
Proof.
  intros H. unfold str_replace.
  change (replace_aux old new (String a s) 0)
    with (if String.prefix old (String a s)
          then new +:+ replace_aux old new s (String.length old - 1)
          else String a (replace_aux old new s 0)).
  now rewrite H.
Qed.

Lemma prefix_head_absent c old' s :
  ~ has_char c s -> forall s', String.prefix (String c old') (s +:+ s') = true ->
                               s = "".
Proof.
  intros Hnot s' Hp. destruct s as [|a s]; [reflexivity|].
  rewrite append_cons in Hp. simpl in Hp.
  destruct (ascii_dec c a) as [->|Hne]; [|discriminate].
  exfalso. apply Hnot. now left.
Qed.

(** A stretch of text without the first character of [old] is copied as
    it is. *)
Lemma str_replace_append_absent c old' new s s' :
  ~ has_char c s ->
  str_replace (s +:+ s') (String c old') new = s +:+ str_replace s' (String c old') new.
Proof.
  induction s as [|a s IH]; intros Hnot; [reflexivity|].
  rewrite !append_cons. rewrite str_replace_no_match.
  - rewrite IH; [reflexivity|]. intros H. apply Hnot. now right.
  - simpl. destruct (ascii_dec c a) as [->|Hne]; [|reflexivity].
    exfalso. apply Hnot. now left.
Qed.

Lemma str_replace_absent c old' new s :
  ~ has_char c s -> str_replace s (String c old') new = s.
Proof.
  intros Hnot.
  replace s with (s +:+ "") at 1.
  - rewrite str_replace_append_absent by assumption.
    induction s as [|a s IH]; [reflexivity|].
    rewrite append_cons. f_equal. apply IH. intros H. apply Hnot. now right.
  - induction s as [|a s IH]; [reflexivity|].
    rewrite append_cons. f_equal. apply IH. intros H. apply Hnot. now right.
Qed.

End Replace.

Section Fences.

Implicit Types (s pat : string) (a : ascii).

Lemma append_nil_r s : s +:+ "" = s.
Proof. induction s as [|a s IH]; [reflexivity | rewrite append_cons; now f_equal]. Qed.

Lemma prefix_append pat post : String.prefix pat (pat +:+ post) = true.
Proof.
  induction pat as [|a pat IH]; [rewrite append_nil; now destruct post|].
  rewrite append_cons. simpl. now destruct (ascii_dec a a).
Qed.

Lemma occurs_cons pat a s :
  occurs pat (String a s) ->
  String.prefix pat (String a s) = true \/ occurs pat s.
Proof.
  intros ([|a' pre] & post & Heq).
  - left. rewrite append_nil in Heq. rewrite Heq. apply prefix_append.
  - right. rewrite append_cons in Heq. injection Heq as _ ->. now exists pre, post.
Qed.

Lemma occurs_empty_text a pat' : ~ occurs (String a pat') "".
Proof.
  intros ([|a' pre] & post & Heq).
  - rewrite append_nil, append_cons in Heq. discriminate.
  - rewrite append_cons in Heq. discriminate.
Qed.

Lemma length_str_drop k : forall s, (String.length (str_drop k s) <= String.length s)%nat.
Proof.
  induction k as [|k IH]; intros [|a s]; simpl; try lia.
  specialize (IH s). lia.
Qed.

Lemma prefix_empty s : String.prefix "" s = true.
Proof. now destruct s. Qed.

(** After the replacement, a text that did not start with two backticks
    still does not. *)
Lemma prefix_cons a pat b s :
  String.prefix (String a pat) (String b s) =
    if ascii_dec a b then String.prefix pat s else false.
Proof. reflexivity. Qed.

Lemma prefix_of_empty a pat : String.prefix (String a pat) "" = false.
Proof. reflexivity. Qed.

Ltac prefix_cases :=
  repeat first
    [ rewrite prefix_cons
    | rewrite prefix_of_empty
    | rewrite prefix_empty
    | match goal with
      | |- context [ascii_dec ?x ?y] => destruct (ascii_dec x y)
      end ];
  try reflexivity; try congruence.

Lemma no_new_leading_backticks s :
  String.prefix "``" s = false ->
  String.prefix "``" (str_replace s "```" "") = false.
Proof.
  destruct s as [|b [|c r]]; intros H; try reflexivity.
  - rewrite str_replace_no_match by prefix_cases. prefix_cases.
  - rewrite !prefix_cons in H. destruct (ascii_dec "`" b) as [<-|Hb].
    + destruct (ascii_dec "`" c) as [<-|Hc];
        [rewrite prefix_empty in H; discriminate|].
      rewrite str_replace_no_match by prefix_cases.
      rewrite str_replace_no_match by prefix_cases.
      prefix_cases.
    + rewrite str_replace_no_match by prefix_cases. prefix_cases.
Qed.

Lemma no_fence_bounded (n : nat) : forall s,
  (String.length s <= n)%nat -> ~ occurs "```" (str_replace s "```" "").
Proof.
  induction n as [|n IH]; intros [|a r] Hlen; simpl in Hlen;
    try apply occurs_empty_text; [lia|].
  destruct (String.prefix "```" (String a r)) eqn:Hp.
  - rewrite (str_replace_match _ _ _ _ Hp), append_nil.
    apply IH. pose proof (length_str_drop (String.length "```" - 1) r). lia.
  - rewrite (str_replace_no_match _ _ _ _ Hp).
    intros Hocc. apply occurs_cons in Hocc as [Hhead|Htail].
    + destruct r as [|b r].
      * change (str_replace "" "```" "") with "" in Hhead.
        rewrite prefix_cons in Hhead.
        destruct (ascii_dec "`" a); discriminate.
      * rewrite prefix_cons in Hp.
        change "```" with (String "`" "``") in Hhead.
        destruct (str_replace (String b r) "```" "") as [|b' r'] eqn:Hr.
        -- rewrite prefix_cons in Hhead.
           destruct (ascii_dec "`" a); discriminate.
        -- rewrite prefix_cons in Hhead.
           destruct (ascii_dec "`" a) as [<-|Ha]; [|discriminate].
           rewrite <- Hr in Hhead.
           now rewrite no_new_leading_backticks in Hhead.
    + revert Htail. apply IH. lia.
Qed.

Lemma no_fence_after_replace s : ~ occurs "```" (str_replace s "```" "").
Proof. apply (no_fence_bounded (String.length s)). lia. Qed.

End Fences.

(** X10: the text [call_gemini] returns is never [None] and holds no
    markdown fence: whatever the model wrote, no three backticks in a
    row are left in it. *)
Theorem gemini_answer_has_no_fence (rt : Runtime) (w : World) (prompt : string)
    (st st' : state) (r : option string) :
  call_gemini rt w prompt st = (inr r, st') ->
  exists raw, r = Some raw /\ ~ occurs "```" raw.
Proof.
  unfold call_gemini, try_except, bind, emit. simpl.
  destruct (gemini_generate w prompt) as [e|text]; simpl; [discriminate|].
  intros [= <- _]. eexists. split; [reflexivity|].
  apply no_fence_after_replace.
Qed.

Lemma gemini_answer_has_no_fence_witness :
  exists raw,
    Some (cleaned Reference.runtime ("```json" +:+ nl +:+ Sample.answer +:+ nl +:+ "```"))
      = Some raw /\
    ~ occurs "```" raw.
Proof.
  apply (gemini_answer_has_no_fence Reference.runtime Sample.world generate_prompt
           state0
           (snd (call_gemini Reference.runtime Sample.world generate_prompt state0))).
  vm_compute. reflexivity.
Defined.

(** X11: with a Gemini answer that, once stripped, is a body without
    backticks between "```json" and "```", or such a body alone, the
    decoder receives exactly the body. *)
Theorem gemini_fences_removed (rt : Runtime) (w : World) (st : state)
    (text body : string) :
  gemini_generate w generate_prompt = inr text ->
  ~ has_char "`" body ->
  str_strip rt text = "```json" +:+ body +:+ "```" \/ str_strip rt text = body ->
  generate_stock_data rt w {| provider := "gemini" |} st =
    decode_response rt (Some body) (logged st [CallLLM "gemini"]).
Proof.
  intros Hgen Hbody Hshape.
  rewrite (generate_stock_data_gemini rt w st text Hgen).
  do 2 f_equal.
  destruct Hshape as [-> | ->].
  - change ("```json" +:+ body +:+ "```")
      with (String "`" ("``json" +:+ body +:+ "```")).
    rewrite str_replace_match
      by exact (prefix_append "```json" (body +:+ "```")).
    change (str_drop (String.length "```json" - 1) ("``json" +:+ body +:+ "```"))
      with (body +:+ "```").
    rewrite append_nil.
    rewrite (str_replace_append_absent "`" "``json" "" body "```" Hbody).
    change (str_replace "```" "```json" "") with "```".
    rewrite (str_replace_append_absent "`" "``" "" body "```" Hbody).
    change (str_replace "```" "```" "") with "".
    apply append_nil_r.
  - rewrite (str_replace_absent "`" "``json" "" body Hbody).
    apply (str_replace_absent "`" "``" "" body Hbody).
Qed.

Lemma gemini_fences_removed_witness :
  generate_stock_data Reference.runtime Sample.world {| provider := "gemini" |} state0 =
    decode_response Reference.runtime (Some (nl +:+ Sample.answer +:+ nl))
      (logged state0 [CallLLM "gemini"]).
Proof.
  apply (gemini_fences_removed Reference.runtime Sample.world state0
           ("```json" +:+ nl +:+ Sample.answer +:+ nl +:+ "```")
           (nl +:+ Sample.answer +:+ nl)).
  - vm_compute. reflexivity.
  - unfold has_char. vm_compute. intuition discriminate.
  - left. vm_compute. reflexivity.
Defined.

(** ** More on the enrichment *)

Lemma preserves_decode_phase (rt : Runtime) (w : World) (p : string) :
  preserves_cache (decode_phase rt w p).
Proof.
  unfold decode_phase.
  apply preserves_bind; [apply preserves_print|]. intros _.
  apply preserves_bind; [apply preserves_LLMService_init|]. intros svc.
  apply preserves_generate_stock_data.
Qed.

(** X12: when the name lookup of an entry with a ticker answers, the
    entry is stored with ["name"] set to the ["longName"] of the answer,
    or to the ticker when the answer has no ["longName"]; its other keys
    are unchanged. *)
Theorem lookup_success_names_entry (rt : Runtime) (w : World)
    (provider_arg : string) (st st1 : state) (response_data : json)
    (stocks : list json) :
  decode_phase rt w provider_arg st = (inr response_data, st1) ->
  py_get response_data "stocks" (JArr []) = inr (JArr stocks) ->
  Forall is_dict stocks ->
  exists items tr,
    generate_weekly_stocks rt w provider_arg st =
      (inr (generated_response (length items)),
       State (Cache (Some (now w)) items) tr) /\
    (forall k d ticker_info long_name,
        stocks !! k = Some (JObj d) ->
        truthy (ticker_of (JObj d)) = true ->
        yf_info w k (ticker_of (JObj d)) = inr ticker_info ->
        dict_get ticker_info "longName" = Some long_name ->
        exists item, In item items /\ named_copy d long_name item) /\
    (forall k d ticker_info,
        stocks !! k = Some (JObj d) ->
        truthy (ticker_of (JObj d)) = true ->
        yf_info w k (ticker_of (JObj d)) = inr ticker_info ->
        dict_get ticker_info "longName" = None ->
        exists item, In item items /\ named_copy d (ticker_of (JObj d)) item).
Proof.
  intros Hdec Hget Hall.
  destruct (generate_weekly_stocks_dicts rt w provider_arg st st1 response_data
              stocks Hdec Hget Hall) as (tr & Hrun).
  exists (enriched_of w 0 stocks), tr.
  split; [exact Hrun|]. split.
  - intros k d ticker_info long_name Hk Ht Hinfo Hlong.
    pose proof (enriched_of_lookup w stocks 0 k d Hk Ht) as Hin.
    unfold name_for, dict_get_default in Hin; simpl in Hin, Hinfo.
    rewrite Hinfo, Hlong in Hin.
    eexists; split; [exact Hin | apply named_copy_dict_set].
  - intros k d ticker_info Hk Ht Hinfo Hlong.
    pose proof (enriched_of_lookup w stocks 0 k d Hk Ht) as Hin.
    unfold name_for, dict_get_default in Hin; simpl in Hin, Hinfo.
    rewrite Hinfo, Hlong in Hin.
    eexists; split; [exact Hin | apply named_copy_dict_set].
Qed.

Lemma lookup_success_names_entry_witness :
  exists items tr,
    generate_weekly_stocks Reference.runtime Sample.world "openai" state0 =
      (inr (generated_response (length items)),
       State (Cache (Some (now Sample.world)) items) tr) /\
    (forall k d ticker_info long_name,
        Sample.stocks !! k = Some (JObj d) ->
        truthy (ticker_of (JObj d)) = true ->
        yf_info Sample.world k (ticker_of (JObj d)) = inr ticker_info ->
        dict_get ticker_info "longName" = Some long_name ->
        exists item, In item items /\ named_copy d long_name item) /\
    (forall k d ticker_info,
        Sample.stocks !! k = Some (JObj d) ->
        truthy (ticker_of (JObj d)) = true ->
        yf_info Sample.world k (ticker_of (JObj d)) = inr ticker_info ->
        dict_get ticker_info "longName" = None ->
        exists item, In item items /\ named_copy d (ticker_of (JObj d)) item).
Proof.
  apply (lookup_success_names_entry Reference.runtime Sample.world "openai" state0
           _ Sample.response Sample.stocks sample_decode_phase).
  - reflexivity.
  - repeat constructor.
Defined.

(** The AAPL entry of the sample is stored under the long name the
    lookup gave. *)
Example sample_long_name :
  yf_info Sample.world 0 (JStr "AAPL") = inr [("longName", JStr "Apple Inc.")] /\
  In Sample.aapl_item
     (data (weekly_stock_data
              (snd (generate_weekly_stocks Reference.runtime Sample.world "openai"
                      state0)))).
Proof. split; [reflexivity | vm_compute; auto]. Qed.

(** X13: a decoded response whose ["stocks"] has nothing to iterate over
    (the key is missing, or its value is an empty list, string or dict)
    is a successful generation of zero items: the cache is replaced by
    an empty list, and from then on the daily handler answers with the
    staleness error, in every world. *)
Theorem empty_generation_leaves_service_stale (rt : Runtime) (w w' : World)
    (provider_arg : string) (st st1 : state) (d : dict) :
  decode_phase rt w provider_arg st = (inr (JObj d), st1) ->
  py_iter (dict_get_default d "stocks" (JArr [])) = inr [] ->
  exists st2,
    generate_weekly_stocks rt w provider_arg st = (inr (generated_response 0), st2) /\
    weekly_stock_data st2 = Cache (Some (now w)) [] /\
    get_daily_stock_data rt w' st2 = (inr staleness_error, st2).
Proof.
  intros Hdec Hiter.
  rewrite (generate_weekly_stocks_after_decoding rt w provider_arg st st1 _ Hdec).
  unfold store_enriched. simpl py_get. unfold bind at 1. simpl.
  unfold bind at 1. rewrite Hiter. simpl.
  eexists. split; [reflexivity|]. split; [reflexivity|].
  now apply get_daily_stale.
Qed.

Lemma empty_generation_leaves_service_stale_witness :
  exists st2,
    generate_weekly_stocks Reference.runtime
      (Scenario.with_openai (inr (Some "{}"))) "openai" (Sample.aged (days 1))
      = (inr (generated_response 0), st2) /\
    weekly_stock_data st2 = Cache (Some (now Sample.world)) [] /\
    get_daily_stock_data Reference.runtime Sample.world st2 = (inr staleness_error, st2).
Proof.
  apply (empty_generation_leaves_service_stale Reference.runtime
           (Scenario.with_openai (inr (Some "{}"))) Sample.world "openai"
           (Sample.aged (days 1))
           (snd (decode_phase Reference.runtime (Scenario.with_openai (inr (Some "{}")))
                   "openai" (Sample.aged (days 1))))
           []).
  - vm_compute. reflexivity.
  - reflexivity.
Defined.

Lemma enrich_loop_malformed (rt : Runtime) (w : World) (bad : json)
    (rest : list json) (good : list json) : forall i acc st,
  Forall is_dict good -> ~ is_dict bad ->
  exists st',
    enrich_loop rt w i (good ++ bad :: rest) acc st =
      (inl (Exn AttributeError
              ("'" +:+ type_name bad +:+ "' object has no attribute 'get'")), st') /\
    weekly_stock_data st' = weekly_stock_data st.
Proof.
  induction good as [|stock good IH]; intros i acc st Hall Hbad; simpl.
  - exists st. split; [|reflexivity].
    unfold bind, enrich_stock.
    destruct bad as [|b|z|f|s|l|d]; try reflexivity.
    now destruct Hbad.
  - inversion Hall as [|? ? Hd Hrest]; subst.
    destruct stock as [|b|z|f|s|l|d]; try now destruct Hd.
    destruct (enrich_stock_dict rt w i d acc st) as (st1 & Hrun & Hc1).
    unfold bind at 1. rewrite Hrun.
    destruct (IH (S i) (acc ++ enrich_of w i (JObj d)) st1 Hrest Hbad)
      as (st2 & Hloop & Hc2).
    exists st2. split; [exact Hloop | congruence].
Qed.

(** X14: one malformed entry aborts the whole batch.  When the decoded
    list holds an entry that is not a dict, the handler answers with the
    error of [stock.get] on that entry and the cache is unchanged, even
    though the entries before it were processed; a ["stocks"] value that
    cannot be iterated over is reported in the same way. *)
Theorem malformed_entry_aborts_batch (rt : Runtime) (w : World)
    (provider_arg : string) (st st1 : state) (response_data : json) :
  decode_phase rt w provider_arg st = (inr response_data, st1) ->
  (forall good bad rest,
      py_get response_data "stocks" (JArr []) = inr (JArr (good ++ bad :: rest)) ->
      Forall is_dict good -> ~ is_dict bad ->
      exists st2,
        generate_weekly_stocks rt w provider_arg st =
          (inr (error_response
                  (Exn AttributeError
                     ("'" +:+ type_name bad +:+ "' object has no attribute 'get'"))),
           st2) /\
        weekly_stock_data st2 = weekly_stock_data st) /\
  (forall v e,
      py_get response_data "stocks" (JArr []) = inr v ->
      py_iter v = inl e ->
      generate_weekly_stocks rt w provider_arg st = (inr (error_response e), st1) /\
      weekly_stock_data st1 = weekly_stock_data st).
Proof.
  intros Hdec.
  pose proof (preserves_decode_phase rt w provider_arg st) as Hpres.
  rewrite Hdec in Hpres. simpl in Hpres.
  rewrite (generate_weekly_stocks_after_decoding rt w provider_arg st st1 _ Hdec).
  split.
  - intros good bad rest Hget Hall Hbad.
    unfold store_enriched. rewrite Hget. unfold bind at 1. simpl.
    unfold bind at 1. simpl.
    destruct (enrich_loop_malformed rt w bad rest good 0 [] st1 Hall Hbad)
      as (st2 & Hloop & Hc).
    unfold bind at 1. rewrite Hloop.
    exists st2. split; [reflexivity | congruence].
  - intros v e Hget Hiter.
    unfold store_enriched. rewrite Hget. unfold bind at 1. simpl.
    unfold bind at 1. rewrite Hiter. simpl. auto.
Qed.

Lemma malformed_entry_aborts_batch_witness :
  (exists st2,
      generate_weekly_stocks Reference.runtime
        (Scenario.with_openai (inr (Some Scenario.bare_tickers))) "openai"
        (Sample.aged (days 1)) =
        (inr (JObj [("error",
                     JStr "An error occurred: 'str' object has no attribute 'get'")]),
         st2) /\
      weekly_stock_data st2 = weekly_stock_data (Sample.aged (days 1))) /\
  fst (generate_weekly_stocks Reference.runtime
         (Scenario.with_openai (inr (Some Scenario.stocks_count))) "openai"
         (Sample.aged (days 1))) =
    inr (JObj [("error", JStr "An error occurred: 'int' object is not iterable")]).
Proof.
  split.
  - apply (proj1 (malformed_entry_aborts_batch Reference.runtime
                    (Scenario.with_openai (inr (Some Scenario.bare_tickers))) "openai"
                    (Sample.aged (days 1))
                    (snd (decode_phase Reference.runtime
                            (Scenario.with_openai (inr (Some Scenario.bare_tickers)))
                            "openai" (Sample.aged (days 1))))
                    (JObj [("stocks", JArr [JObj Sample.zzz; JStr "AAPL"; JStr "MSFT"])])
                    ltac:(vm_compute; reflexivity))
             [JObj Sample.zzz] (JStr "AAPL") [JStr "MSFT"]).
    + reflexivity.
    + repeat constructor.
    + intros H; exact H.
  - pose proof (proj2 (malformed_entry_aborts_batch Reference.runtime
                    (Scenario.with_openai (inr (Some Scenario.stocks_count))) "openai"
                    (Sample.aged (days 1))
                    (snd (decode_phase Reference.runtime
                            (Scenario.with_openai (inr (Some Scenario.stocks_count)))
                            "openai" (Sample.aged (days 1))))
                    (JObj [("stocks", JInt 50)])
                    ltac:(vm_compute; reflexivity))
             (JInt 50) (Exn TypeError "'int' object is not iterable")
             eq_refl eq_refl) as (Hrun & _).
    now rewrite Hrun.
Defined.

(** ** Computations that ignore the state *)

Section Oblivious.

Lemma logged_nil st : logged st [] = st.
Proof. destruct st as [c tr]. unfold logged; simpl. now rewrite app_nil_r. Qed.

Lemma runs_as_ret {A} (a : A) : runs_as (ret a) (inr a) [].
Proof. intros st. now rewrite logged_nil. Qed.

Lemma runs_as_raise {A} (e : exn) : runs_as (@raise A e) (inl e) [].
Proof. intros st. now rewrite logged_nil. Qed.

Lemma runs_as_lift {A} (r : exn + A) : runs_as (lift r) r [].
Proof. destruct r; [apply runs_as_raise | apply runs_as_ret]. Qed.

Lemma runs_as_emit ev : runs_as (emit ev) (inr tt) [ev].
Proof. now intros st. Qed.

Lemma runs_as_bind_ok {A B} (m : M A) (k : A -> M B) a r evs1 evs2 :
  runs_as m (inr a) evs1 -> runs_as (k a) r evs2 ->
  runs_as (bind m k) r (evs1 ++ evs2).
Proof.
  intros Hm Hk st. unfold bind. now rewrite Hm, Hk, logged_logged.
Qed.

Lemma runs_as_bind_error {A B} (m : M A) (k : A -> M B) e evs :
  runs_as m (inl e) evs -> runs_as (bind m k) (inl e) evs.
Proof. intros Hm st. unfold bind. now rewrite Hm. Qed.

Lemma runs_as_try_ok {A} (m : M A) catches (h : exn -> M A) a evs :
  runs_as m (inr a) evs -> runs_as (try_except m catches h) (inr a) evs.
Proof. intros Hm st. unfold try_except. now rewrite Hm. Qed.

Lemma runs_as_try_caught {A} (m : M A) catches (h : exn -> M A) e r evs1 evs2 :
  runs_as m (inl e) evs1 -> catches e = true -> runs_as (h e) r evs2 ->
  runs_as (try_except m catches h) r (evs1 ++ evs2).
Proof.
  intros Hm Hc Hh st. unfold try_except. now rewrite Hm, Hc, Hh, logged_logged.
Qed.

Lemma runs_as_try_passed {A} (m : M A) catches (h : exn -> M A) e evs :
  runs_as m (inl e) evs -> catches e = false ->
  runs_as (try_except m catches h) (inl e) evs.
Proof. intros Hm Hc st. unfold try_except. now rewrite Hm, Hc. Qed.

Variable P : event -> Prop.

Lemma oblivious_ret {A} (a : A) : oblivious P (ret a).
Proof. exists (inr a), []. split; [apply runs_as_ret | constructor]. Qed.

Lemma oblivious_raise {A} (e : exn) : oblivious P (@raise A e).
Proof. exists (inl e), []. split; [apply runs_as_raise | constructor]. Qed.

Lemma oblivious_lift {A} (r : exn + A) : oblivious P (lift r).
Proof. exists r, []. split; [apply runs_as_lift | constructor]. Qed.

Lemma oblivious_emit ev : P ev -> oblivious P (emit ev).
Proof.
  intros Hev. exists (inr tt), [ev]. split; [apply runs_as_emit | now constructor].
Qed.

Lemma oblivious_bind {A B} (m : M A) (k : A -> M B) :
  oblivious P m -> (forall a, oblivious P (k a)) -> oblivious P (bind m k).
Proof.
  intros ([e|a] & evs1 & Hm & H1) Hk.
  - exists (inl e), evs1. split; [now apply runs_as_bind_error | assumption].
  - destruct (Hk a) as (r & evs2 & Hka & H2).
    exists r, (evs1 ++ evs2).
    split; [now apply (runs_as_bind_ok m k a) | now apply Forall_app].
Qed.

Lemma oblivious_try_except {A} (m : M A) catches (h : exn -> M A) :
  oblivious P m -> (forall e, oblivious P (h e)) ->
  oblivious P (try_except m catches h).
Proof.
  intros ([e|a] & evs1 & Hm & H1) Hh.
  - destruct (catches e) eqn:Hc.
    + destruct (Hh e) as (r & evs2 & Hhe & H2).
      exists r, (evs1 ++ evs2).
      split; [now apply (runs_as_try_caught m catches h e) | now apply Forall_app].
    + exists (inl e), evs1. split; [now apply runs_as_try_passed | assumption].
  - exists (inr a), evs1. split; [now apply runs_as_try_ok | assumption].
Qed.

End Oblivious.

Lemma oblivious_weaken {A} (P Q : event -> Prop) (m : M A) :
  (forall ev, P ev -> Q ev) -> oblivious P m -> oblivious Q m.
Proof.
  intros HPQ (r & evs & Hm & Hall). exists r, evs. split; [assumption|].
  eapply Forall_impl; eauto.
Qed.

Ltac oblivious_steps :=
  repeat first
    [ apply oblivious_ret | apply oblivious_raise | apply oblivious_lift
    | apply oblivious_emit; exact I
    | apply oblivious_bind; [|intros ?]
    | apply oblivious_try_except; [|intros ?] ].

Lemma calls_app (evs1 evs2 : list event) :
  llm_calls (evs1 ++ evs2) = llm_calls evs1 ++ llm_calls evs2 /\
  info_calls (evs1 ++ evs2) = info_calls evs1 ++ info_calls evs2 /\
  history_calls (evs1 ++ evs2) = history_calls evs1 ++ history_calls evs2.
Proof.
  induction evs1 as [|[s|p|t|t] evs1 (IH1 & IH2 & IH3)]; simpl;
    rewrite ?IH1, ?IH2, ?IH3; auto.
Qed.

Lemma calls_of_prints (evs : list event) :
  Forall is_print evs ->
  llm_calls evs = [] /\ info_calls evs = [] /\ history_calls evs = [].
Proof.
  induction 1 as [|[s|p|t|t] evs Hev _ IH]; simpl; auto; now destruct Hev.
Qed.

Lemma calls_of_print_or_info (evs : list event) :
  Forall print_or_info evs -> llm_calls evs = [] /\ history_calls evs = [].
Proof.
  induction 1 as [|[s|p|t|t] evs Hev _ IH]; simpl; auto; now destruct Hev.
Qed.

Lemma calls_of_print_or_history (evs : list event) :
  Forall print_or_history evs -> llm_calls evs = [] /\ info_calls evs = [].
Proof.
  induction 1 as [|[s|p|t|t] evs Hev _ IH]; simpl; auto; now destruct Hev.
Qed.

(** ** The calls a generation makes *)

Section GenerationCalls.

Variables (rt : Runtime) (w : World).

Lemma oblivious_decode_response raw : oblivious is_print (decode_response rt raw).
Proof.
  unfold decode_response, print.
  apply oblivious_try_except; [|intros e; oblivious_steps].
  destruct raw as [raw|]; [|oblivious_steps].
  destruct (_ || _); oblivious_steps.
Qed.

Lemma LLMService_init_provider p st st' svc :
  LLMService_init w p st = (inr svc, st') ->
  provider svc = "openai" \/ provider svc = "gemini".
Proof.
  unfold LLMService_init.
  destruct (String.eqb_spec (str_lower p) "openai") as [Ho|Ho]; simpl.
  - unfold bind.
    destruct (lift (openai_client w _) st) as [[e|[[|a k]|]] st1];
      try discriminate.
    intros [= <- _]. simpl. auto.
  - destruct (String.eqb_spec (str_lower p) "gemini") as [Hg|Hg]; simpl;
      [|discriminate].
    destruct (getenv w "GEMINI_API_KEY") as [[|a k]|]; try discriminate.
    unfold bind.
    destruct (lift (gemini_configure w _) st) as [[e|[]] st1]; [discriminate|].
    intros [= <- _]. simpl. auto.
Qed.

(** A service of a supported provider calls the LLM once, first, and
    prints at most afterwards. *)
Lemma generate_stock_data_events svc :
  provider svc = "openai" \/ provider svc = "gemini" ->
  exists r prints,
    runs_as (generate_stock_data rt w svc) r (CallLLM (provider svc) :: prints) /\
    Forall is_print prints.
Proof.
  intros Hp. unfold generate_stock_data.
  assert (Hcall : exists r,
    runs_as (if String.eqb (provider svc) "openai" then call_openai w generate_prompt
             else if String.eqb (provider svc) "gemini"
                  then call_gemini rt w generate_prompt
                  else ret (Some ""))
            r [CallLLM (provider svc)]).
  { destruct Hp as [-> | ->]; simpl.
    - unfold call_openai.
      destruct (openai_create w generate_prompt) as [e|content] eqn:Hc.
      + destruct (is_APIError e) eqn:Hcls.
        * eexists.
          apply (runs_as_try_caught _ _ _ e _ [CallLLM "openai"] []);
            [|exact Hcls | apply runs_as_raise].
          apply (runs_as_bind_ok _ _ tt _ [CallLLM "openai"] []);
            [apply runs_as_emit | apply runs_as_raise].
        * eexists.
          apply (runs_as_try_passed _ _ _ e [CallLLM "openai"]); [|exact Hcls].
          apply (runs_as_bind_ok _ _ tt _ [CallLLM "openai"] []);
            [apply runs_as_emit | apply runs_as_raise].
      + eexists. apply runs_as_try_ok.
        apply (runs_as_bind_ok _ _ tt _ [CallLLM "openai"] []);
          [apply runs_as_emit | apply runs_as_ret].
    - unfold call_gemini.
      destruct (gemini_generate w generate_prompt) as [e|text] eqn:Hc.
      + eexists.
        apply (runs_as_try_caught _ _ _ e _ [CallLLM "gemini"] []);
          [|reflexivity | apply runs_as_raise].
        apply (runs_as_bind_ok _ _ tt _ [CallLLM "gemini"] []);
          [apply runs_as_emit|].
        apply (runs_as_bind_error _ _ e []). apply runs_as_raise.
      + eexists. apply runs_as_try_ok.
        apply (runs_as_bind_ok _ _ tt _ [CallLLM "gemini"] []);
          [apply runs_as_emit|].
        apply (runs_as_bind_ok _ _ text _ [] []); [apply runs_as_ret|].
        apply runs_as_ret. }
  destruct Hcall as ([e|raw] & Hcall).
  - exists (inl e), []. split; [|constructor].
    now apply runs_as_bind_error.
  - destruct (oblivious_decode_response raw) as (r & prints & Hdec & Hprints).
    exists r, prints. split; [|assumption].
    now apply (runs_as_bind_ok _ _ raw _ [CallLLM (provider svc)] prints).
Qed.

Lemma oblivious_enrich_stock i stock acc :
  oblivious print_or_info (enrich_stock rt w i stock acc).
Proof.
  unfold enrich_stock, print.
  apply oblivious_bind; [oblivious_steps|]. intros t.
  destruct (negb (truthy t)); oblivious_steps.
Qed.

Lemma oblivious_enrich_loop stocks : forall i acc,
  oblivious print_or_info (enrich_loop rt w i stocks acc).
Proof.
  induction stocks as [|stock rest IH]; intros i acc; simpl; [oblivious_steps|].
  apply oblivious_bind; [apply oblivious_enrich_stock | intros acc'; apply IH].
Qed.

(** The second half of the handler, whatever the state: either it raises
    after some prints and lookups, or it stores a list and reports its
    length. *)
Lemma store_enriched_shape response_data :
  exists evs,
    Forall print_or_info evs /\
    ((exists e, forall st,
         store_enriched rt w response_data st = (inl e, logged st evs)) \/
     (exists items, forall st,
         store_enriched rt w response_data st =
           (inr (generated_response (length items)),
            State (Cache (Some (now w)) items) (trace st ++ evs)))).
Proof.
  unfold store_enriched.
  destruct (py_get response_data "stocks" (JArr [])) as [e|stock_list].
  { exists []. split; [constructor|]. left. exists e. intros st.
    unfold bind; simpl. now rewrite logged_nil. }
  destruct (py_iter stock_list) as [e|items] eqn:Hiter.
  { exists []. split; [constructor|]. left. exists e. intros st.
    unfold bind; simpl. rewrite Hiter; simpl. now rewrite logged_nil. }
  destruct (oblivious_enrich_loop items 0 []) as ([e|enriched] & evs & Hloop & Hevs).
  - exists evs. split; [assumption|]. left. exists e. intros st.
    unfold bind; simpl. rewrite Hiter; simpl. now rewrite Hloop.
  - exists (evs ++ [Print "Weekly data generation complete."]).
    split; [apply Forall_app; split; [assumption | repeat constructor]|].
    right. exists enriched. intros st.
    unfold bind; simpl. rewrite Hiter; simpl. rewrite Hloop. simpl.
    now rewrite app_assoc.
Qed.

(** The whole handler, whatever the state: the announcement, then the
    events of the LLM call (none when the configuration is refused, one
    call and prints otherwise), then prints and name lookups; the answer
    and the list stored do not depend on the state. *)
Lemma generate_weekly_stocks_shape p :
  exists resp evs_llm evs_rest (stored : option (list json)),
    (forall st,
        generate_weekly_stocks rt w p st =
          (inr resp,
           State (match stored with
                  | Some items => Cache (Some (now w)) items
                  | None => weekly_stock_data st
                  end)
                 (trace st ++ announcement :: evs_llm ++ evs_rest))) /\
    Forall print_or_info evs_rest /\
    (forall svc st0 st0',
        LLMService_init w p st0 = (inr svc, st0') ->
        exists prints, evs_llm = CallLLM (provider svc) :: prints /\
                       Forall is_print prints) /\
    (forall e st0 st0', LLMService_init w p st0 = (inl e, st0') -> evs_llm = []) /\
    match stored with
    | Some items => resp = generated_response (length items)
    | None => exists e, resp = error_response e
    end.
Proof.
  destruct (LLMService_init_pure w p) as ([e|svc] & Hinit).
  - exists (error_response e), [], [], None.
    split; [|split; [constructor|split; [|split; [reflexivity | eauto]]]].
    + intros st.
      rewrite (generate_weekly_stocks_decode_error rt w p st (logged st [announcement]) e);
        [reflexivity|].
      apply (decode_phase_init_error rt w p st state0 state0). apply Hinit.
    + intros svc st0 st0'. rewrite Hinit. discriminate.
  - assert (Hp : provider svc = "openai" \/ provider svc = "gemini")
      by (apply (LLMService_init_provider p state0 state0); apply Hinit).
    destruct (generate_stock_data_events svc Hp) as (r & prints & Hgen & Hprints).
    assert (Hllm : forall svc' st0 st0',
               LLMService_init w p st0 = (inr svc', st0') ->
               exists prints', CallLLM (provider svc) :: prints
                               = CallLLM (provider svc') :: prints' /\
                               Forall is_print prints').
    { intros svc' st0 st0'. rewrite Hinit. intros [= <- _]. eauto. }
    assert (Hnone : forall e st0 st0',
               LLMService_init w p st0 = (inl e, st0') ->
               CallLLM (provider svc) :: prints = []).
    { intros e st0 st0'. rewrite Hinit. discriminate. }
    assert (Hdec : forall st,
               decode_phase rt w p st =
                 (r, logged st (announcement :: CallLLM (provider svc) :: prints))).
    { intros st.
      rewrite (decode_phase_init_ok rt w p st state0 state0 svc (Hinit state0)).
      now rewrite Hgen, logged_logged. }
    destruct r as [e|response_data].
    + exists (error_response e), (CallLLM (provider svc) :: prints), [], None.
      split; [|split; [constructor|split; [exact Hllm|split; [exact Hnone | eauto]]]].
      intros st.
      rewrite (generate_weekly_stocks_decode_error rt w p st _ e (Hdec st)).
      unfold logged. now rewrite app_nil_r.
    + destruct (store_enriched_shape response_data)
        as (evs & Hevs & [(e & Hstore)|(items & Hstore)]).
      * exists (error_response e), (CallLLM (provider svc) :: prints), evs, None.
        split; [|split; [exact Hevs|split; [exact Hllm|split; [exact Hnone | eauto]]]].
        intros st.
        rewrite (generate_weekly_stocks_after_decoding rt w p st _ _ (Hdec st)).
        rewrite Hstore, logged_logged. reflexivity.
      * exists (generated_response (length items)),
          (CallLLM (provider svc) :: prints), evs, (Some items).
        split; [|split; [exact Hevs|split; [exact Hllm|split; [exact Hnone|reflexivity]]]].
        intros st.
        rewrite (generate_weekly_stocks_after_decoding rt w p st _ _ (Hdec st)).
        rewrite Hstore. unfold logged. simpl.
        now rewrite <- ?app_assoc.
Qed.

End GenerationCalls.

(** X15: a generation whose configuration is accepted calls the LLM
    exactly once, through the selected provider, whatever happens
    afterwards, and never fetches a price. *)
Theorem one_llm_call_per_generation (rt : Runtime) (w : World) (p : string)
    (st st0 st0' : state) (svc : LLMService) :
  LLMService_init w p st0 = (inr svc, st0') ->
  exists resp st' evs,
    generate_weekly_stocks rt w p st = (inr resp, st') /\
    trace st' = trace st ++ evs /\
    llm_calls evs = [provider svc] /\
    history_calls evs = [].
Proof.
  intros Hinit.
  destruct (generate_weekly_stocks_shape rt w p)
    as (resp & evs_llm & evs_rest & stored & Hrun & Hrest & Hllm & _ & _).
  destruct (Hllm svc st0 st0' Hinit) as (prints & -> & Hprints).
  destruct (calls_of_prints prints Hprints) as (Hl1 & _ & Hh1).
  destruct (calls_of_print_or_info evs_rest Hrest) as (Hl2 & Hh2).
  eexists resp, _, _. split; [apply Hrun|]. split; [reflexivity|].
  destruct (calls_app (CallLLM (provider svc) :: prints) evs_rest) as (Ha & _ & Hc).
  change (announcement :: (CallLLM (provider svc) :: prints) ++ evs_rest)
    with ([announcement] ++ (CallLLM (provider svc) :: prints) ++ evs_rest).
  destruct (calls_app [announcement] ((CallLLM (provider svc) :: prints) ++ evs_rest))
    as (-> & _ & ->).
  rewrite Ha, Hc. simpl. now rewrite Hl1, Hl2, Hh1, Hh2.
Qed.

Lemma one_llm_call_per_generation_witness :
  exists resp st' evs,
    generate_weekly_stocks Reference.runtime Sample.world "Gemini" state0
      = (inr resp, st') /\
    trace st' = trace state0 ++ evs /\
    llm_calls evs = ["gemini"] /\
    history_calls evs = [].
Proof.
  apply (one_llm_call_per_generation Reference.runtime Sample.world "Gemini"
           state0 state0 state0 {| provider := "gemini" |}).
  reflexivity.
Defined.

(** X16: the answer of a generation, and the list it stores when it
    succeeds, do not depend on the state it starts from: nothing of the
    previous cache is read or merged, the last successful generation
    wins. *)
Theorem generation_ignores_previous_state (rt : Runtime) (w : World) (p : string)
    (st1 st2 : state) :
  fst (generate_weekly_stocks rt w p st1) = fst (generate_weekly_stocks rt w p st2) /\
  (forall n,
      fst (generate_weekly_stocks rt w p st1) = inr (generated_response n) ->
      weekly_stock_data (snd (generate_weekly_stocks rt w p st1)) =
      weekly_stock_data (snd (generate_weekly_stocks rt w p st2))).
Proof.
  destruct (generate_weekly_stocks_shape rt w p)
    as (resp & evs_llm & evs_rest & stored & Hrun & _ & _ & _ & Hresp).
  rewrite (Hrun st1), (Hrun st2). simpl. split; [reflexivity|].
  intros n Hn. destruct stored as [items|]; [reflexivity|].
  destruct Hresp as (e & ->). discriminate.
Qed.

Lemma generation_ignores_previous_state_witness :
  weekly_stock_data
    (snd (generate_weekly_stocks Reference.runtime Sample.world "openai" state0)) =
  weekly_stock_data
    (snd (generate_weekly_stocks Reference.runtime Sample.world "openai"
            (Sample.aged (days 30)))).
Proof.
  apply (proj2 (generation_ignores_previous_state Reference.runtime Sample.world
                  "openai" state0 (Sample.aged (days 30))) 3%nat).
  vm_compute. reflexivity.
Defined.

Section LookupCalls.

Variables (rt : Runtime) (w : World).

Lemma enrich_stock_dict_calls i d acc :
  exists evs,
    runs_as (enrich_stock rt w i (JObj d) acc)
            (inr (acc ++ enrich_of w i (JObj d))) evs /\
    info_calls evs = List.filter truthy [ticker_of (JObj d)].
Proof.
  unfold enrich_stock, enrich_of, name_for, runs_as; simpl.
  destruct (truthy (dict_get_default d "ticker" JNull)) eqn:Ht; simpl.
  - destruct (yf_info w i (dict_get_default d "ticker" JNull)) as [e|info] eqn:Hinfo.
    + exists [Print ("Enriching data for " +:+
                     py_str rt (dict_get_default d "ticker" JNull) +:+ "...");
              CallInfo (dict_get_default d "ticker" JNull);
              Print ("Could not fetch info for " +:+
                     py_str rt (dict_get_default d "ticker" JNull) +:+ ": "
                     +:+ exn_msg e)].
      split; [|reflexivity].
      intros st. unfold bind, try_except, print, emit, lift; simpl.
      rewrite Ht, Hinfo. simpl. unfold logged, ret. simpl. now rewrite <- !app_assoc.
    + exists [Print ("Enriching data for " +:+
                     py_str rt (dict_get_default d "ticker" JNull) +:+ "...");
              CallInfo (dict_get_default d "ticker" JNull)].
      split; [|reflexivity].
      intros st. unfold bind, try_except, print, emit, lift; simpl.
      rewrite Ht, Hinfo. simpl. unfold logged, ret. simpl. now rewrite <- !app_assoc.
  - exists []. split; [|reflexivity].
    intros st. unfold bind; simpl. rewrite Ht. simpl.
    now rewrite app_nil_r, logged_nil.
Qed.

Lemma enrich_loop_dicts_calls stocks : forall i acc,
  Forall is_dict stocks ->
  exists evs,
    runs_as (enrich_loop rt w i stocks acc) (inr (acc ++ enriched_of w i stocks)) evs /\
    info_calls evs = List.filter truthy (map ticker_of stocks).
Proof.
  induction stocks as [|stock rest IH]; intros i acc Hall; simpl.
  - exists []. split; [|reflexivity]. rewrite app_nil_r. apply runs_as_ret.
  - inversion Hall as [|? ? Hd Hrest]; subst.
    destruct stock as [|b|z|f|s|l|d]; try now destruct Hd.
    destruct (enrich_stock_dict_calls i d acc) as (evs1 & Hstep & Hc1).
    destruct (IH (S i) (acc ++ enrich_of w i (JObj d)) Hrest) as (evs2 & Hloop & Hc2).
    exists (evs1 ++ evs2). split.
    + rewrite app_assoc.
      now apply (runs_as_bind_ok _ _ (acc ++ enrich_of w i (JObj d))).
    + destruct (calls_app evs1 evs2) as (_ & -> & _). rewrite Hc1, Hc2.
      simpl. now destruct (truthy (dict_get_default d "ticker" JNull)).
Qed.

End LookupCalls.

(** X17: the name lookup is made once for each decoded entry with a
    ticker, in the order of the list, duplicates included, and for no
    other entry. *)
Theorem name_lookups_once_per_ticker (rt : Runtime) (w : World)
    (provider_arg : string) (st st1 : state) (response_data : json)
    (stocks : list json) :
  decode_phase rt w provider_arg st = (inr response_data, st1) ->
  py_get response_data "stocks" (JArr []) = inr (JArr stocks) ->
  Forall is_dict stocks ->
  exists resp st2 evs,
    generate_weekly_stocks rt w provider_arg st = (inr resp, st2) /\
    trace st2 = trace st1 ++ evs /\
    info_calls evs = List.filter truthy (map ticker_of stocks).
Proof.
  intros Hdec Hget Hall.
  rewrite (generate_weekly_stocks_after_decoding rt w provider_arg st st1 _ Hdec).
  destruct (enrich_loop_dicts_calls rt w stocks 0 [] Hall) as (evs & Hloop & Hcalls).
  unfold store_enriched. rewrite Hget. unfold bind at 1. simpl.
  unfold bind at 1. simpl. unfold bind at 1. rewrite Hloop. simpl.
  eexists _, _, (evs ++ [Print "Weekly data generation complete."]).
  split; [reflexivity|]. split; [now rewrite app_assoc|].
  destruct (calls_app evs [Print "Weekly data generation complete."]) as (_ & -> & _).
  simpl. now rewrite app_nil_r.
Qed.

Lemma name_lookups_once_per_ticker_witness :
  exists resp st2 evs,
    generate_weekly_stocks Reference.runtime Sample.world "openai" state0
      = (inr resp, st2) /\
    trace st2 =
      trace (snd (decode_phase Reference.runtime Sample.world "openai" state0)) ++ evs /\
    info_calls evs = List.filter truthy (map ticker_of Sample.stocks).
Proof.
  apply (name_lookups_once_per_ticker Reference.runtime Sample.world "openai" state0
           _ Sample.response Sample.stocks sample_decode_phase).
  - reflexivity.
  - repeat constructor.
Defined.

(** ** The calls and the effects of the daily handler *)

Section DailyCalls.

Variables (rt : Runtime) (w : World).

Lemma oblivious_merge_stock i stock acc :
  oblivious print_or_history (merge_stock rt w i stock acc).
Proof.
  unfold merge_stock, print.
  apply oblivious_bind; [oblivious_steps|]. intros t.
  destruct (negb (truthy t)); [oblivious_steps|].
  apply oblivious_try_except; [|intros e; oblivious_steps].
  apply oblivious_bind; [oblivious_steps|]. intros _.
  apply oblivious_bind; [oblivious_steps|]. intros history.
  destruct (length history <? 2)%nat; oblivious_steps.
Qed.

Lemma oblivious_merge_loop stocks : forall i acc,
  oblivious print_or_history (merge_loop rt w i stocks acc).
Proof.
  induction stocks as [|stock rest IH]; intros i acc; simpl; [oblivious_steps|].
  apply oblivious_bind; [apply oblivious_merge_stock | intros acc'; apply IH].
Qed.

Lemma merge_stock_dict_calls i d acc :
  exists evs,
    runs_as (merge_stock rt w i (JObj d) acc)
            (inr (acc ++ view_of rt w i (JObj d))) evs /\
    history_calls evs = List.filter truthy [ticker_of (JObj d)].
Proof.
  destruct (oblivious_merge_stock i (JObj d) acc) as (r & evs & Hrun & _).
  exists evs.
  destruct (merge_stock_dict rt w i d acc state0) as (st' & Hres & _).
  pose proof (Hrun state0) as H0. rewrite Hres in H0. injection H0 as <- _.
  split; [exact Hrun|].
  (* the events: the fetch, when the ticker counts as true *)
  clear Hres st'. revert Hrun.
  unfold merge_stock, runs_as; simpl.
  destruct (truthy (dict_get_default d "ticker" JNull)) eqn:Ht; simpl; intros Hrun.
  - specialize (Hrun state0). unfold bind at 1 in Hrun. simpl in Hrun.
    rewrite Ht in Hrun. simpl in Hrun.
    unfold try_except, bind, emit, print, lift in Hrun. simpl in Hrun.
    destruct (yf_history w i (dict_get_default d "ticker" JNull)) as [e|history];
      simpl in Hrun.
    + injection Hrun as _ Hevs. now subst evs.
    + destruct (length history <? 2)%nat; simpl in Hrun.
      * injection Hrun as _ Hevs. now subst evs.
      * destruct (iloc history (-1)) as [e1|last_close]; simpl in Hrun;
          [injection Hrun as _ Hevs; now subst evs|].
        destruct (iloc history (-2)) as [e2|prev_close]; simpl in Hrun;
          [injection Hrun as _ Hevs; now subst evs|].
        injection Hrun as _ Hevs. now subst evs.
  - specialize (Hrun state0). unfold bind at 1 in Hrun. simpl in Hrun.
    rewrite Ht in Hrun. simpl in Hrun. injection Hrun as _ Hevs. now subst evs.
Qed.

Lemma merge_loop_dicts_calls stocks : forall i acc,
  Forall is_dict stocks ->
  exists evs,
    runs_as (merge_loop rt w i stocks acc) (inr (acc ++ merged_of rt w i stocks)) evs /\
    history_calls evs = List.filter truthy (map ticker_of stocks).
Proof.
  induction stocks as [|stock rest IH]; intros i acc Hall; simpl.
  - exists []. split; [|reflexivity]. rewrite app_nil_r. apply runs_as_ret.
  - inversion Hall as [|? ? Hd Hrest]; subst.
    destruct stock as [|b|z|f|s|l|d]; try now destruct Hd.
    destruct (merge_stock_dict_calls i d acc) as (evs1 & Hstep & Hc1).
    destruct (IH (S i) (acc ++ view_of rt w i (JObj d)) Hrest) as (evs2 & Hloop & Hc2).
    exists (evs1 ++ evs2). split.
    + rewrite app_assoc.
      now apply (runs_as_bind_ok _ _ (acc ++ view_of rt w i (JObj d))).
    + destruct (calls_app evs1 evs2) as (_ & _ & ->). rewrite Hc1, Hc2.
      simpl. now destruct (truthy (dict_get_default d "ticker" JNull)).
Qed.

End DailyCalls.

(** X18: the daily handler is read-only: in every state, whether it
    answers or raises, the cache is the one it found, and the only
    events are prints and price fetches: it never calls the LLM and
    never looks a name up. *)
Theorem daily_is_read_only (rt : Runtime) (w : World) (st : state) :
  exists evs,
    snd (get_daily_stock_data rt w st) = logged st evs /\
    llm_calls evs = [] /\ info_calls evs = [].
Proof.
  destruct (is_stale (weekly_stock_data st) (now w)) as [e|[|]] eqn:Hs.
  - exists []. rewrite (get_daily_raises rt w st e Hs). simpl.
    now rewrite logged_nil.
  - exists []. rewrite (get_daily_stale rt w st Hs). simpl.
    now rewrite logged_nil.
  - destruct (oblivious_merge_loop rt w (data (weekly_stock_data st)) 0 [])
      as (r & evs & Hrun & Hevs).
    exists evs. split; [|now apply calls_of_print_or_history].
    rewrite (get_daily_fresh rt w st Hs). unfold bind. rewrite Hrun.
    now destruct r.
Qed.

(** X19: on a fresh cache of dicts the price service is asked once for
    each cached item with a ticker, in the order of the cache, and the
    answer is the list of the items' contributions. *)
Theorem price_fetches_once_per_ticker (rt : Runtime) (w : World) (st : state) :
  Forall is_dict (data (weekly_stock_data st)) ->
  is_stale (weekly_stock_data st) (now w) = inr false ->
  exists evs,
    get_daily_stock_data rt w st =
      (inr (JArr (merged_of rt w 0 (data (weekly_stock_data st)))), logged st evs) /\
    history_calls evs =
      List.filter truthy (map ticker_of (data (weekly_stock_data st))).
Proof.
  intros Hall Hs.
  destruct (merge_loop_dicts_calls rt w _ 0 [] Hall) as (evs & Hrun & Hcalls).
  exists evs. split; [|exact Hcalls].
  rewrite (get_daily_fresh rt w st Hs). unfold bind. now rewrite Hrun.
Qed.

Lemma price_fetches_once_per_ticker_witness :
  exists evs,
    get_daily_stock_data Reference.runtime Sample.world (Sample.aged (days 1)) =
      (inr (JArr (merged_of Reference.runtime Sample.world 0 Sample.enriched)),
       logged (Sample.aged (days 1)) evs) /\
    history_calls evs = List.filter truthy (map ticker_of Sample.enriched).
Proof.
  apply (price_fetches_once_per_ticker Reference.runtime Sample.world
           (Sample.aged (days 1))).
  - repeat constructor.
  - reflexivity.
Defined.

(** The fetches of the sample: one for each cached ticker, ZZZ included. *)
Example sample_fetches :
  history_calls
    (trace (snd (get_daily_stock_data Reference.runtime Sample.world
                   (Sample.aged (days 1))))) =
    [JStr "AAPL"; JStr "ZZZ"; JStr "NVDA"].
Proof. vm_compute. reflexivity. Qed.

(** ** Staleness over time *)

Lemma get_daily_error_iff (rt : Runtime) (w : World) (st : state) :
  fst (get_daily_stock_data rt w st) = inr staleness_error <->
  is_stale (weekly_stock_data st) (now w) = inr true.
Proof.
  destruct (is_stale (weekly_stock_data st) (now w)) as [e|[|]] eqn:Hs.
  - rewrite (get_daily_raises rt w st e Hs). simpl. split; discriminate.
  - rewrite (get_daily_stale rt w st Hs). simpl. split; reflexivity.
  - rewrite (get_daily_fresh rt w st Hs). unfold bind.
    destruct (merge_loop rt w 0 _ [] st) as [[e|m] st1]; simpl; split; discriminate.
Qed.

(** X20: staleness is strict and only grows with time: a non-empty cache
    stored exactly seven days ago, or stamped in the future, is still
    served; once the handler has answered with the staleness error, it
    does so at every later time as long as the cache is not
    regenerated. *)
Theorem staleness_strict_and_monotone (rt : Runtime) (w w' : World) (st : state) :
  let c := weekly_stock_data st in
  (forall t, last_updated c = Some t -> now w - t <= seven_days -> data c <> [] ->
             fst (get_daily_stock_data rt w st) <> inr staleness_error) /\
  (fst (get_daily_stock_data rt w st) = inr staleness_error ->
   now w <= now w' ->
   get_daily_stock_data rt w' st = (inr staleness_error, st)).
Proof.
  intros c. split.
  - intros t Ht Hage Hne Herr.
    apply get_daily_error_iff, is_stale_spec in Herr.
    fold c in Herr. destruct Herr as [Hnil | (t' & Ht' & Hgt)]; [contradiction|].
    rewrite Ht in Ht'. injection Ht' as <-. lia.
  - intros Herr Hle. apply get_daily_stale, is_stale_spec.
    apply get_daily_error_iff, is_stale_spec in Herr.
    destruct Herr as [Hnil | (t & Ht & Hgt)]; [now left|].
    right. exists t. split; [assumption | lia].
Qed.

Lemma staleness_strict_and_monotone_witness :
  fst (get_daily_stock_data Reference.runtime Sample.world (Sample.aged (days 7)))
    <> inr staleness_error /\
  get_daily_stock_data Reference.runtime (Scenario.at_time (days 20009))
    (Sample.aged (days 8)) = (inr staleness_error, Sample.aged (days 8)).
Proof.
  split.
  - apply (proj1 (staleness_strict_and_monotone Reference.runtime Sample.world
                    Sample.world (Sample.aged (days 7)))
             (now Sample.world - days 7));
      [reflexivity | vm_compute; discriminate | discriminate].
  - apply (proj2 (staleness_strict_and_monotone Reference.runtime Sample.world
                    (Scenario.at_time (days 20009)) (Sample.aged (days 8))));
      [reflexivity | vm_compute; discriminate].
Defined.

(** ** The cache across requests *)

Lemma enriched_of_items (w : World) (stocks : list json) : forall i,
  Forall enriched_item (enriched_of w i stocks).
Proof.
  induction stocks as [|stock rest IH]; intros i; simpl; [constructor|].
  apply Forall_app. split; [|apply IH].
  unfold enrich_of. destruct stock as [|b|z|f|s|l|d]; try constructor.
  destruct (truthy (dict_get_default d "ticker" JNull)) eqn:Ht; constructor;
    [|constructor].
  split; [exact I|]. split.
  - rewrite ticker_of_dict_set_name. exact Ht.
  - simpl. rewrite dict_get_set_eq. discriminate.
Qed.

Lemma store_enriched_items (rt : Runtime) (w : World) (response_data : json)
    (st1 st2 : state) (res : exn + json) :
  store_enriched rt w response_data st1 = (res, st2) ->
  (exists e, res = inl e /\ weekly_stock_data st2 = weekly_stock_data st1) \/
  (exists stocks,
      res = inr (generated_response (length (enriched_of w 0 stocks))) /\
      weekly_stock_data st2 = Cache (Some (now w)) (enriched_of w 0 stocks)).
Proof.
  unfold store_enriched. intros Hrun.
  unfold bind at 1 in Hrun.
  destruct (py_get response_data "stocks" (JArr [])) as [e|sl]; simpl in Hrun;
    [injection Hrun as <- <-; left; eauto|].
  unfold bind at 1 in Hrun.
  destruct (py_iter sl) as [e|items]; simpl in Hrun;
    [injection Hrun as <- <-; left; eauto|].
  pose proof (preserves_enrich_loop rt w items 0 [] st1) as H3.
  unfold bind at 1 in Hrun.
  destruct (enrich_loop rt w 0 items [] st1) as [[e|enriched] st4] eqn:Hloop;
    simpl in *; [injection Hrun as <- <-; left; eauto|].
  pose proof (enrich_loop_returns rt w _ _ _ _ _ _ Hloop) as Hall.
  destruct (enrich_loop_dicts rt w items 0 [] st1 Hall) as (st5 & Hloop' & _).
  rewrite Hloop in Hloop'. injection Hloop' as -> _.
  injection Hrun as <- <-. right. exists items. split; reflexivity.
Qed.

(** What a generation leaves in the cache: the old record with an error
    answer, or the contributions of a decoded list with their number. *)
Lemma generate_outcome_items (rt : Runtime) (w : World) (p : string) (st : state) :
  (exists e,
      fst (generate_weekly_stocks rt w p st) = inr (error_response e) /\
      weekly_stock_data (snd (generate_weekly_stocks rt w p st)) = weekly_stock_data st) \/
  (exists stocks,
      fst (generate_weekly_stocks rt w p st) =
        inr (generated_response (length (enriched_of w 0 stocks))) /\
      weekly_stock_data (snd (generate_weekly_stocks rt w p st)) =
        Cache (Some (now w)) (enriched_of w 0 stocks)).
Proof.
  destruct (decode_phase rt w p st) as [[e|response_data] st1] eqn:Hdec.
  - left. exists e.
    rewrite (generate_weekly_stocks_decode_error rt w p st st1 e Hdec). simpl.
    pose proof (preserves_decode_phase rt w p st) as H. now rewrite Hdec in H.
  - pose proof (preserves_decode_phase rt w p st) as Hpres.
    rewrite Hdec in Hpres. simpl in Hpres.
    rewrite (generate_weekly_stocks_after_decoding rt w p st st1 _ Hdec).
    destruct (store_enriched rt w response_data st1) as [res st2] eqn:Hstore.
    destruct (store_enriched_items rt w response_data st1 st2 res Hstore)
      as [(e & -> & Hc)|(stocks & -> & Hc)]; simpl.
    + left. exists e. split; [reflexivity | congruence].
    + right. exists stocks. split; [reflexivity | assumption].
Qed.

Lemma generate_keeps_invariant (rt : Runtime) (w : World) (p : string) (st : state) :
  cache_invariant (weekly_stock_data st) ->
  cache_invariant (weekly_stock_data (snd (generate_weekly_stocks rt w p st))).
Proof.
  intros Hinv.
  destruct (generate_outcome_items rt w p st) as [(e & _ & ->)|(stocks & _ & ->)];
    [assumption|].
  split; simpl; [apply enriched_of_items | discriminate].
Qed.

Lemma get_daily_keeps_cache (rt : Runtime) (w : World) (st : state) :
  weekly_stock_data (snd (get_daily_stock_data rt w st)) = weekly_stock_data st.
Proof.
  destruct (is_stale (weekly_stock_data st) (now w)) as [e|[|]] eqn:Hs.
  - now rewrite (get_daily_raises rt w st e Hs).
  - now rewrite (get_daily_stale rt w st Hs).
  - destruct (oblivious_merge_loop rt w (data (weekly_stock_data st)) 0 [])
      as (r & evs & Hrun & _).
    rewrite (get_daily_fresh rt w st Hs). unfold bind. rewrite Hrun.
    now destruct r.
Qed.

Lemma invariant_items_are_dicts (c : cache) :
  cache_invariant c -> Forall is_dict (data c).
Proof.
  intros (Hall & _). eapply Forall_impl; [exact Hall|].
  now intros item (Hd & _).
Qed.

Lemma serve_all_keeps_invariant (rt : Runtime) (rs : list request) : forall st,
  cache_invariant (weekly_stock_data st) ->
  cache_invariant (weekly_stock_data (serve_all rt rs st)).
Proof.
  induction rs as [|[w p|w] rs IH]; intros st Hinv; simpl; [assumption| |].
  - apply IH. now apply generate_keeps_invariant.
  - apply IH. now rewrite get_daily_keeps_cache.
Qed.

(** X21: whatever requests were served since the start, in whatever
    worlds, every cached item is a dict with a ticker that counts as
    true and a name, a non-empty cache has a timestamp, and the daily
    handler does not raise: it answers with the staleness error or with
    a list. *)
Theorem cache_invariant_across_requests (rt : Runtime) (rs : list request)
    (w : World) :
  let st := serve_all rt rs state0 in
  cache_invariant (weekly_stock_data st) /\
  exists resp st',
    get_daily_stock_data rt w st = (inr resp, st') /\
    (resp = staleness_error \/
     resp = JArr (merged_of rt w 0 (data (weekly_stock_data st)))).
Proof.
  intros st.
  assert (Hinv : cache_invariant (weekly_stock_data st)).
  { apply serve_all_keeps_invariant. split; [constructor | intros H; now destruct H]. }
  split; [exact Hinv|].
  pose proof (invariant_items_are_dicts _ Hinv) as Hall.
  assert (Hwf : well_formed (weekly_stock_data st)) by (split; [exact Hall | apply Hinv]).
  destruct (is_stale_well_formed _ (now w) Hwf) as ([|] & Hs).
  - exists staleness_error, st. split; [now apply get_daily_stale | now left].
  - destruct (merge_loop_dicts rt w _ 0 [] st Hall) as (st1 & Hloop & _).
    eexists _, st1. split; [|now right].
    rewrite (get_daily_fresh rt w st Hs). unfold bind. now rewrite Hloop.
Qed.

(** ** The shape of the served views *)

Lemma view_of_keys (rt : Runtime) (w : World) (i : nat) (stock v : json) :
  In v (view_of rt w i stock) -> keys_of v = view_keys.
Proof.
  unfold view_of. destruct stock as [|b|z|f|s|l|d]; try (intros []).
  destruct (truthy _); [|intros []].
  destruct (yf_history w i _) as [e|closes]; [intros []|].
  destruct (rev closes) as [|last_close [|prev_close r]]; [intros []..|].
  now intros [<-|[]].
Qed.

Lemma dict_get_key (d : dict) (k : string) (x : json) :
  dict_get d k = Some x -> In k (map fst d).
Proof.
  induction d as [|[k' v'] d IH]; simpl; [discriminate|].
  destruct (String.eqb_spec k' k) as [->|Hne]; [now left | right; auto].
Qed.

(** X22: every served view has exactly the seven keys id, ticker, name,
    buy_sell_score, reason, price and changePct, in this order: any
    other key of the cached item (the ["preference_score"] of the
    prompt's example format, for one) is not served. *)
Theorem served_views_have_seven_keys (rt : Runtime) (w : World) (st st' : state)
    (views : list json) (v : json) :
  get_daily_stock_data rt w st = (inr (JArr views), st') ->
  In v views ->
  keys_of v = view_keys /\
  forall k, ~ In k view_keys -> field v k = None.
Proof.
  intros Hrun Hin.
  destruct (returned_view_origin rt w st st' views v Hrun Hin) as (k & d & _ & Hv).
  pose proof (view_of_keys rt w k (JObj d) v Hv) as Hkeys.
  split; [exact Hkeys|].
  intros key Hnot. rewrite <- Hkeys in Hnot.
  destruct v as [| | | | | |dv]; try reflexivity.
  unfold field, keys_of in *.
  destruct (dict_get dv key) as [x|] eqn:Hget; [|reflexivity].
  exfalso. apply Hnot. now apply (dict_get_key dv key x).
Qed.

Lemma served_views_have_seven_keys_witness :
  keys_of Sample.nvda_view = view_keys /\
  forall k, ~ In k view_keys -> field Sample.nvda_view k = None.
Proof.
  apply (served_views_have_seven_keys Reference.runtime Sample.world
           (Sample.aged (days 1))
           (snd (get_daily_stock_data Reference.runtime Sample.world
                   (Sample.aged (days 1))))
           [Sample.aapl_view; Sample.nvda_view]).
  - vm_compute. reflexivity.
  - right. now left.
Defined.

(** ** A generation followed by a read *)

Lemma merged_of_length (rt : Runtime) (w : World) (stocks : list json) : forall i,
  (length (merged_of rt w i stocks) <= length stocks)%nat.
Proof.
  induction stocks as [|stock rest IH]; intros i; simpl; [lia|].
  rewrite length_app. specialize (IH (S i)).
  assert (length (view_of rt w i stock) <= 1)%nat; [|lia].
  unfold view_of. destruct stock as [|b|z|f|s|l|d]; simpl; try lia.
  destruct (truthy _); simpl; [|lia].
  destruct (yf_history w i _) as [e|closes]; simpl; [lia|].
  destruct (rev closes) as [|last_close [|prev_close r]]; simpl; lia.
Qed.

(** X23: a generation that stored at least one item can be read at once
    and for seven days: a daily request in any world whose time is at
    most seven days later answers with a list of at most as many views
    as the generation counted, never with the staleness error, and
    leaves the cache as the generation wrote it. *)
Theorem fresh_generation_is_served (rt : Runtime) (w1 w2 : World) (p : string)
    (st st1 : state) (n : nat) :
  generate_weekly_stocks rt w1 p st = (inr (generated_response n), st1) ->
  (0 < n)%nat ->
  now w2 - now w1 <= seven_days ->
  exists views st2,
    get_daily_stock_data rt w2 st1 = (inr (JArr views), st2) /\
    (length views <= n)%nat /\
    weekly_stock_data st2 = weekly_stock_data st1.
Proof.
  intros Hgen Hn Hage.
  destruct (generate_outcome_items rt w1 p st) as [(e & Hr & _)|(stocks & Hr & Hc)];
    rewrite Hgen in *; simpl in *; [discriminate|].
  injection Hr as Hlen. apply Nat2Z.inj in Hlen. subst n.
  assert (Hs : is_stale (weekly_stock_data st1) (now w2) = inr false).
  { rewrite Hc. unfold is_stale. simpl.
    destruct (enriched_of w1 0 stocks) as [|item items]; [simpl in Hn; lia|].
    f_equal. apply Z.ltb_ge. lia. }
  assert (Hall : Forall is_dict (data (weekly_stock_data st1))).
  { rewrite Hc. simpl. eapply Forall_impl; [apply enriched_of_items|].
    now intros item (Hd & _). }
  destruct (merge_loop_dicts rt w2 _ 0 [] st1 Hall) as (st2 & Hloop & Hc2).
  eexists _, st2. split; [|split; [|exact Hc2]].
  - rewrite (get_daily_fresh rt w2 st1 Hs). unfold bind. now rewrite Hloop.
  - simpl. rewrite Hc. simpl. apply merged_of_length.
Qed.

Lemma fresh_generation_is_served_witness :
  exists views st2,
    get_daily_stock_data Reference.runtime (Scenario.at_time (days 20007))
      (snd (generate_weekly_stocks Reference.runtime Sample.world "openai" state0))
      = (inr (JArr views), st2) /\
    (length views <= 3)%nat /\
    weekly_stock_data st2 =
      weekly_stock_data
        (snd (generate_weekly_stocks Reference.runtime Sample.world "openai" state0)).
Proof.
  apply (fresh_generation_is_served Reference.runtime Sample.world
           (Scenario.at_time (days 20007)) "openai" state0).
  - vm_compute. reflexivity.
  - lia.
  - vm_compute. discriminate.
Defined.
